(** * Spike AI backend: orchestrator, agents and language-model gateway

    A shallow embedding of
      - [server/lib/litellm.ts]        (class [LiteLLMClient], module [Gateway]),
      - [server/agents/analytics-agent.ts] (module [AnalyticsAgent]),
      - [server/agents/seo-agent.ts]   (module [SEOAgent]),
      - [server/orchestrator.ts]       (module [Orchestrator]),
    together with the part of the JavaScript runtime these files rely on
    (module [Js]).

    Conventions of the embedding.
      - A JavaScript string is a [string]; [toLowerCase] and [trim] act on the
        ASCII range (letters A-Z, the six ASCII white-space characters).
      - IEEE-754 arithmetic is not embedded: the numeric kernel of the runtime
        is the interface [JsNumber], and every theorem holds for every kernel
        that satisfies its laws.  [RefNumber] is an executable kernel on
        integer numerals, used to evaluate the definitions.
      - An [async] function is a computation in the monad [M]: it reads the
        [World] (the remote services and [JSON.parse]), logs every external
        call as an [event], and either returns or throws an [exn].
      - A plan decoded from the model's reply has the shape its prompt asks
        for: field names are strings, cells and clause values are primitive
        values, and a field may be absent.
      - A row or record is read by its own properties.  Reading a name that
        plain objects inherit from [Object.prototype] ([row['constructor']])
        is outside the embedding: a theorem about a column that a row lacks
        excludes those names by hypothesis.
      - [Array.prototype.sort] is fixed by ECMA-262 only for a consistent
        comparator; [Js.sort] is that array.  A theorem about the order of
        a sorted result has the consistency as its hypothesis; module [V8]
        has the engine's steps on short arrays for the other case.
      - [log] only writes to the console; it is left out. *)

From Stdlib Require Import String Ascii List ZArith Bool Lia Arith DecimalString.
From Stdlib Require Import NArith Nnat Permutation Sorted OrderedTypeEx.
Import ListNotations.
Open Scope string_scope.
Open Scope list_scope.

Set Implicit Arguments.

(* ================================================================== *)
(** ** The JavaScript runtime used by the sources *)
(* ================================================================== *)

Module Js.

(** *** Strings *)

Definition lower_ascii (c : ascii) : ascii :=
  let n := nat_of_ascii c in
  if (65 <=? n)%nat && (n <=? 90)%nat then ascii_of_nat (n + 32) else c.

(** [String.prototype.toLowerCase]. *)
Fixpoint toLowerCase (s : string) : string :=
  match s with
  | EmptyString => EmptyString
  | String c r => String (lower_ascii c) (toLowerCase r)
  end.

(** [s.includes(t)]: [t] occurs in [s] as a contiguous substring. *)
Fixpoint includes (s t : string) : bool :=
  String.prefix t s ||
  match s with
  | EmptyString => false
  | String _ r => includes r t
  end.

Definition is_white_space (c : ascii) : bool :=
  match nat_of_ascii c with
  | 9 | 10 | 11 | 12 | 13 | 32 => true
  | _ => false
  end%nat.

Fixpoint trimStart (s : string) : string :=
  match s with
  | EmptyString => EmptyString
  | String c r => if is_white_space c then trimStart r else s
  end.

Fixpoint trimEnd (s : string) : string :=
  match s with
  | EmptyString => EmptyString
  | String c r =>
      match trimEnd r with
      | EmptyString => if is_white_space c then EmptyString else String c EmptyString
      | r' => String c r'
      end
  end.

(** [String.prototype.trim]. *)
Definition trim (s : string) : string := trimEnd (trimStart s).

(** [Array.prototype.join(sep)] on an array of strings. *)
Definition join (sep : string) (l : list string) : string := String.concat sep l.

(** [Array.prototype.includes] on an array of strings. *)
Definition array_includes (l : list string) (s : string) : bool :=
  existsb (String.eqb s) l.

(** The decimal numeral of a natural number, as a template literal prints it. *)
Definition nat_toString (n : nat) : string :=
  NilEmpty.string_of_uint (Nat.to_uint n).

(** [s < t] on two strings: lexicographic on character codes. *)
Definition string_lt (s t : string) : bool :=
  match String.compare s t with
  | Lt => true
  | _ => false
  end.

(** *** Exceptions *)

(** A thrown [Error]; the sources only ever read its [message]. *)
Record exn := Error { message : string }.

Inductive outcome (A : Type) :=
| Returned (a : A)
| Thrown (e : exn).
Arguments Returned {A} a.
Arguments Thrown {A} e.

(** *** Numbers *)

Inductive ext_int := NegInfinity | Finite (z : Z) | PosInfinity.

(** The numeric kernel: the Number type with the conversions of ECMA-262. *)
Class JsNumber := {
  number : Type;
  NaN : number;
  (** the Number value of a small natural number (an array length) *)
  of_nat : nat -> number;
  (** [Number::lessThan], with the undefined result read as [false] *)
  num_lt : number -> number -> bool;
  (** [Number::equal] *)
  num_eq : number -> number -> bool;
  (** [ToBoolean] on a Number: false for +0, -0 and NaN *)
  num_truthy : number -> bool;
  (** [StringToNumber] *)
  StringToNumber : string -> number;
  (** [parseFloat] on a string argument *)
  parseFloat_string : string -> number;
  (** [Number::toString] in radix 10 *)
  number_toString : number -> string;
  (** [ToIntegerOrInfinity] *)
  ToIntegerOrInfinity : number -> ext_int;

  lt_NaN_l : forall x, num_lt NaN x = false;
  lt_NaN_r : forall x, num_lt x NaN = false;
  lt_irrefl : forall x, num_lt x x = false;
  parseFloat_undefined : parseFloat_string "undefined" = NaN;
  truthy_zero : num_truthy (of_nat 0) = false;
  truthy_of_nat : forall n, (0 < n)%nat -> (Z.of_nat n <= 2 ^ 53)%Z ->
                            num_truthy (of_nat n) = true;
  integer_of_nat : forall n, (Z.of_nat n <= 2 ^ 53)%Z ->
                             ToIntegerOrInfinity (of_nat n) = Finite (Z.of_nat n)
}.

(** *** Primitive values *)

Section Values.
Context {Num : JsNumber}.

Inductive prim :=
| PUndefined
| PNull
| PBool (b : bool)
| PNumber (n : number)
| PString (s : string).

(** [ToString] (also [String(v)] and the coercion of a template literal). *)
Definition ToString (v : prim) : string :=
  match v with
  | PUndefined => "undefined"
  | PNull => "null"
  | PBool true => "true"
  | PBool false => "false"
  | PNumber n => number_toString n
  | PString s => s
  end.

Definition ToNumber (v : prim) : number :=
  match v with
  | PUndefined => NaN
  | PNull => of_nat 0
  | PBool true => of_nat 1
  | PBool false => of_nat 0
  | PNumber n => n
  | PString s => StringToNumber s
  end.

Definition ToBoolean (v : prim) : bool :=
  match v with
  | PUndefined | PNull => false
  | PBool b => b
  | PNumber n => num_truthy n
  | PString s => negb (String.eqb s "")
  end.

(** [parseFloat(v)]: the argument is converted with [ToString] first. *)
Definition parseFloat (v : prim) : number := parseFloat_string (ToString v).

(** [x == y] (IsLooselyEqual) on primitive values. *)
Definition looseEq (x y : prim) : bool :=
  let unbool v := match v with PBool _ => PNumber (ToNumber v) | _ => v end in
  match x, y with
  | PBool a, PBool b => Bool.eqb a b
  | _, _ =>
      match unbool x, unbool y with
      | PUndefined, (PUndefined | PNull) => true
      | PNull, (PUndefined | PNull) => true
      | PNumber a, PNumber b => num_eq a b
      | PString a, PString b => String.eqb a b
      | PNumber a, PString b => num_eq a (StringToNumber b)
      | PString a, PNumber b => num_eq (StringToNumber a) b
      | _, _ => false
      end
  end.

(** [x != y]. *)
Definition looseNeq (x y : prim) : bool := negb (looseEq x y).

(** *** Objects of the tabular agent *)

(** A spreadsheet row: an object whose own properties are the columns, in
    insertion order.  Only own properties are looked up: for a column name
    that is a member of [Object.prototype] and that the row lacks, the
    source reads the inherited member where [row_get] reads [undefined], so
    such names are excluded wherever an absent column is read. *)
Definition Row := list (string * prim).

(** A property value of a result record: a primitive, or the [items] array
    of a group (an array of row objects). *)
Inductive value :=
| VPrim (p : prim)
| VRows (items : list Row).

Definition Record := list (string * value).

Fixpoint get {V : Type} (undefined : V) (o : list (string * V)) (k : string) : V :=
  match o with
  | [] => undefined
  | (k', v) :: o' => if String.eqb k k' then v else get undefined o' k
  end.

(** [o[k] = v]: an existing property keeps its position. *)
Fixpoint set {V : Type} (o : list (string * V)) (k : string) (v : V) : list (string * V) :=
  match o with
  | [] => [(k, v)]
  | (k', v') :: o' => if String.eqb k k' then (k', v) :: o' else (k', v') :: set o' k v
  end.

Definition has {V : Type} (o : list (string * V)) (k : string) : bool :=
  existsb (fun kv => String.eqb k (fst kv)) o.

(** [row[column]] on a row. *)
Definition row_get (r : Row) (column : string) : prim := get PUndefined r column.

(** [a[column]] on a result record. *)
Definition record_get (r : Record) (column : string) : value :=
  get (VPrim PUndefined) r column.

Definition record_of_row (r : Row) : Record :=
  map (fun kv => (fst kv, VPrim (snd kv))) r.

(** [ToPrimitive]: an array of [k] row objects prints as [k] copies of
    "[object Object]" separated by commas. *)
Definition ToPrimitive (v : value) : prim :=
  match v with
  | VPrim p => p
  | VRows items => PString (join "," (map (fun _ => "[object Object]") items))
  end.

(** [x < y] (IsLessThan, undefined read as [false]). *)
Definition js_lt (x y : value) : bool :=
  match ToPrimitive x, ToPrimitive y with
  | PString a, PString b => string_lt a b
  | px, py => num_lt (ToNumber px) (ToNumber py)
  end.

(** [x > y]. *)
Definition js_gt (x y : value) : bool := js_lt y x.

(** *** Arrays *)

(** [Array.prototype.sort(compareFn)].  ECMA-262 requires a stable sort:
    when [compareFn] is a consistent comparator for the elements, every
    conforming sort returns the same array, the one computed here by
    insertion.  When it is not, ECMA-262 leaves the order to the
    implementation, and [sort] says nothing of the engine's choice; the
    engine's own steps are in module [V8]. *)
Section Sort.
Variable A : Type.
Variable compareFn : A -> A -> Z.

Fixpoint insert (x : A) (l : list A) : list A :=
  match l with
  | [] => [x]
  | y :: l' => if (compareFn x y <=? 0)%Z then x :: l else y :: insert x l'
  end.

Fixpoint sort (l : list A) : list A :=
  match l with
  | [] => []
  | x :: l' => insert x (sort l')
  end.

(** ECMA-262, "consistent comparator": [compareFn] is one for the values
    in [S].  With a <CF b for [compareFn a b < 0], a =CF b for
    [compareFn a b = 0] and a >CF b for [compareFn a b > 0]: =CF is
    reflexive, symmetric and transitive, and <CF and >CF are transitive.
    (That a call always returns the same Number holds of a function.) *)
Definition consistent (S : list A) : Prop :=
  (forall a, In a S -> compareFn a a = 0%Z) /\
  (forall a b, In a S -> In b S -> compareFn a b = 0%Z -> compareFn b a = 0%Z) /\
  (forall a b c, In a S -> In b S -> In c S ->
     compareFn a b = 0%Z -> compareFn b c = 0%Z -> compareFn a c = 0%Z) /\
  (forall a b c, In a S -> In b S -> In c S ->
     (compareFn a b < 0)%Z -> (compareFn b c < 0)%Z -> (compareFn a c < 0)%Z) /\
  (forall a b c, In a S -> In b S -> In c S ->
     (compareFn a b > 0)%Z -> (compareFn b c > 0)%Z -> (compareFn a c > 0)%Z).
End Sort.

(** [a.slice(0, end)] for a Number [end]. *)
Definition slice0 {A : Type} (a : list A) (end_ : number) : list A :=
  let len := Z.of_nat (length a) in
  let final :=
    match ToIntegerOrInfinity end_ with
    | NegInfinity => 0%Z
    | Finite e => if (e <? 0)%Z then Z.max (len + e) 0 else Z.min e len
    | PosInfinity => len
    end in
  firstn (Z.to_nat final) a.

(** *** Own property keys *)

Definition is_digit (c : ascii) : bool :=
  let n := nat_of_ascii c in (48 <=? n)%nat && (n <=? 57)%nat.

Fixpoint digits_value (acc : N) (s : string) : option N :=
  match s with
  | EmptyString => Some acc
  | String c r =>
      if is_digit c
      then digits_value (acc * 10 + (N_of_ascii c - 48))%N r
      else None
  end.

(** An array index is the canonical numeral of an integer below 2^32 - 1. *)
Definition array_index (k : string) : option N :=
  match k with
  | EmptyString => None
  | String c r =>
      if (Ascii.eqb c "0" && negb (String.eqb r ""))%bool then None
      else match digits_value 0 k with
           | Some n => if (n <? 4294967295)%N then Some n else None
           | None => None
           end
  end.

Fixpoint insert_index {V : Type} (n : N) (kv : string * V)
         (l : list (N * (string * V))) : list (N * (string * V)) :=
  match l with
  | [] => [(n, kv)]
  | (m, kv') :: l' =>
      if (n <=? m)%N then (n, kv) :: l else (m, kv') :: insert_index n kv l'
  end.

(** [Object.entries(o)]: array indices in ascending order, then the other
    keys in insertion order. *)
Definition entries {V : Type} (o : list (string * V)) : list (string * V) :=
  let indexed :=
    fold_right (fun kv acc =>
                  match array_index (fst kv) with
                  | Some n => insert_index n kv acc
                  | None => acc
                  end) [] o in
  map snd indexed ++
  filter (fun kv => match array_index (fst kv) with Some _ => false | None => true end) o.

(** [Object.keys(o)]. *)
Definition keys {V : Type} (o : list (string * V)) : list string :=
  map fst (entries o).

(** [response.match(/\{[\s\S]*\}/)]: from the first opening brace to the
    last closing brace after it; [None] when there is no match. *)
Fixpoint from_first_open (s : string) : option string :=
  match s with
  | EmptyString => None
  | String c r => if Ascii.eqb c "{" then Some s else from_first_open r
  end.

Fixpoint upto_last_close (s : string) : option string :=
  match s with
  | EmptyString => None
  | String c r =>
      match upto_last_close r with
      | Some p => Some (String c p)
      | None => if Ascii.eqb c "}" then Some (String c EmptyString) else None
      end
  end.

Definition match_object (s : string) : option string :=
  match from_first_open s with
  | Some (String c r) => option_map (String c) (upto_last_close r)
  | _ => None
  end.

(** The property names every plain object inherits from [Object.prototype]. *)
Definition Object_prototype_names : list string :=
  [ "constructor"; "hasOwnProperty"; "isPrototypeOf"; "propertyIsEnumerable";
    "toLocaleString"; "toString"; "valueOf"; "__proto__";
    "__defineGetter__"; "__defineSetter__"; "__lookupGetter__"; "__lookupSetter__" ].

End Values.

End Js.

(** *** The engine's [Array.prototype.sort]

    The sources run on Node.js, whose engine sorts with TimSort
    ([third_party/v8/builtins/array-sort.tq]).  [ComputeMinRunLength] of an
    array shorter than 64 elements is the array's length, so
    [ArrayTimSortImpl] treats such an array as one run: [CountAndMakeRun]
    finds the run at the front (reversing it when it descends), and
    [BinaryInsertionSort] inserts the remaining elements one by one; no two
    runs are ever merged.  This module has these steps; it is the engine's
    sort on arrays shorter than 64 elements only. *)
Module V8.

Section ArrayTimSort.
Variable A : Type.

(** [sortState.Compare(x, y)]: the Number the comparator returns. *)
Variable Compare : A -> A -> Z.

(** The [for] loop of [CountAndMakeRun]: how many of the elements after
    [previousElement] continue the run. *)
Fixpoint run_continues (isDescending : bool) (previousElement : A)
         (workArray : list A) : nat :=
  match workArray with
  | [] => 0
  | currentElement :: workArray' =>
      let order := Compare currentElement previousElement in
      if isDescending then
        if (order >=? 0)%Z then 0
        else S (run_continues isDescending currentElement workArray')
      else
        if (order <? 0)%Z then 0
        else S (run_continues isDescending currentElement workArray')
  end.

(** [CountAndMakeRun(0, length)]: the length of the run at the front, and
    the work array after [ReverseRange] when the run descends. *)
Definition CountAndMakeRun (workArray : list A) : nat * list A :=
  match workArray with
  | [] => (0, workArray)
  | [_] => (1, workArray)
  | elementHigh :: elementLow :: rest =>
      let order := Compare elementLow elementHigh in
      let isDescending := (order <? 0)%Z in
      let runLength := 2 + run_continues isDescending elementLow rest in
      if isDescending then
        (runLength, rev (firstn runLength workArray) ++ skipn runLength workArray)
      else
        (runLength, workArray)
  end.

(** The [while] loop of [BinaryInsertionSort]: the insertion point of
    [pivot] in [workArray[0 .. start)], here the list [sorted].  Every
    iteration shrinks [right - left], so [right - left] iterations are
    enough. *)
Fixpoint insertion_point (iterations : nat) (sorted : list A) (pivot : A)
         (left right : nat) : nat :=
  match iterations with
  | O => left
  | S iterations' =>
      if (left <? right)%nat then
        let mid := left + (right - left) / 2 in
        match nth_error sorted mid with
        | Some element =>
            let order := Compare pivot element in
            if (order <? 0)%Z
            then insertion_point iterations' sorted pivot left mid
            else insertion_point iterations' sorted pivot (mid + 1) right
        | None => left
        end
      else left
  end.

(** One round of the outer loop: [pivot] is moved to its insertion point
    and the elements from there on slide one slot to the right. *)
Definition place (sorted : list A) (pivot : A) : list A :=
  let left := insertion_point (length sorted) sorted pivot 0 (length sorted) in
  firstn left sorted ++ pivot :: skipn left sorted.

(** [BinaryInsertionSort(0, start, length)]: [sorted] is
    [workArray[0 .. start)], [rest] is [workArray[start .. length)]. *)
Fixpoint BinaryInsertionSort (sorted rest : list A) : list A :=
  match rest with
  | [] => sorted
  | pivot :: rest' => BinaryInsertionSort (place sorted pivot) rest'
  end.

(** [ArrayTimSortImpl] on a work array shorter than 64 elements. *)
Definition ArrayTimSortImpl (workArray : list A) : list A :=
  match workArray with
  | [] | [_] => workArray
  | _ =>
      let (runLength, workArray') := CountAndMakeRun workArray in
      BinaryInsertionSort (firstn runLength workArray') (skipn runLength workArray')
  end.

End ArrayTimSort.

End V8.

(** *** An executable numeric kernel on integer numerals

    Numbers are [RNaN] or an integer; numerals are read up to their integer
    part.  It satisfies the laws of [JsNumber] and is used to run the
    embedding on concrete inputs. *)
Module RefNumber.
Import Js.

Inductive refnum := RNaN | RInt (z : Z).

Fixpoint digits_prefix (s : string) : string :=
  match s with
  | EmptyString => EmptyString
  | String c r => if is_digit c then String c (digits_prefix r) else EmptyString
  end.

Definition unsigned_prefix (s : string) : option Z :=
  match digits_prefix s with
  | EmptyString => None
  | d => option_map Z.of_N (digits_value 0 d)
  end.

Definition negate (n : refnum) : refnum :=
  match n with
  | RInt z => RInt (- z)
  | RNaN => RNaN
  end.

Definition unsigned (s : string) : refnum :=
  match unsigned_prefix s with
  | Some z => RInt z
  | None => RNaN
  end.

(** The longest numeral at the head of [s], with its sign. *)
Definition signed_prefix (s : string) : refnum :=
  match s with
  | EmptyString => RNaN
  | String c r =>
      if Ascii.eqb c "-" then negate (unsigned r)
      else if Ascii.eqb c "+" then unsigned r
      else unsigned s
  end.

(** The numeral [s], when [s] is nothing but a numeral. *)
Definition signed_whole (s : string) : refnum :=
  let body := match s with
              | EmptyString => s
              | String c r => if Ascii.eqb c "-" || Ascii.eqb c "+" then r else s
              end in
  if String.eqb (digits_prefix body) body then signed_prefix s else RNaN.

Definition ref_StringToNumber (s : string) : refnum :=
  let t := trim s in
  if String.eqb t "" then RInt 0 else signed_whole t.

Definition ref_parseFloat (s : string) : refnum := signed_prefix (trimStart s).

Definition ref_toString (n : refnum) : string :=
  match n with
  | RNaN => "NaN"
  | RInt z =>
      if (z <? 0)%Z then "-" ++ nat_toString (Z.abs_nat z) else nat_toString (Z.abs_nat z)
  end.

Definition ref_lt (a b : refnum) : bool :=
  match a, b with
  | RInt x, RInt y => (x <? y)%Z
  | _, _ => false
  end.

Definition ref_eq (a b : refnum) : bool :=
  match a, b with
  | RInt x, RInt y => (x =? y)%Z
  | _, _ => false
  end.

Definition ref_truthy (a : refnum) : bool :=
  match a with
  | RInt x => negb (x =? 0)%Z
  | RNaN => false
  end.

Definition ref_integer (a : refnum) : ext_int :=
  match a with
  | RInt x => Finite x
  | RNaN => Finite 0
  end.

#[export] Program Instance kernel : JsNumber := {|
  number := refnum;
  NaN := RNaN;
  of_nat := fun n => RInt (Z.of_nat n);
  num_lt := ref_lt;
  num_eq := ref_eq;
  num_truthy := ref_truthy;
  StringToNumber := ref_StringToNumber;
  parseFloat_string := ref_parseFloat;
  number_toString := ref_toString;
  ToIntegerOrInfinity := ref_integer
|}.
Next Obligation. now destruct x. Qed.
Next Obligation. destruct x; simpl; auto using Z.ltb_irrefl. Qed.
Next Obligation. simpl. destruct n; [lia | reflexivity]. Qed.

End RefNumber.

(* ================================================================== *)
(** ** Interfaces of the sources, the world and the monad of effects *)
(* ================================================================== *)

Module Schema.
Import Js.

Section Schema.
Context {Num : JsNumber}.

(** An opaque JSON payload (the GA4 report, [dateRanges], [orderBy]). *)
Definition Payload := string.

(** *** seo-agent.ts *)

(** One clause of [plan.filters]. *)
Record FilterClause := {
  column : string;
  operator : string;
  value : prim
}.

Record SortBy := {
  sort_column : string;
  desc : bool
}.

(** The data plan decoded from the model's reply; an absent field of the
    JSON object is [None] (or [PUndefined] for [limit]). *)
Record DataPlan := {
  filters : option (list FilterClause);
  groupBy : option string;
  sortBy : option SortBy;
  limit : prim
}.

(** The object returned by [executeDataOperations]. *)
Record Output := {
  plan : DataPlan;
  resultCount : nat;
  results : list Record
}.

(** What [google-spreadsheet] gives for the first sheet: its header row
    and, for every row, the accessor [row.get]. *)
Record Sheet := {
  headerValues : list string;
  sheetRows : list (string -> prim)
}.

(** *** analytics-agent.ts *)

Record ReportingPlan := {
  metrics : option (list string);
  dimensions : option (list string);
  dateRanges : Payload;
  orderBy : option Payload;
  plan_limit : prim
}.

(** The body of [properties.runReport]. *)
Record GA4Request := {
  property : string;
  req_dateRanges : Payload;
  req_dimensions : list string;
  req_metrics : list string;
  req_limit : prim;
  orderBys : Payload
}.

(** [AnalyticsResponse] and [SEOResponse] have one shape. *)
Record AgentResponse (D : Type) := {
  success : bool;
  data : option D;
  explanation : string;
  error : option string
}.

Definition AnalyticsResponse := AgentResponse Payload.
Definition SEOResponse := AgentResponse Output.

(** *** litellm.ts *)

Inductive Role := system | user | assistant.

(** The content of a message.  A prompt is a fixed template; it is kept as
    the template's name with the values interpolated into it. *)
Inductive Content :=
| Text (text : string)
| IntentPrompt (query : string) (hasPropertyId : bool)
| ReportingPlanPrompt (validMetrics validDimensions query : string)
| AnalyticsExplanationPrompt (query metrics dimensions : string)
                             (dateRanges data : Payload)
| DataPlanPrompt (columns : string) (sampleRows : list Row) (query : string)
| SEOExplanationPrompt (query : string) (results : Output)
| AggregationPrompt (query analyticsExplanation seoExplanation : string).

Record LiteLLMMessage := {
  role : Role;
  content : Content
}.

(** [temperature] is kept in tenths (0.7 is [7]). *)
Record LiteLLMRequest := {
  model : string;
  messages : list LiteLLMMessage;
  temperature : N;
  max_tokens : nat
}.

(** [choices[i]?.message?.content]; [None] when a link is missing. *)
Record Choice := {
  message_content : option string
}.

Record LiteLLMResponse := {
  choices : list Choice
}.

(** The [Response] of [fetch]: its status and what [text()] and [json()]
    resolve to. *)
Record Response := {
  status : nat;
  text : outcome string;
  json : outcome LiteLLMResponse
}.

Definition ok (r : Response) : bool :=
  (200 <=? status r)%nat && (status r <=? 299)%nat.

(** *** The world *)

Inductive event :=
| EvFetch (request : LiteLLMRequest)     (* POST /chat/completions *)
| EvSleep (ms : N)                       (* setTimeout(resolve, ms) *)
| EvRunReport (request : GA4Request)     (* GA4 properties.runReport *)
| EvLoadSheet (spreadsheetId : string).  (* Google Sheets: loadInfo, getRows *)

(** Everything outside the sources.  [fetch request attempt] is what the
    [attempt]-th POST of one [chat] call resolves to; it depends on the
    request and the attempt only, so the two concurrent branches of
    [routeToBoth] do not depend on how they are scheduled. *)
Record World := {
  fetch : LiteLLMRequest -> nat -> outcome Response;
  (** [JSON.parse] followed by the unchecked cast to the plan's shape *)
  JSON_parse_ReportingPlan : string -> outcome ReportingPlan;
  JSON_parse_DataPlan : string -> outcome DataPlan;
  runReport : GA4Request -> outcome Payload;
  (** does [credentials.json] load and parse *)
  credentials_json : bool;
  (** [process.env.SEO_SPREADSHEET_ID] *)
  SEO_SPREADSHEET_ID : option string;
  loadSheet : string -> outcome Sheet
}.

(** *** The monad of an [async] function *)

Definition M (A : Type) : Type := World -> list event * outcome A.

Definition ret {A} (a : A) : M A := fun _ => ([], Returned a).

Definition throw {A} (e : exn) : M A := fun _ => ([], Thrown e).

Definition bind {A B} (m : M A) (k : A -> M B) : M B :=
  fun w =>
    match m w with
    | (t, Returned a) => let (t', r) := k a w in (t ++ t', r)
    | (t, Thrown e) => (t, Thrown e)
    end.

(** [try { body } catch (error) { handler }]. *)
Definition try_catch {A} (body : M A) (handler : exn -> M A) : M A :=
  fun w =>
    match body w with
    | (t, Returned a) => (t, Returned a)
    | (t, Thrown e) => let (t', r) := handler e w in (t ++ t', r)
    end.

Definition emit (e : event) : M unit := fun _ => ([e], Returned tt).

Definition ask : M World := fun w => ([], Returned w).

(** Lift the result of a call already made. *)
Definition settle {A} (o : outcome A) : M A := fun _ => ([], o).

Definition trace {A} (x : list event * outcome A) : list event := fst x.
Definition result {A} (x : list event * outcome A) : outcome A := snd x.

End Schema.

Declare Scope monad_scope.
Delimit Scope monad_scope with monad.
Notation "x <- m ;; k" := (bind m (fun x => k))
  (at level 61, m at next level, right associativity) : monad_scope.
Notation "m ;; k" := (bind m (fun _ => k))
  (at level 61, right associativity) : monad_scope.

End Schema.

(* ================================================================== *)
(** ** server/lib/litellm.ts *)
(* ================================================================== *)

Module Gateway.
Import Js Schema.
Local Open Scope monad_scope.

Section Gateway.
Context {Num : JsNumber}.

Definition MAX_RETRIES : nat := 3.
Definition INITIAL_BACKOFF : N := 1000.

Record Options := {
  opt_temperature : option N;
  maxTokens : option nat
}.

(** [INITIAL_BACKOFF * Math.pow(2, attempt)]. *)
Definition backoffTime (attempt : nat) : N :=
  (INITIAL_BACKOFF * 2 ^ N.of_nat attempt)%N.

(** The body of the [try] block of one attempt; [None] stands for the
    [continue] of the rate-limit branch. *)
Definition attempt_body (request : LiteLLMRequest) (attempt : nat) : M (option string) :=
  emit (EvFetch request) ;;
  w <- ask ;;
  response <- settle (fetch w request attempt) ;;
  if (status response =? 429)%nat then
    emit (EvSleep (backoffTime attempt)) ;;
    ret None
  else if negb (ok response) then
    errorText <- settle (text response) ;;
    throw (Error ("LiteLLM API error (" ++ nat_toString (status response) ++ "): "
                  ++ errorText))
  else
    data <- settle (json response) ;;
    ret (Some match choices data with
              | c :: _ => match message_content c with
                          | Some s => s
                          | None => ""
                          end
              | [] => ""
              end).

(** The [catch] block of one attempt. *)
Definition attempt_catch (attempt : nat) (error : exn) : M unit :=
  if (attempt <? MAX_RETRIES - 1)%nat
  then emit (EvSleep (backoffTime attempt))
  else ret tt.

(** The thrown value once the loop is left. *)
Definition exhausted (lastError : option exn) : exn :=
  Error ("LiteLLM failed after " ++ nat_toString MAX_RETRIES ++ " attempts: "
         ++ match lastError with
            | Some e => message e
            | None => "undefined"
            end).

(** The [for] loop, with [remaining = MAX_RETRIES - attempt] iterations to go. *)
Fixpoint attempts (request : LiteLLMRequest) (remaining attempt : nat)
         (lastError : option exn) : M string :=
  match remaining with
  | O => throw (exhausted lastError)
  | S remaining' =>
      r <- try_catch (x <- attempt_body request attempt ;; ret (inl x))
                     (fun error => attempt_catch attempt error ;; ret (inr error)) ;;
      match r with
      | inl (Some content) => ret content
      | inl None => attempts request remaining' (S attempt) lastError
      | inr error => attempts request remaining' (S attempt) (Some error)
      end
  end.

Definition mkRequest (messages : list LiteLLMMessage) (model : string)
           (options : Options) : LiteLLMRequest :=
  {| Schema.model := model;
     Schema.messages := messages;
     temperature := match opt_temperature options with Some t => t | None => 7%N end;
     max_tokens := match maxTokens options with Some m => m | None => 2000 end |}.

(** [LiteLLMClient.chat]. *)
Definition chat (messages : list LiteLLMMessage) (model : string)
           (options : Options) : M string :=
  attempts (mkRequest messages model options) MAX_RETRIES 0 None.

End Gateway.
End Gateway.

(* ================================================================== *)
(** ** server/agents/analytics-agent.ts *)
(* ================================================================== *)

Module AnalyticsAgent.
Import Js Schema.
Local Open Scope monad_scope.

Section Agent.
Context {Num : JsNumber}.

Record AnalyticsQuery := {
  propertyId : string;
  query : string
}.

Definition VALID_METRICS : list string :=
  [ "activeUsers"; "sessions"; "screenPageViews"; "eventCount"; "conversions";
    "totalRevenue"; "averageSessionDuration"; "bounceRate"; "engagementRate";
    "newUsers"; "userEngagementDuration"; "sessionConversionRate" ].

Definition VALID_DIMENSIONS : list string :=
  [ "date"; "pagePath"; "pageTitle"; "country"; "city"; "deviceCategory";
    "browser"; "operatingSystem"; "sessionSource"; "sessionMedium";
    "sessionCampaignName"; "landingPage"; "eventName" ].

Definition inferReportingPlan (query : string) : M ReportingPlan :=
  response <- Gateway.chat
    [ {| role := system;
         content := Text "You are a GA4 reporting expert. Return only valid JSON." |};
      {| role := user;
         content := ReportingPlanPrompt (join ", " VALID_METRICS)
                                        (join ", " VALID_DIMENSIONS) query |} ]
    "gemini-2.5-flash"
    {| Gateway.opt_temperature := Some 3%N; Gateway.maxTokens := None |} ;;
  match match_object response with
  | None => throw (Error "Failed to parse reporting plan from LLM response")
  | Some jsonMatch => w <- ask ;; settle (JSON_parse_ReportingPlan w jsonMatch)
  end.

Definition invalid_metric (metric : string) : exn :=
  Error ("Invalid metric: " ++ metric ++ ". Must be one of: " ++ join ", " VALID_METRICS).

Definition invalid_dimension (dimension : string) : exn :=
  Error ("Invalid dimension: " ++ dimension ++ ". Must be one of: "
         ++ join ", " VALID_DIMENSIONS).

(** One [for ... of] loop of [validateFields]. *)
Fixpoint validate_each (valid : list string) (invalid : string -> exn)
         (fields : list string) : outcome unit :=
  match fields with
  | [] => Returned tt
  | field :: rest =>
      if negb (array_includes valid field) then Thrown (invalid field)
      else validate_each valid invalid rest
  end.

Definition or_empty (fields : option (list string)) : list string :=
  match fields with
  | Some l => l
  | None => []
  end.

Definition validateFields (plan : ReportingPlan) : outcome unit :=
  match validate_each VALID_METRICS invalid_metric (or_empty (metrics plan)) with
  | Thrown e => Thrown e
  | Returned _ =>
      validate_each VALID_DIMENSIONS invalid_dimension (or_empty (dimensions plan))
  end.

Definition mkGA4Request (propertyId : string) (plan : ReportingPlan) : GA4Request :=
  {| property := "properties/" ++ propertyId;
     req_dateRanges := dateRanges plan;
     req_dimensions := or_empty (dimensions plan);
     req_metrics := or_empty (metrics plan);
     req_limit := if ToBoolean (plan_limit plan) then plan_limit plan
                  else PNumber (of_nat 10);
     orderBys := match orderBy plan with Some o => o | None => "[]" end |}.

Definition executeGA4Query (propertyId : string) (plan : ReportingPlan) : M Payload :=
  let request := mkGA4Request propertyId plan in
  emit (EvRunReport request) ;;
  w <- ask ;;
  settle (runReport w request).

(** [plan.metrics.join(', ')]: a TypeError when the field is absent. *)
Definition join_field (fields : option (list string)) : M string :=
  match fields with
  | Some l => ret (join ", " l)
  | None => throw (Error "Cannot read properties of undefined (reading 'join')")
  end.

Definition generateExplanation (query : string) (plan : ReportingPlan)
           (data : Payload) : M string :=
  m <- join_field (metrics plan) ;;
  d <- join_field (dimensions plan) ;;
  Gateway.chat
    [ {| role := system; content := Text "You are a helpful data analyst." |};
      {| role := user;
         content := AnalyticsExplanationPrompt query m d (dateRanges plan) data |} ]
    "gemini-2.5-flash"
    {| Gateway.opt_temperature := Some 7%N; Gateway.maxTokens := None |}.

(** The [try] block of [processQuery]. *)
Definition processQuery_try (q : AnalyticsQuery) : M AnalyticsResponse :=
  reportingPlan <- inferReportingPlan (query q) ;;
  settle (validateFields reportingPlan) ;;
  ga4Data <- executeGA4Query (propertyId q) reportingPlan ;;
  explanation <- generateExplanation (query q) reportingPlan ga4Data ;;
  ret {| success := true;
         data := Some ga4Data;
         explanation := explanation;
         error := None |}.

(** The [catch] block of [processQuery]. *)
Definition processQuery_catch (e : exn) : M AnalyticsResponse :=
  let errorMessage := message e in
  ret {| success := false;
         data := None;
         explanation := "Failed to process analytics query: " ++ errorMessage;
         error := Some errorMessage |}.

Definition processQuery (q : AnalyticsQuery) : M AnalyticsResponse :=
  try_catch (processQuery_try q) processQuery_catch.

End Agent.
End AnalyticsAgent.

(* ================================================================== *)
(** ** server/agents/seo-agent.ts *)
(* ================================================================== *)

Module SEOAgent.
Import Js Schema.
Local Open Scope monad_scope.

Section Agent.
Context {Num : JsNumber}.

Record SEOQuery := {
  query : string;
  spreadsheetId : option string
}.

(** [await this.initPromise]: [initializeAuth] rethrows every failure under
    one message. *)
Definition ensureInitialized : M unit :=
  w <- ask ;;
  if credentials_json w then ret tt
  else throw (Error
    "SEO Agent initialization failed. Ensure credentials.json exists at project root.").

(** [a || b] on two optional strings: the empty string is falsy. *)
Definition or_string (a b : option string) : option string :=
  match a with
  | Some s => if String.eqb s "" then b else a
  | None => b
  end.

Definition loadSpreadsheetData (spreadsheetId : string) : M (list Row) :=
  emit (EvLoadSheet spreadsheetId) ;;
  w <- ask ;;
  sheet <- settle (loadSheet w spreadsheetId) ;;
  ret (map (fun row =>
              fold_left (fun obj header => set obj header (row header))
                        (headerValues sheet) [])
           (sheetRows sheet)).

Definition inferDataPlan (query : string) (sampleData : list Row) : M DataPlan :=
  let columns := keys (hd [] sampleData) in
  let sampleRows := firstn 3 sampleData in
  response <- Gateway.chat
    [ {| role := system;
         content := Text "You are a data processing expert. Return only valid JSON." |};
      {| role := user;
         content := DataPlanPrompt (join ", " columns) sampleRows query |} ]
    "gemini-2.5-flash"
    {| Gateway.opt_temperature := Some 3%N; Gateway.maxTokens := None |} ;;
  match match_object response with
  | None => throw (Error "Failed to parse data plan from LLM response")
  | Some jsonMatch => w <- ask ;; settle (JSON_parse_DataPlan w jsonMatch)
  end.

(** *** executeDataOperations *)

(** The callback of [result.filter] for one clause. *)
Definition passes (filter : FilterClause) (row : Row) : bool :=
  let value := row_get row (column filter) in
  if String.eqb (operator filter) "==" then
    looseEq value (Schema.value filter)
  else if String.eqb (operator filter) "!=" then
    looseNeq value (Schema.value filter)
  else if String.eqb (operator filter) ">" then
    num_lt (parseFloat (Schema.value filter)) (parseFloat value)
  else if String.eqb (operator filter) "<" then
    num_lt (parseFloat value) (parseFloat (Schema.value filter))
  else if String.eqb (operator filter) "contains" then
    includes (toLowerCase (ToString value))
             (toLowerCase (ToString (Schema.value filter)))
  else
    true.

(** "Apply filters". *)
Definition applyFilters (plan : DataPlan) (result : list Row) : list Row :=
  match filters plan with
  | Some ((_ :: _) as clauses) =>
      fold_left (fun result filter => List.filter (passes filter) result)
                clauses result
  | _ => result
  end.

(** One step of the [forEach] that fills [groups]. *)
Definition add_to_group (groupBy : string) (groups : list (string * list Row))
           (row : Row) : outcome (list (string * list Row)) :=
  let key := ToString (row_get row groupBy) in
  if has groups key then
    Returned (set groups key (get [] groups key ++ [row]))
  else if array_includes Object_prototype_names key then
    (* [groups[key]] is an inherited member: it is truthy and has no [push] *)
    Thrown (Error "groups[key].push is not a function")
  else
    Returned (set groups key [row]).

Fixpoint fill_groups (groupBy : string) (groups : list (string * list Row))
         (rows : list Row) : outcome (list (string * list Row)) :=
  match rows with
  | [] => Returned groups
  | row :: rest =>
      match add_to_group groupBy groups row with
      | Thrown e => Thrown e
      | Returned groups' => fill_groups groupBy groups' rest
      end
  end.

(** The record built for one entry of [groups]. *)
Definition group_record (groupBy : string) (entry : string * list Row) : Record :=
  let (key, items) := entry in
  set (set (set [] groupBy (VPrim (PString key)))
           "count" (VPrim (PNumber (of_nat (length items)))))
      "items" (VRows items).

(** "Apply grouping". *)
Definition applyGroup (plan : DataPlan) (result : list Row) : outcome (list Record) :=
  match groupBy plan with
  | Some column =>
      if String.eqb column "" then Returned (map record_of_row result)
      else match fill_groups column [] result with
           | Thrown e => Thrown e
           | Returned groups => Returned (map (group_record column) (entries groups))
           end
  | None => Returned (map record_of_row result)
  end.

(** The comparator handed to [result.sort]. *)
Definition compareRecords (sortBy : SortBy) (a b : Record) : Z :=
  let aVal := record_get a (sort_column sortBy) in
  let bVal := record_get b (sort_column sortBy) in
  let comparison :=
    if js_gt aVal bVal then 1%Z else if js_lt aVal bVal then (-1)%Z else 0%Z in
  if desc sortBy then (- comparison)%Z else comparison.

(** "Apply sorting". *)
Definition applySort (plan : DataPlan) (result : list Record) : list Record :=
  match sortBy plan with
  | Some by_ => sort (compareRecords by_) result
  | None => result
  end.

(** "Apply limit". *)
Definition applyLimit (plan : DataPlan) (result : list Record) : list Record :=
  if ToBoolean (limit plan) then slice0 result (ToNumber (limit plan))
  else result.

Definition executeDataOperations (data : list Row) (plan : DataPlan) : outcome Output :=
  match applyGroup plan (applyFilters plan data) with
  | Thrown e => Thrown e
  | Returned grouped =>
      let result := applyLimit plan (applySort plan grouped) in
      Returned {| Schema.plan := plan;
                  resultCount := length result;
                  results := result |}
  end.

Definition generateExplanation (query : string) (results : Output) : M string :=
  Gateway.chat
    [ {| role := system; content := Text "You are an SEO consultant." |};
      {| role := user; content := SEOExplanationPrompt query results |} ]
    "gemini-2.5-flash"
    {| Gateway.opt_temperature := Some 7%N; Gateway.maxTokens := None |}.

(** The [try] block of [processQuery]. *)
Definition processQuery_try (q : SEOQuery) : M SEOResponse :=
  ensureInitialized ;;
  w <- ask ;;
  match or_string (spreadsheetId q) (SEO_SPREADSHEET_ID w) with
  | None =>
      throw (Error
        "No spreadsheet ID provided. Set SEO_SPREADSHEET_ID or include in request.")
  | Some spreadsheetId =>
      if String.eqb spreadsheetId "" then
        throw (Error
          "No spreadsheet ID provided. Set SEO_SPREADSHEET_ID or include in request.")
      else
        sheetData <- loadSpreadsheetData spreadsheetId ;;
        dataPlan <- inferDataPlan (query q) sheetData ;;
        results <- settle (executeDataOperations sheetData dataPlan) ;;
        explanation <- generateExplanation (query q) results ;;
        ret {| success := true;
               data := Some results;
               explanation := explanation;
               error := None |}
  end.

(** The [catch] block of [processQuery]. *)
Definition processQuery_catch (e : exn) : M SEOResponse :=
  let errorMessage := message e in
  ret {| success := false;
         data := None;
         explanation := "Failed to process SEO query: " ++ errorMessage;
         error := Some errorMessage |}.

Definition processQuery (q : SEOQuery) : M SEOResponse :=
  try_catch (processQuery_try q) processQuery_catch.

End Agent.
End SEOAgent.

(* ================================================================== *)
(** ** server/orchestrator.ts *)
(* ================================================================== *)

Module Orchestrator.
Import Js Schema.
Local Open Scope monad_scope.

Section Orchestrator.
Context {Num : JsNumber}.

Record QueryRequest := {
  query : string;
  propertyId : option string;
  spreadsheetId : option string
}.

(** [type AgentType = 'analytics' | 'seo' | 'both']: a string, one of the
    three literals. *)
Definition AgentType := string.

(** The [data] of a response, shaped by the route taken. *)
Inductive ResponseData :=
| AnalyticsData (d : option Payload)
| SEOData (d : option Output)
| BothData (analytics_data : option Payload) (seo_data : option Output).

(** [processingTime] is wall-clock time and is left out. *)
Record Metadata := {
  intent : string;
  agentsUsed : list string
}.

Record OrchestratorResponse := {
  success : bool;
  response : string;
  data : option ResponseData;
  metadata : option Metadata;
  error : option string
}.

(** [!!propertyId]. *)
Definition truthy (s : option string) : bool :=
  match s with
  | Some s => negb (String.eqb s "")
  | None => false
  end.

Definition detectIntent (query : string) (propertyId : option string) : M AgentType :=
  let hasPropertyId := truthy propertyId in
  response <- Gateway.chat
    [ {| role := system;
         content := Text
           "You are an intent classifier. Return only: analytics, seo, or both" |};
      {| role := user; content := IntentPrompt query hasPropertyId |} ]
    "gemini-2.5-flash"
    {| Gateway.opt_temperature := Some 2%N; Gateway.maxTokens := None |} ;;
  let intent := toLowerCase (trim response) in
  if negb (array_includes ["analytics"; "seo"; "both"] intent) then
    (* Fallback logic *)
    if hasPropertyId then ret "analytics"
    else if includes (toLowerCase query) "seo"
            || includes (toLowerCase query) "title"
            || includes (toLowerCase query) "meta"
    then ret "seo"
    else ret "analytics"
  else
    ret intent.

Definition missing_propertyId_response : OrchestratorResponse :=
  {| success := false;
     response := "Analytics queries require a propertyId. Please provide a GA4 property ID in your request.";
     data := None;
     metadata := None;
     error := Some "Missing propertyId" |}.

Definition routeToAnalytics (request : QueryRequest) : M OrchestratorResponse :=
  match propertyId request with
  | Some id =>
      if String.eqb id "" then ret missing_propertyId_response
      else
        result <- AnalyticsAgent.processQuery
                    {| AnalyticsAgent.propertyId := id;
                       AnalyticsAgent.query := query request |} ;;
        ret {| success := Schema.success result;
               response := Schema.explanation result;
               data := Some (AnalyticsData (Schema.data result));
               metadata := None;
               error := Schema.error result |}
  | None => ret missing_propertyId_response
  end.

Definition routeToSEO (request : QueryRequest) : M OrchestratorResponse :=
  result <- SEOAgent.processQuery
              {| SEOAgent.query := query request;
                 SEOAgent.spreadsheetId := spreadsheetId request |} ;;
  ret {| success := Schema.success result;
         response := Schema.explanation result;
         data := Some (SEOData (Schema.data result));
         metadata := None;
         error := Schema.error result |}.

Definition aggregateResponses (query : string) (analyticsResult : AnalyticsResponse)
           (seoResult : SEOResponse) : M string :=
  Gateway.chat
    [ {| role := system; content := Text "You are a comprehensive data analyst." |};
      {| role := user;
         content := AggregationPrompt query (Schema.explanation analyticsResult)
                                      (Schema.explanation seoResult) |} ]
    "gemini-2.5-flash"
    {| Gateway.opt_temperature := Some 7%N; Gateway.maxTokens := None |}.

(** [Promise.all([a, b])]: both computations run; the first rejection, if
    any, is the rejection of the whole. *)
Definition Promise_all {A B} (a : M A) (b : M B) : M (A * B) :=
  fun w =>
    let (ta, ra) := a w in
    let (tb, rb) := b w in
    (ta ++ tb,
     match ra, rb with
     | Returned x, Returned y => Returned (x, y)
     | Thrown e, _ => Thrown e
     | _, Thrown e => Thrown e
     end).

(** The result put in place of the analytics agent's when there is no
    [propertyId]. *)
Definition missing_propertyId : AnalyticsResponse :=
  {| Schema.success := false;
     Schema.data := None;
     Schema.explanation := "No propertyId provided";
     Schema.error := Some "Missing propertyId" |}.

Definition routeToBoth (request : QueryRequest) : M OrchestratorResponse :=
  r <- Promise_all
         (match propertyId request with
          | Some id =>
              if String.eqb id "" then ret missing_propertyId
              else AnalyticsAgent.processQuery
                     {| AnalyticsAgent.propertyId := id;
                        AnalyticsAgent.query := query request |}
          | None => ret missing_propertyId
          end)
         (SEOAgent.processQuery
            {| SEOAgent.query := query request;
               SEOAgent.spreadsheetId := spreadsheetId request |}) ;;
  let (analyticsResult, seoResult) := r in
  aggregatedResponse <- aggregateResponses (query request) analyticsResult seoResult ;;
  ret {| success := Schema.success analyticsResult && Schema.success seoResult;
         response := aggregatedResponse;
         data := Some (BothData
                         (if Schema.success analyticsResult
                          then Schema.data analyticsResult else None)
                         (Schema.data seoResult));
         metadata := None;
         error := None |}.

Definition with_metadata (r : OrchestratorResponse) (m : Metadata) : OrchestratorResponse :=
  {| success := success r; response := response r; data := data r;
     metadata := Some m; error := error r |}.

(** The [try] block of [processQuery]. *)
Definition processQuery_try (request : QueryRequest) : M OrchestratorResponse :=
  intent <- detectIntent (query request) (propertyId request) ;;
  response <- (if String.eqb intent "analytics" then routeToAnalytics request
               else if String.eqb intent "seo" then routeToSEO request
               else if String.eqb intent "both" then routeToBoth request
               else throw (Error ("Unknown intent: " ++ intent))) ;;
  ret (with_metadata response
         {| intent := intent;
            agentsUsed := if String.eqb intent "both" then ["analytics"; "seo"]
                          else [intent] |}).

(** The [catch] block of [processQuery]. *)
Definition processQuery_catch (e : exn) : M OrchestratorResponse :=
  let errorMessage := message e in
  ret {| success := false;
         response := "Failed to process query: " ++ errorMessage;
         data := None;
         metadata := Some {| intent := "unknown"; agentsUsed := [] |};
         error := Some errorMessage |}.

Definition processQuery (request : QueryRequest) : M OrchestratorResponse :=
  try_catch (processQuery_try request) processQuery_catch.

End Orchestrator.
End Orchestrator.

(* ================================================================== *)
(** ** Vocabulary of the statements and sample inputs *)
(* ================================================================== *)

Unset Implicit Arguments.

Module Spec.
Import Js Schema.

Section Spec.
Context {Num : JsNumber}.

(** [undefined == v] holds for [undefined] and [null] only. *)
Definition nullish (v : prim) : bool :=
  match v with
  | PUndefined | PNull => true
  | _ => false
  end.

(** The clauses of a plan; an absent [filters] is an empty list of them. *)
Definition clauses (plan : DataPlan) : list FilterClause :=
  match filters plan with
  | Some l => l
  | None => []
  end.

Definition supported_operators : list string := ["=="; "!="; ">"; "<"; "contains"].

(** A plan that only filters. *)
Definition filter_plan (l : list FilterClause) : DataPlan :=
  {| filters := Some l; groupBy := None; sortBy := None; limit := PUndefined |}.

(** The sentence "a clause on a column that no row has drops every row,
    whatever the supported operator". *)
Definition absent_column_drops_all : Prop :=
  forall (op column : string) (v : prim) (rows : list Row),
    In op supported_operators ->
    Forall (fun row => has row column = false) rows ->
    SEOAgent.applyFilters
      (filter_plan [ {| Schema.column := column; operator := op; value := v |} ])
      rows = [].

(** The sentence "two records whose sort keys are equal keep their relative
    order", said of the sort that the engine runs. *)
Definition equal_keys_keep_order
           (engine_sort : (Record -> Record -> Z) -> list Record -> list Record)
  : Prop :=
  forall (by_ : SortBy) (records : list Record) (P : Record -> bool),
    (forall a b, In a records -> In b records -> P a = true -> P b = true ->
                 record_get a (sort_column by_) = record_get b (sort_column by_)) ->
    filter P (engine_sort (SEOAgent.compareRecords by_) records)
    = filter P records.

(** [v] is a Number above 0. *)
Definition positive_number (v : prim) : Prop :=
  exists n, v = PNumber n /\ num_lt (of_nat 0) n = true.

(** The sentence "truncation happens only when limit is a truthy positive
    number". *)
Definition truncates_only_positive_numbers : Prop :=
  forall (data : list Row) (plan : DataPlan) (grouped : list Record) (out : Output),
    SEOAgent.applyGroup plan (SEOAgent.applyFilters plan data) = Returned grouped ->
    SEOAgent.executeDataOperations data plan = Returned out ->
    results out <> SEOAgent.applySort plan grouped ->
    positive_number (limit plan).

Definition is_runReport (e : event) : bool :=
  match e with
  | EvRunReport _ => true
  | _ => false
  end.

Definition is_fetch (e : event) : bool :=
  match e with
  | EvFetch _ => true
  | _ => false
  end.

(** How many times the trace calls GA4 [runReport], and the gateway's [fetch]. *)
Definition calls_runReport (t : list event) : nat := length (filter is_runReport t).
Definition calls_fetch (t : list event) : nat := length (filter is_fetch t).

(** Every event of the trace satisfies [P]. *)
Definition only {A : Type} (P : event -> bool) (m : M A) : Prop :=
  forall w, forallb P (trace (m w)) = true.

Definition not_runReport (e : event) : bool := negb (is_runReport e).

(** The events of the gateway. *)
Definition is_gateway (e : event) : bool :=
  match e with
  | EvFetch _ | EvSleep _ => true
  | _ => false
  end.

(** What one attempt of [chat] amounts to, read off the resolved [fetch]. *)
Inductive attempt_result :=
| Content (s : string)
| RateLimited
| Failed (e : exn).

Definition attempt_outcome (o : outcome Response) : attempt_result :=
  match o with
  | Thrown e => Failed e
  | Returned response =>
      if (status response =? 429)%nat then RateLimited
      else if negb (ok response) then
        match text response with
        | Returned errorText =>
            Failed (Error ("LiteLLM API error (" ++ nat_toString (status response)
                           ++ "): " ++ errorText))
        | Thrown e => Failed e
        end
      else
        match json response with
        | Returned data =>
            Content match choices data with
                    | c :: _ => match message_content c with
                                | Some s => s
                                | None => ""
                                end
                    | [] => ""
                    end
        | Thrown e => Failed e
        end
  end.

(** The failed result an agent's [catch] block builds. *)
Definition failed {D : Type} (context message : string) : AgentResponse D :=
  {| success := false;
     data := None;
     explanation := context ++ message;
     error := Some message |}.

(** The messages [detectIntent] sends to the classifier. *)
Definition intent_messages (query : string) (propertyId : option string)
  : list LiteLLMMessage :=
  [ {| role := system;
       content := Text
         "You are an intent classifier. Return only: analytics, seo, or both" |};
    {| role := user;
       content := IntentPrompt query (Orchestrator.truthy propertyId) |} ].

Definition classifier_options : Gateway.Options :=
  {| Gateway.opt_temperature := Some 2%N; Gateway.maxTokens := None |}.

(** The fallback of [detectIntent], as the specification words it. *)
Definition fallback_intent (query : string) (propertyId : option string)
  : Orchestrator.AgentType :=
  if Orchestrator.truthy propertyId then "analytics"
  else if existsb (includes (toLowerCase query)) ["seo"; "title"; "meta"]
       then "seo"
       else "analytics".

(** The query handed to the tabular agent. *)
Definition seo_query (request : Orchestrator.QueryRequest) : SEOAgent.SEOQuery :=
  {| SEOAgent.query := Orchestrator.query request;
     SEOAgent.spreadsheetId := Orchestrator.spreadsheetId request |}.

(** The request [aggregateResponses] posts. *)
Definition aggregation_request (query : string) (analyticsResult : AnalyticsResponse)
           (seoResult : SEOResponse) : LiteLLMRequest :=
  Gateway.mkRequest
    [ {| role := system; content := Text "You are a comprehensive data analyst." |};
      {| role := user;
         content := AggregationPrompt query (explanation analyticsResult)
                                      (explanation seoResult) |} ]
    "gemini-2.5-flash"
    {| Gateway.opt_temperature := Some 7%N; Gateway.maxTokens := None |}.

(** The sentence "a query routed to both agents without a propertyId gets a
    non-empty response text and success false". *)
Definition both_without_propertyId_answers : Prop :=
  forall (w : World) (request : Orchestrator.QueryRequest),
    Orchestrator.truthy (Orchestrator.propertyId request) = false ->
    exists r,
      result (Orchestrator.routeToBoth request w) = Returned r /\
      Orchestrator.success r = false /\
      Orchestrator.response r <> "".

Definition analytics_context : string := "Failed to process analytics query: ".
Definition seo_context : string := "Failed to process SEO query: ".

End Spec.
End Spec.

(** Sample inputs, on the executable kernel. *)
Module Sample.
Import Js Schema RefNumber.

Definition crawl : list Row :=
  [ [("Address", PString "http://example.com/a"); ("Status Code", PString "200")];
    [("Address", PString "https://example.com/b"); ("Status Code", PString "404")];
    [("Address", PString "https://example.com/c"); ("Status Code", PString "200")] ].

Definition protocol_is_not_https : FilterClause :=
  {| column := "Protocol"; operator := "!="; value := PString "https" |}.

Definition status_is_200 : FilterClause :=
  {| column := "Status Code"; operator := "=="; value := PString "200" |}.

Definition by_status : SortBy := {| sort_column := "Status Code"; desc := false |}.

Definition sorted_plan (lim : prim) : DataPlan :=
  {| filters := None; groupBy := None; sortBy := Some by_status; limit := lim |}.

(** A gateway that answers every request with [reply] at once. *)
Definition replying (reply : string) : Response :=
  {| status := 200;
     text := Returned reply;
     json := Returned {| choices := [ {| message_content := Some reply |} ] |} |}.

Definition rate_limited : Response :=
  {| status := 429;
     text := Returned "Too Many Requests";
     json := Thrown (Error "Unexpected token T in JSON at position 0") |}.

(** A world with no credentials and no configuration, around a gateway. *)
Definition world (gateway : LiteLLMRequest -> nat -> outcome Response) : World :=
  {| fetch := gateway;
     JSON_parse_ReportingPlan := fun _ => Thrown (Error "Unexpected end of JSON input");
     JSON_parse_DataPlan := fun _ => Thrown (Error "Unexpected end of JSON input");
     runReport := fun _ => Thrown (Error "PERMISSION_DENIED");
     credentials_json := false;
     SEO_SPREADSHEET_ID := None;
     loadSheet := fun _ => Thrown (Error "Google API error") |}.

Definition always_rate_limited : World := world (fun _ _ => Returned rate_limited).

(** The double quote, to write JSON texts. *)
Definition q : string := String (ascii_of_nat 34) EmptyString.

(** A reply with status 200 whose body has an empty list of choices. *)
Definition no_choices : Response :=
  {| status := 200;
     text := Returned ("{" ++ q ++ "choices" ++ q ++ ":[]}")%string;
     json := Returned {| choices := [] |} |}.

(** The classifier says "both"; every other reply has no content. *)
Definition both_then_empty : World :=
  world (fun request _ =>
           match messages request with
           | [_; {| content := IntentPrompt _ _ |}] => Returned (replying "both")
           | _ => Returned no_choices
           end).

(** The model invents the metric "pageviews". *)
Definition invented_plan_text : string :=
  ("{" ++ q ++ "metrics" ++ q ++ ":[" ++ q ++ "sessions" ++ q ++ "," ++ q
       ++ "pageviews" ++ q ++ "]," ++ q ++ "dimensions" ++ q ++ ":[" ++ q
       ++ "pagePath" ++ q ++ "]," ++ q ++ "dateRanges" ++ q ++ ":[]}")%string.

Definition invented_plan : ReportingPlan :=
  {| metrics := Some ["sessions"; "pageviews"];
     dimensions := Some ["pagePath"];
     dateRanges := "[]";
     orderBy := None;
     plan_limit := PUndefined |}.

Definition inventive : World :=
  {| fetch := fun _ _ => Returned (replying ("Here is the plan: " ++ invented_plan_text)%string);
     JSON_parse_ReportingPlan :=
       fun s => if String.eqb s invented_plan_text then Returned invented_plan
                else Thrown (Error "Unexpected token in JSON");
     JSON_parse_DataPlan := fun _ => Thrown (Error "Unexpected token in JSON");
     runReport := fun _ => Returned "{}";
     credentials_json := true;
     SEO_SPREADSHEET_ID := None;
     loadSheet := fun _ => Thrown (Error "Google API error") |}.

Definition top_pages : AnalyticsAgent.AnalyticsQuery :=
  {| AnalyticsAgent.propertyId := "516821164";
     AnalyticsAgent.query := "Top 5 pages by page views in the last 7 days" |}.

Definition pages_and_titles : Orchestrator.QueryRequest :=
  {| Orchestrator.query := "Top pages by views with their title tags";
     Orchestrator.propertyId := None;
     Orchestrator.spreadsheetId := None |}.

(** The classifier answers with a sentence instead of a label. *)
Definition chatty : World :=
  world (fun _ _ => Returned (replying "This looks like an analytics question.")).

Definition hello : list LiteLLMMessage :=
  [ {| role := user; content := Text "Hello" |} ].

Definition no_options : Gateway.Options :=
  {| Gateway.opt_temperature := None; Gateway.maxTokens := None |}.

End Sample.

(* ================================================================== *)
(** ** server/routes.ts *)
(* ================================================================== *)

Module Routes.
Import Js Schema.
Local Open Scope monad_scope.

Section Routes.
Context {Num : JsNumber}.

(** [req.body], as far as [queryRequestSchema] reads it: the three fields,
    [PUndefined] when absent.  A field holding an object or an array is
    rejected like any other non-string and is not represented. *)
Record Body := {
  query : prim;
  propertyId : prim;
  spreadsheetId : prim
}.

(** [z.string().min(1)]. *)
Definition nonempty_string (v : prim) : option string :=
  match v with
  | PString s => if String.eqb s "" then None else Some s
  | _ => None
  end.

(** [z.string().optional()]: [None] is a rejection, [Some None] an absent
    field. *)
Definition optional_string (v : prim) : option (option string) :=
  match v with
  | PUndefined => Some None
  | PString s => Some (Some s)
  | _ => None
  end.

(** [queryRequestSchema.safeParse(req.body)]: the parsed request, or the
    names of the fields with an issue ([validation.error.errors], kept as
    their paths).  [None] is a body that is no object at all. *)
Definition safeParse (body : option Body)
  : Orchestrator.QueryRequest + list string :=
  match body with
  | None => inr []
  | Some b =>
      match nonempty_string (query b), optional_string (propertyId b),
            optional_string (spreadsheetId b) with
      | Some q, Some p, Some s =>
          inl {| Orchestrator.query := q;
                 Orchestrator.propertyId := p;
                 Orchestrator.spreadsheetId := s |}
      | q, p, s =>
          inr ((match q with None => ["query"] | Some _ => [] end)
               ++ (match p with None => ["propertyId"] | Some _ => [] end)
               ++ (match s with None => ["spreadsheetId"] | Some _ => [] end))
      end
  end.

(** What [res.json] is given. *)
Inductive Json :=
| InvalidRequest (details : list string)
| Result (result : Orchestrator.OrchestratorResponse)
| InternalServerError (error : string).

Record Reply := {
  statusCode : nat;
  json : Json
}.

(** The handler of [POST /query]. *)
Definition postQuery (body : option Body) : M Reply :=
  try_catch
    (match safeParse body with
     | inr errors =>
         ret {| statusCode := 400; json := InvalidRequest errors |}
     | inl request =>
         result <- Orchestrator.processQuery request ;;
         let statusCode := if Orchestrator.success result then 200 else 500 in
         ret {| statusCode := statusCode; json := Result result |}
     end)
    (fun error =>
       ret {| statusCode := 500; json := InternalServerError (message error) |}).

End Routes.
End Routes.

(* ================================================================== *)
(** ** Further vocabulary and sample inputs *)
(* ================================================================== *)

Module Measure.
Import Js Schema.

(** [x] put after every element of [l] that it does not precede: the slot
    [BinaryInsertionSort] gives a pivot in an ordered list. *)
Fixpoint insert_after {A : Type} (compareFn : A -> A -> Z) (x : A) (l : list A)
  : list A :=
  match l with
  | [] => [x]
  | y :: l' =>
      if (compareFn x y <? 0)%Z then x :: l else y :: insert_after compareFn x l'
  end.

Section Measure.
Context {Num : JsNumber}.

(** The time spent in [setTimeout], in milliseconds. *)
Fixpoint total_sleep (t : list event) : N :=
  match t with
  | [] => 0
  | EvSleep ms :: t' => ms + total_sleep t'
  | _ :: t' => total_sleep t'
  end%N.

Definition is_loadSheet (e : event) : bool :=
  match e with
  | EvLoadSheet _ => true
  | _ => false
  end.

Definition calls_loadSheet (t : list event) : nat := length (filter is_loadSheet t).

Definition valid_metric (m : string) : bool :=
  array_includes AnalyticsAgent.VALID_METRICS m.

Definition valid_dimension (d : string) : bool :=
  array_includes AnalyticsAgent.VALID_DIMENSIONS d.

(** The cell of [column] in a row, as the key of its group. *)
Definition group_key (column : string) (row : Row) : string :=
  ToString (row_get row column).

(** The sort cell is a string. *)
Definition string_cell (column : string) (r : Record) : Prop :=
  exists s, record_get r column = VPrim (PString s).

(** [a] may stand before [b] under the comparator of [sortBy]. *)
Definition in_order (by_ : SortBy) (a b : Record) : Prop :=
  (SEOAgent.compareRecords by_ a b <= 0)%Z.

Definition labels : list string := ["analytics"; "seo"; "both"].

(** The key names a member of [Object.prototype]. *)
Definition inherited (key : string) : bool := array_includes Object_prototype_names key.

(** What the [forEach] of the grouping keeps true of [groups] after the rows
    [seen]. *)
Definition grouped (column : string) (groups : list (string * list Row))
           (seen : list Row) : Prop :=
  NoDup (map fst groups) /\
  (forall key items,
      In (key, items) groups ->
      items = filter (fun row => String.eqb (group_key column row) key) seen /\
      items <> [] /\ inherited key = false) /\
  (forall row, In row seen -> has groups (group_key column row) = true).

(** The rows [loadSpreadsheetData] builds from a sheet. *)
Definition rows_of (sheet : Sheet) : list Row :=
  map (fun row =>
         fold_left (fun obj header => set obj header (row header))
                   (headerValues sheet) [])
      (sheetRows sheet).

(** The spreadsheet the tabular agent settles on: the request's, else the
    configured one; [None] when neither is a non-empty string. *)
Definition resolved_spreadsheetId (q : SEOAgent.SEOQuery) (w : World) : option string :=
  match SEOAgent.or_string (SEOAgent.spreadsheetId q) (SEO_SPREADSHEET_ID w) with
  | Some id => if String.eqb id "" then None else Some id
  | None => None
  end.

(** The two errors the tabular agent throws on its own. *)
Definition no_spreadsheet : exn :=
  Error "No spreadsheet ID provided. Set SEO_SPREADSHEET_ID or include in request.".

Definition not_initialized : exn :=
  Error "SEO Agent initialization failed. Ensure credentials.json exists at project root.".

(** The route taken for an intent. *)
Definition route (intent : string) (request : Orchestrator.QueryRequest)
  : M Orchestrator.OrchestratorResponse :=
  if String.eqb intent "analytics" then Orchestrator.routeToAnalytics request
  else if String.eqb intent "seo" then Orchestrator.routeToSEO request
  else if String.eqb intent "both" then Orchestrator.routeToBoth request
  else throw (Error ("Unknown intent: " ++ intent)).

Definition metadata_of (intent : string) : Orchestrator.Metadata :=
  {| Orchestrator.intent := intent;
     Orchestrator.agentsUsed :=
       if String.eqb intent "both" then ["analytics"; "seo"] else [intent] |}.

Definition failure_response (e : exn) : Orchestrator.OrchestratorResponse :=
  {| Orchestrator.success := false;
     Orchestrator.response := "Failed to process query: " ++ message e;
     Orchestrator.data := None;
     Orchestrator.metadata :=
       Some {| Orchestrator.intent := "unknown"; Orchestrator.agentsUsed := [] |};
     Orchestrator.error := Some (message e) |}.

(** The result standing for the analytics agent in [routeToBoth]. *)
Definition analytics_branch (request : Orchestrator.QueryRequest) : M AnalyticsResponse :=
  match Orchestrator.propertyId request with
  | Some id =>
      if String.eqb id "" then ret Orchestrator.missing_propertyId
      else AnalyticsAgent.processQuery
             {| AnalyticsAgent.propertyId := id;
                AnalyticsAgent.query := Orchestrator.query request |}
  | None => ret Orchestrator.missing_propertyId
  end.

(** At most [n] requests are sent to the gateway. *)
Definition fetches_at_most {A : Type} (n : nat) (m : M A) : Prop :=
  forall w, Spec.calls_fetch (trace (m w)) <= n.

End Measure.
End Measure.

Module Scenario.
Import Js Schema RefNumber.

(** No network: every [fetch] rejects. *)
Definition offline : World :=
  Sample.world (fun _ _ => Thrown (Error "fetch failed")).

(** The second attempt gets through. *)
Definition flaky : World :=
  Sample.world (fun _ attempt =>
                  match attempt with
                  | O => Returned Sample.rate_limited
                  | _ => Returned (Sample.replying "seo")
                  end).

Definition no_metrics_plan : ReportingPlan :=
  {| metrics := None;
     dimensions := Some ["pagePath"];
     dateRanges := "[]";
     orderBy := None;
     plan_limit := PUndefined |}.

(** The model leaves the metrics out of its plan. *)
Definition forgetful : World :=
  {| fetch := fun _ _ => Returned (Sample.replying "{}");
     JSON_parse_ReportingPlan := fun _ => Returned no_metrics_plan;
     JSON_parse_DataPlan := fun _ => Thrown (Error "Unexpected token in JSON");
     runReport := fun _ => Returned "{}";
     credentials_json := true;
     SEO_SPREADSHEET_ID := None;
     loadSheet := fun _ => Thrown (Error "Google API error") |}.

Definition pages_plan : ReportingPlan :=
  {| metrics := Some ["screenPageViews"];
     dimensions := Some ["pagePath"];
     dateRanges := "[]";
     orderBy := None;
     plan_limit := PNumber (RInt 5) |}.

Definition audit_sheet : Sheet :=
  {| headerValues := ["Address"; "Protocol"];
     sheetRows :=
       [ fun header => if String.eqb header "Address" then PString "http://example.com/"
                       else if String.eqb header "Protocol" then PString "http"
                       else PUndefined;
         fun header => if String.eqb header "Address" then PString "https://example.com/b"
                       else if String.eqb header "Protocol" then PString "https"
                       else PUndefined ] |}.

Definition not_https_plan : DataPlan :=
  {| filters := Some [ {| column := "Protocol"; operator := "!=";
                          value := PString "https" |} ];
     groupBy := None;
     sortBy := None;
     limit := PUndefined |}.

(** Every service answers: the plans above are what the replies decode to. *)
Definition office : World :=
  {| fetch := fun _ _ => Returned (Sample.replying "{}");
     JSON_parse_ReportingPlan := fun _ => Returned pages_plan;
     JSON_parse_DataPlan := fun _ => Returned not_https_plan;
     runReport := fun _ => Returned "{}";
     credentials_json := true;
     SEO_SPREADSHEET_ID := Some "sheet-1";
     loadSheet := fun _ => Returned audit_sheet |}.

Definition which_urls : SEOAgent.SEOQuery :=
  {| SEOAgent.query := "Which URLs do not use HTTPS?";
     SEOAgent.spreadsheetId := None |}.

Definition drop_last_plan : DataPlan := Sample.sorted_plan (PNumber (RInt (-1))).

Definition status_groups : DataPlan :=
  {| filters := None; groupBy := Some "Status Code"; sortBy := None;
     limit := PUndefined |}.

(** The records of a returned value, none when it threw. *)
Definition returned {A : Type} (o : outcome (list A)) : list A :=
  match o with
  | Returned l => l
  | Thrown _ => []
  end.

(** The response of a returned value, a failed one when it threw. *)
Definition returned_response {D : Type} (o : outcome (AgentResponse D))
  : AgentResponse D :=
  match o with
  | Returned r => r
  | Thrown e => Spec.failed "" (message e)
  end.

Definition returned_orchestrator (o : outcome Orchestrator.OrchestratorResponse)
  : Orchestrator.OrchestratorResponse :=
  match o with
  | Returned r => r
  | Thrown e => Measure.failure_response e
  end.

(** The classifier answers "analytics" to everything. *)
Definition analyst : World :=
  Sample.world (fun _ _ => Returned (Sample.replying " Analytics ")).

Definition sessions_last_week : Orchestrator.QueryRequest :=
  {| Orchestrator.query := "How many sessions last week?";
     Orchestrator.propertyId := None;
     Orchestrator.spreadsheetId := None |}.

(** Seven pages; the fifth has no title. *)
Definition catalogue : list Record :=
  map record_of_row
    [ [("Id", PString "1"); ("Title", PString "a")];
      [("Id", PString "2"); ("Title", PString "a")];
      [("Id", PString "3"); ("Title", PString "b")];
      [("Id", PString "4"); ("Title", PString "a")];
      [("Id", PString "5")];
      [("Id", PString "6"); ("Title", PString "a")];
      [("Id", PString "7"); ("Title", PString "a")] ].

Definition by_title : SortBy := {| sort_column := "Title"; desc := false |}.

Definition id_of (r : Record) : string := ToString (ToPrimitive (record_get r "Id")).

(** The sixth and the seventh page: both are titled "a". *)
Definition last_two (r : Record) : bool :=
  String.eqb (id_of r) "6" || String.eqb (id_of r) "7".

Definition by_address (descending : bool) : SortBy :=
  {| sort_column := "Address"; desc := descending |}.

Definition group_by_title : DataPlan :=
  {| filters := None; groupBy := Some "Title"; sortBy := None; limit := PUndefined |}.

Definition titled : list Row :=
  [ [("Address", PString "http://example.com/"); ("Title", PString "Home")];
    [("Address", PString "http://example.com/x"); ("Title", PString "toString")] ].

Definition empty_query : Routes.Body :=
  {| Routes.query := PString ""; Routes.propertyId := PUndefined;
     Routes.spreadsheetId := PUndefined |}.

End Scenario.

(* ================================================================== *)
(** ** Facts about the runtime *)
(* ================================================================== *)

Module JsFacts.
Import Js Spec.

Lemma prefix_spec (t s : string) :
  String.prefix t s = true <-> exists q, s = (t ++ q)%string.
Proof.
  revert s; induction t as [|a t IH]; intros s.
  - destruct s; simpl; split; intros _; eauto.
  - destruct s as [|b s]; simpl.
    + split; [discriminate | intros [q Hq]; discriminate].
    + destruct (ascii_dec a b) as [->|Hab].
      * rewrite IH. split; intros [q Hq]; exists q; [now subst | now inversion Hq].
      * split; [discriminate | intros [q Hq]; congruence].
Qed.

(** [includes] decides the occurrence of a substring. *)
Lemma includes_spec (s t : string) :
  includes s t = true <-> exists p q, s = (p ++ t ++ q)%string.
Proof.
  induction s as [|c r IH]; simpl.
  - destruct t as [|a t]; simpl; split; try discriminate; try reflexivity.
    + intros _. now exists EmptyString, EmptyString.
    + intros [p [q Hq]]. destruct p; simpl in Hq; discriminate.
  - change (String.prefix t (String c r) || includes r t = true <->
            exists p q, String c r = (p ++ t ++ q)%string).
    rewrite orb_true_iff, prefix_spec, IH. split.
    + intros [[q Hq] | [p [q Hq]]].
      * now exists EmptyString, q.
      * exists (String c p), q. simpl. now rewrite Hq.
    + intros [p [q Hq]]. destruct p as [|c' p]; simpl in Hq.
      * left. now exists q.
      * right. inversion Hq. now exists p, q.
Qed.

Lemma lower_ascii_idem (c : ascii) : lower_ascii (lower_ascii c) = lower_ascii c.
Proof.
  destruct c as [[] [] [] [] [] [] [] []]; reflexivity.
Qed.

Lemma toLowerCase_idem (s : string) : toLowerCase (toLowerCase s) = toLowerCase s.
Proof.
  induction s as [|c r IH]; simpl; [reflexivity|].
  now rewrite lower_ascii_idem, IH.
Qed.

Lemma string_lt_irrefl (s : string) : string_lt s s = false.
Proof.
  unfold string_lt.
  destruct (String.compare s s) eqn:E; try reflexivity.
  pose proof (String.compare_antisym s s) as H. rewrite E in H. discriminate.
Qed.

Section Sorting.
Variable A : Type.
Variable compareFn : A -> A -> Z.

Lemma insert_In (x y : A) (l : list A) :
  In y (insert compareFn x l) <-> y = x \/ In y l.
Proof.
  induction l as [|z l IH]; simpl.
  - intuition.
  - destruct (compareFn x z <=? 0)%Z; simpl; [intuition|].
    rewrite IH. intuition.
Qed.

Lemma sort_In (y : A) (l : list A) : In y (sort compareFn l) <-> In y l.
Proof.
  induction l as [|x l IH]; simpl; [tauto|].
  rewrite insert_In, IH. intuition.
Qed.

Lemma insert_length (x : A) (l : list A) :
  length (insert compareFn x l) = S (length l).
Proof.
  induction l as [|z l IH]; simpl; [reflexivity|].
  destruct (compareFn x z <=? 0)%Z; simpl; congruence.
Qed.

Lemma sort_length (l : list A) : length (sort compareFn l) = length l.
Proof.
  induction l as [|x l IH]; simpl; [reflexivity|].
  now rewrite insert_length, IH.
Qed.

(** Inserting [x] puts it in front of every element it ties with. *)
Lemma filter_insert (P : A -> bool) (x : A) (l : list A) :
  (forall y, In y l -> P x = true -> P y = true -> (compareFn x y <= 0)%Z) ->
  filter P (insert compareFn x l) = if P x then x :: filter P l else filter P l.
Proof.
  induction l as [|z l IH]; intros Htie; simpl.
  - reflexivity.
  - destruct (compareFn x z <=? 0)%Z eqn:Hc; simpl.
    + reflexivity.
    + rewrite IH by (intros y Hy; apply Htie; now right).
      destruct (P x) eqn:Px, (P z) eqn:Pz; try reflexivity.
      exfalso. apply Z.leb_gt in Hc.
      specialize (Htie z (or_introl eq_refl) eq_refl Pz). lia.
Qed.

(** Stability: a class of records that tie with each other keeps its order. *)
Lemma sort_stable (P : A -> bool) (l : list A) :
  (forall x y, In x l -> In y l -> P x = true -> P y = true ->
               (compareFn x y <= 0)%Z) ->
  filter P (sort compareFn l) = filter P l.
Proof.
  induction l as [|x l IH]; intros Htie; simpl; [reflexivity|].
  rewrite filter_insert.
  - rewrite IH; [reflexivity|].
    intros a b Ha Hb Pa Pb. apply Htie; simpl; auto.
  - intros y Hy Px Py. rewrite sort_In in Hy. apply Htie; simpl; auto.
Qed.
End Sorting.

Section Objects.
Context {Num : JsNumber}.

Lemma get_absent {V : Type} (u : V) (o : list (string * V)) (k : string) :
  has o k = false -> get u o k = u.
Proof.
  induction o as [|[k' v] o IH]; simpl; [reflexivity|].
  destruct (String.eqb k k'); simpl; [discriminate | exact IH].
Qed.

Lemma js_lt_irrefl (v : value) : js_lt v v = false.
Proof.
  unfold js_lt. destruct (ToPrimitive v) as [| |b|n|s]; simpl;
    auto using lt_irrefl, string_lt_irrefl.
Qed.

Lemma looseEq_undefined (v : prim) : looseEq PUndefined v = nullish v.
Proof. destruct v as [| |b|n|s]; try reflexivity. Qed.
End Objects.

End JsFacts.

(* ================================================================== *)
(** ** The tabular agent's execute-operations *)
(* ================================================================== *)

Section ExecuteOperations.
Import Js Schema Spec JsFacts.
Context {Num : JsNumber}.

Lemma filter_filter {A : Type} (P Q : A -> bool) (l : list A) :
  filter Q (filter P l) = filter (fun x => P x && Q x) l.
Proof.
  induction l as [|x l IH]; simpl; [reflexivity|].
  destruct (P x); simpl; [destruct (Q x)|]; now rewrite IH.
Qed.

Lemma filter_all {A : Type} (P : A -> bool) (l : list A) :
  Forall (fun x => P x = true) l -> filter P l = l.
Proof.
  induction 1 as [|x l Hx _ IH]; simpl; [reflexivity|].
  now rewrite Hx, IH.
Qed.

Lemma filter_none {A : Type} (P : A -> bool) (l : list A) :
  Forall (fun x => P x = false) l -> filter P l = [].
Proof.
  induction 1 as [|x l Hx _ IH]; simpl; [reflexivity|].
  now rewrite Hx.
Qed.

Lemma fold_filter (cs : list FilterClause) (rows : list Row) :
  fold_left (fun result filter => List.filter (SEOAgent.passes filter) result) cs rows
  = filter (fun row => forallb (fun f => SEOAgent.passes f row) cs) rows.
Proof.
  revert rows; induction cs as [|f cs IH]; intros rows; simpl.
  - symmetry. apply filter_all, Forall_forall. reflexivity.
  - rewrite IH. apply filter_filter.
Qed.

Lemma applyFilters_fold (plan : DataPlan) (rows : list Row) :
  SEOAgent.applyFilters plan rows
  = fold_left (fun result filter => List.filter (SEOAgent.passes filter) result)
              (clauses plan) rows.
Proof.
  unfold SEOAgent.applyFilters, clauses.
  destruct (filters plan) as [[|f fs]|]; reflexivity.
Qed.

Lemma applyFilters_filter (plan : DataPlan) (rows : list Row) :
  SEOAgent.applyFilters plan rows
  = filter (fun row => forallb (fun f => SEOAgent.passes f row) (clauses plan)) rows.
Proof. rewrite applyFilters_fold. apply fold_filter. Qed.

Lemma passes_unknown (c op : string) (v : prim) (row : Row) :
  ~ In op supported_operators ->
  SEOAgent.passes {| column := c; operator := op; value := v |} row = true.
Proof.
  intros Hop. unfold SEOAgent.passes; simpl.
  repeat match goal with
         | |- context [String.eqb op ?s] =>
             destruct (String.eqb_spec op s) as [->|_];
             [exfalso; apply Hop; simpl; tauto|]
         end.
  reflexivity.
Qed.

(** C4.  The filter step applies the clauses in the order given; it keeps
    exactly the rows that satisfy every clause, in their order; [==] and
    [!=] are loose equality and its negation, [>] and [<] compare the two
    sides after [parseFloat], [contains] holds when the lower-cased string
    of the clause's value occurs in the lower-cased string of the cell (so
    the letter case of the value does not matter), and a clause with any
    other operator keeps the row. *)
Theorem filter_step_semantics :
  (forall plan rows,
      SEOAgent.applyFilters plan rows
      = fold_left (fun result filter => List.filter (SEOAgent.passes filter) result)
                  (clauses plan) rows) /\
  (forall plan rows,
      SEOAgent.applyFilters plan rows
      = filter (fun row => forallb (fun f => SEOAgent.passes f row) (clauses plan)) rows) /\
  (forall plan rows row,
      In row (SEOAgent.applyFilters plan rows) <->
      In row rows /\ forall f, In f (clauses plan) -> SEOAgent.passes f row = true) /\
  (forall c v row,
      let cell := row_get row c in
      let clause op := {| column := c; operator := op; value := v |} in
      SEOAgent.passes (clause "==") row = looseEq cell v /\
      SEOAgent.passes (clause "!=") row = negb (looseEq cell v) /\
      SEOAgent.passes (clause ">") row = num_lt (parseFloat v) (parseFloat cell) /\
      SEOAgent.passes (clause "<") row = num_lt (parseFloat cell) (parseFloat v) /\
      (SEOAgent.passes (clause "contains") row = true <->
       exists p q, toLowerCase (ToString cell)
                   = (p ++ toLowerCase (ToString v) ++ q)%string) /\
      (forall t,
          SEOAgent.passes {| column := c; operator := "contains"; value := PString t |} row
          = SEOAgent.passes {| column := c; operator := "contains";
                               value := PString (toLowerCase t) |} row) /\
      (forall op, ~ In op supported_operators -> SEOAgent.passes (clause op) row = true)).
Proof.
  split; [exact applyFilters_fold|].
  split; [exact applyFilters_filter|].
  split.
  - intros plan rows row. rewrite applyFilters_filter, filter_In, forallb_forall.
    reflexivity.
  - intros c v row cell clause. subst clause cell.
    repeat split; try reflexivity.
    + unfold SEOAgent.passes; simpl. apply includes_spec.
    + unfold SEOAgent.passes; simpl. apply includes_spec.
    + intros t. unfold SEOAgent.passes; simpl. now rewrite toLowerCase_idem.
    + intros op. apply passes_unknown.
Qed.

(** C9.  Filtering twice with one list of clauses is filtering once. *)
Theorem filter_step_idempotent :
  forall (plan : DataPlan) (rows : list Row),
    SEOAgent.applyFilters plan (SEOAgent.applyFilters plan rows)
    = SEOAgent.applyFilters plan rows.
Proof.
  intros plan rows. rewrite !applyFilters_filter, filter_filter.
  apply filter_ext. intros row. apply andb_diag.
Qed.

Lemma passes_absent (c : string) (v : prim) (row : Row) :
  has row c = false ->
  let clause op := {| column := c; operator := op; value := v |} in
  SEOAgent.passes (clause "==") row = nullish v /\
  SEOAgent.passes (clause "!=") row = negb (nullish v) /\
  SEOAgent.passes (clause ">") row = false /\
  SEOAgent.passes (clause "<") row = false /\
  SEOAgent.passes (clause "contains") row
  = includes "undefined" (toLowerCase (ToString v)).
Proof.
  intros Habs clause. subst clause.
  unfold SEOAgent.passes, row_get; simpl.
  rewrite (get_absent PUndefined row c Habs).
  unfold looseNeq, parseFloat. simpl ToString.
  rewrite parseFloat_undefined, lt_NaN_l, lt_NaN_r.
  repeat split; destruct v as [| |[]|n|s]; reflexivity.
Qed.

(** C5, as the code has it.  On a row without the named column, the name
    being no member of [Object.prototype], the cell is [undefined]: [>] and
    [<] drop the row; [==] keeps it exactly when the clause's value is
    [null] or [undefined], and [!=] exactly when it is not; [contains]
    keeps it exactly when the lower-cased string of the value occurs in
    "undefined".  Hence on rows that all lack the column, [>] and [<] leave
    no row and [!=] with a value other than [null] leaves them all. *)
Theorem absent_column_filter :
  forall (c : string) (v : prim) (rows : list Row),
    Measure.inherited c = false ->
    Forall (fun row => has row c = false) rows ->
    let clause op := {| column := c; operator := op; value := v |} in
    (forall row, In row rows ->
       SEOAgent.passes (clause "==") row = nullish v /\
       SEOAgent.passes (clause "!=") row = negb (nullish v) /\
       SEOAgent.passes (clause ">") row = false /\
       SEOAgent.passes (clause "<") row = false /\
       SEOAgent.passes (clause "contains") row
       = includes "undefined" (toLowerCase (ToString v))) /\
    SEOAgent.applyFilters (filter_plan [clause ">"]) rows = [] /\
    SEOAgent.applyFilters (filter_plan [clause "<"]) rows = [] /\
    SEOAgent.applyFilters (filter_plan [clause "=="]) rows
    = (if nullish v then rows else []) /\
    SEOAgent.applyFilters (filter_plan [clause "!="]) rows
    = (if nullish v then [] else rows) /\
    SEOAgent.applyFilters (filter_plan [clause "contains"]) rows
    = (if includes "undefined" (toLowerCase (ToString v)) then rows else []).
Proof.
  intros c v rows _ Habs clause.
  assert (Hrow : forall row, In row rows ->
       SEOAgent.passes (clause "==") row = nullish v /\
       SEOAgent.passes (clause "!=") row = negb (nullish v) /\
       SEOAgent.passes (clause ">") row = false /\
       SEOAgent.passes (clause "<") row = false /\
       SEOAgent.passes (clause "contains") row
       = includes "undefined" (toLowerCase (ToString v))).
  { intros row Hin. rewrite Forall_forall in Habs.
    exact (passes_absent c v row (Habs row Hin)). }
  split; [exact Hrow|].
  assert (Hone : forall op b,
             (forall row, In row rows -> SEOAgent.passes (clause op) row = b) ->
             SEOAgent.applyFilters (filter_plan [clause op]) rows
             = if b then rows else []).
  { intros op b Hb. simpl. destruct b.
    - apply filter_all, Forall_forall, Hb.
    - apply filter_none, Forall_forall, Hb. }
  repeat split.
  - apply (Hone ">" false). intros row Hin. apply (Hrow row Hin).
  - apply (Hone "<" false). intros row Hin. apply (Hrow row Hin).
  - apply (Hone "==" (nullish v)). intros row Hin. apply (Hrow row Hin).
  - rewrite (Hone "!=" (negb (nullish v))).
    + now destruct (nullish v).
    + intros row Hin. apply (Hrow row Hin).
  - apply (Hone "contains"). intros row Hin. apply (Hrow row Hin).
Qed.

End ExecuteOperations.

Lemma absent_column_filter_witness :
  Measure.inherited "Protocol" = false /\
  Forall (fun row => Js.has row "Protocol" = false) Sample.crawl /\
  SEOAgent.applyFilters (Spec.filter_plan [Sample.protocol_is_not_https]) Sample.crawl
  = Sample.crawl.
Proof.
  assert (H : Forall (fun row => Js.has row "Protocol" = false) Sample.crawl)
    by (repeat constructor).
  split; [reflexivity|]. split; [exact H|].
  exact (proj1 (proj2 (proj2 (proj2 (proj2
           (absent_column_filter (Num := RefNumber.kernel)
              "Protocol" (Js.PString "https") Sample.crawl eq_refl H)))))).
Defined.

(** C5 as stated fails: [!=] on a column that no row has keeps every row. *)
Lemma absent_column_not_equal_keeps_rows :
  SEOAgent.applyFilters (Spec.filter_plan [Sample.protocol_is_not_https]) Sample.crawl
  = Sample.crawl /\
  ~ Spec.absent_column_drops_all (Num := RefNumber.kernel).
Proof.
  split; [reflexivity|].
  intros H.
  specialize (H "!=" "Protocol" (Js.PString "https") Sample.crawl).
  discriminate H.
  - simpl; tauto.
  - repeat constructor.
Qed.

(* ================================================================== *)
(** ** Consistent comparators and the engine's sort *)
(* ================================================================== *)

Section ConsistentComparator.
Import Js Measure.
Variable A : Type.
Variable compareFn : A -> A -> Z.
Variable S : list A.
Hypothesis Hconsistent : consistent compareFn S.

Lemma consistent_flip_lt (a b : A) :
  In a S -> In b S -> (compareFn a b < 0)%Z -> (compareFn b a > 0)%Z.
Proof.
  intros Ha Hb Hab. destruct Hconsistent as [Hrefl [Hsym [_ [Hlt _]]]].
  destruct (Z.compare_spec (compareFn b a) 0) as [E|E|E]; [| |lia].
  - specialize (Hsym b a Hb Ha E). lia.
  - specialize (Hlt a b a Ha Hb Ha Hab E). specialize (Hrefl a Ha). lia.
Qed.

Lemma consistent_flip_gt (a b : A) :
  In a S -> In b S -> (compareFn a b > 0)%Z -> (compareFn b a < 0)%Z.
Proof.
  intros Ha Hb Hab. destruct Hconsistent as [Hrefl [Hsym [_ [_ Hgt]]]].
  destruct (Z.compare_spec (compareFn b a) 0) as [E|E|E]; [|lia|].
  - specialize (Hsym b a Hb Ha E). lia.
  - assert (E' : (compareFn b a > 0)%Z) by lia.
    specialize (Hgt a b a Ha Hb Ha Hab E'). specialize (Hrefl a Ha). lia.
Qed.

Lemma consistent_flip (a b : A) :
  In a S -> In b S -> (compareFn a b <= 0)%Z <-> (0 <= compareFn b a)%Z.
Proof.
  intros Ha Hb. destruct Hconsistent as [_ [Hsym _]]. split; intros H.
  - destruct (Z.eq_dec (compareFn a b) 0) as [E|E].
    + rewrite (Hsym a b Ha Hb E). lia.
    + assert (compareFn b a > 0)%Z by (apply consistent_flip_lt; auto; lia). lia.
  - destruct (Z.eq_dec (compareFn b a) 0) as [E|E].
    + rewrite (Hsym b a Hb Ha E). lia.
    + assert (compareFn a b < 0)%Z by (apply consistent_flip_gt; auto; lia). lia.
Qed.

Lemma consistent_le_trans (a b c : A) :
  In a S -> In b S -> In c S ->
  (compareFn a b <= 0)%Z -> (compareFn b c <= 0)%Z -> (compareFn a c <= 0)%Z.
Proof.
  intros Ha Hb Hc Hab Hbc.
  destruct Hconsistent as [_ [Hsym [Heq [Hlt _]]]].
  destruct (Z.eq_dec (compareFn a b) 0) as [Eab|Eab];
    destruct (Z.eq_dec (compareFn b c) 0) as [Ebc|Ebc].
  - rewrite (Heq a b c Ha Hb Hc Eab Ebc). lia.
  - (* a = b, b < c *)
    destruct (Z.compare_spec (compareFn a c) 0) as [E|E|E]; [lia|lia|].
    exfalso.
    assert (Hca : (compareFn c a < 0)%Z) by (apply consistent_flip_gt; auto; lia).
    assert (Hba : (compareFn b a < 0)%Z) by (apply (Hlt b c a); auto; lia).
    specialize (Hsym a b Ha Hb Eab). lia.
  - (* a < b, b = c *)
    destruct (Z.compare_spec (compareFn a c) 0) as [E|E|E]; [lia|lia|].
    exfalso.
    assert (Hca : (compareFn c a < 0)%Z) by (apply consistent_flip_gt; auto; lia).
    assert (Hcb : (compareFn c b < 0)%Z) by (apply (Hlt c a b); auto; lia).
    specialize (Hsym b c Hb Hc Ebc). lia.
  - assert (compareFn a c < 0)%Z by (apply (Hlt a b c); auto; lia). lia.
Qed.

Lemma consistent_lt_le_trans (a b c : A) :
  In a S -> In b S -> In c S ->
  (compareFn a b < 0)%Z -> (compareFn b c <= 0)%Z -> (compareFn a c < 0)%Z.
Proof.
  intros Ha Hb Hc Hab Hbc.
  destruct (Z.lt_ge_cases (compareFn a c) 0) as [E|E]; [exact E|exfalso].
  apply (consistent_flip c a Hc Ha) in E.
  pose proof (consistent_le_trans b c a Hb Hc Ha Hbc E) as Hba.
  apply (consistent_flip b a Hb Ha) in Hba. lia.
Qed.

(** [insert] and [insert_after] of two elements commute. *)
Lemma insert_insert_after (x y : A) (s : list A) :
  In x S -> In y S -> incl s S ->
  insert compareFn y (insert_after compareFn x s)
  = insert_after compareFn x (insert compareFn y s).
Proof.
  intros Hx Hy. induction s as [|e s IH]; intros Hs; simpl.
  - destruct (compareFn y x <=? 0)%Z eqn:E1, (compareFn x y <? 0)%Z eqn:E2;
      try reflexivity; exfalso.
    + apply Z.leb_le in E1. apply Z.ltb_lt in E2.
      apply (consistent_flip y x Hy Hx) in E1. lia.
    + apply Z.leb_gt in E1. apply Z.ltb_ge in E2.
      apply (consistent_flip y x Hy Hx) in E2. lia.
  - assert (He : In e S) by (apply Hs; now left).
    assert (Hs' : incl s S) by (intros z Hz; apply Hs; now right).
    destruct (compareFn x e <? 0)%Z eqn:Exe, (compareFn y e <=? 0)%Z eqn:Eye; simpl;
      rewrite ?Exe, ?Eye.
    + (* y <= e, x < e *)
      destruct (compareFn y x <=? 0)%Z eqn:E1, (compareFn x y <? 0)%Z eqn:E2;
        rewrite ?Exe, ?Eye; try reflexivity; exfalso.
      * apply Z.leb_le in E1. apply Z.ltb_lt in E2.
        apply (consistent_flip y x Hy Hx) in E1. lia.
      * apply Z.leb_gt in E1. apply Z.ltb_ge in E2.
        apply (consistent_flip y x Hy Hx) in E2. lia.
    + (* y > e, x < e: then x < y *)
      assert (Hyx : (compareFn y x <=? 0)%Z = false).
      { apply Z.ltb_lt in Exe. apply Z.leb_gt in Eye.
        assert (Hey : (compareFn e y <= 0)%Z)
          by (apply (consistent_flip e y He Hy); lia).
        pose proof (consistent_lt_le_trans x e y Hx He Hy Exe Hey) as Hxy.
        apply Z.leb_gt. pose proof (consistent_flip_lt x y Hx Hy Hxy). lia. }
      now rewrite Hyx, ?Eye, ?Exe.
    + (* y <= e, x >= e: then y <= x *)
      assert (Hxy : (compareFn x y <? 0)%Z = false).
      { apply Z.ltb_ge in Exe. apply Z.leb_le in Eye.
        assert (Hex : (compareFn e x <= 0)%Z)
          by (apply (consistent_flip e x He Hx); lia).
        pose proof (consistent_le_trans y e x Hy He Hx Eye Hex) as Hyx.
        apply Z.ltb_ge. apply (consistent_flip y x Hy Hx). exact Hyx. }
      now rewrite Hxy, ?Eye, ?Exe.
    + now rewrite IH.
Qed.

(** Sorting one more element at the end: it goes after every element it
    does not precede. *)
Lemma sort_snoc (l : list A) (x : A) :
  incl l S -> In x S ->
  sort compareFn (l ++ [x]) = insert_after compareFn x (sort compareFn l).
Proof.
  intros Hl Hx. induction l as [|y l IH]; simpl; [reflexivity|].
  rewrite IH by (intros z Hz; apply Hl; now right).
  apply insert_insert_after; [exact Hx | apply Hl; now left |].
  intros z Hz. apply JsFacts.sort_In in Hz. apply Hl. now right.
Qed.

Lemma insert_ordered (x : A) (s : list A) :
  In x S -> incl s S ->
  StronglySorted (fun a b => (compareFn a b <= 0)%Z) s ->
  StronglySorted (fun a b => (compareFn a b <= 0)%Z) (insert compareFn x s).
Proof.
  intros Hx. induction s as [|e s IH]; intros Hs Hsorted; simpl.
  - repeat constructor.
  - assert (He : In e S) by (apply Hs; now left).
    assert (Hs' : incl s S) by (intros z Hz; apply Hs; now right).
    inversion Hsorted as [|? ? Hsorted' Hall]; subst.
    destruct (compareFn x e <=? 0)%Z eqn:E.
    + apply Z.leb_le in E. constructor; [exact Hsorted|].
      constructor; [exact E|].
      rewrite Forall_forall in *. intros z Hz.
      apply (consistent_le_trans x e z); auto.
    + apply Z.leb_gt in E. constructor; [now apply IH|].
      rewrite Forall_forall in *. intros z Hz.
      apply JsFacts.insert_In in Hz. destruct Hz as [->|Hz]; [|now apply Hall].
      apply (consistent_flip e x He Hx). lia.
Qed.

Lemma sort_ordered (l : list A) :
  incl l S ->
  StronglySorted (fun a b => (compareFn a b <= 0)%Z) (sort compareFn l).
Proof.
  induction l as [|x l IH]; intros Hl; simpl; [constructor|].
  apply insert_ordered.
  - apply Hl. now left.
  - intros z Hz. apply JsFacts.sort_In in Hz. apply Hl. now right.
  - apply IH. intros z Hz. apply Hl. now right.
Qed.

(** In an ordered list the elements [x] does not precede come first. *)
Lemma insert_after_split (x : A) (s : list A) :
  In x S -> incl s S ->
  StronglySorted (fun a b => (compareFn a b <= 0)%Z) s ->
  exists s1 s2,
    s = s1 ++ s2 /\
    Forall (fun e => (0 <= compareFn x e)%Z) s1 /\
    Forall (fun e => (compareFn x e < 0)%Z) s2 /\
    insert_after compareFn x s = s1 ++ x :: s2.
Proof.
  intros Hx. induction s as [|e s IH]; intros Hs Hsorted; simpl.
  - exists [], []. repeat split; constructor.
  - assert (He : In e S) by (apply Hs; now left).
    assert (Hs' : incl s S) by (intros z Hz; apply Hs; now right).
    inversion Hsorted as [|? ? Hsorted' Hall]; subst.
    destruct (compareFn x e <? 0)%Z eqn:E.
    + apply Z.ltb_lt in E. exists [], (e :: s). repeat split; [constructor|].
      constructor; [exact E|].
      rewrite Forall_forall in *. intros z Hz.
      apply (consistent_lt_le_trans x e z); auto.
    + apply Z.ltb_ge in E.
      destruct (IH Hs' Hsorted') as [s1 [s2 [Heq [H1 [H2 Hins]]]]].
      exists (e :: s1), s2. repeat split.
      * simpl. now rewrite <- Heq.
      * now constructor.
      * exact H2.
      * simpl. now rewrite Hins.
Qed.

End ConsistentComparator.

Section EngineSort.
Import Js Measure.
Variable A : Type.
Variable compareFn : A -> A -> Z.

(** The binary search of [BinaryInsertionSort] ends within [right - left]
    iterations, whatever the comparator: more of them change nothing. *)
Lemma insertion_point_iterations (pivot : A) (sorted : list A) :
  forall n m left right,
    right <= length sorted -> right - left <= n -> right - left <= m ->
    V8.insertion_point compareFn n sorted pivot left right
    = V8.insertion_point compareFn m sorted pivot left right.
Proof.
  induction n as [|n IH]; intros m left right Hr Hn Hm.
  - destruct m as [|m]; cbn [V8.insertion_point]; [reflexivity|].
    destruct (left <? right)%nat eqn:E; [apply Nat.ltb_lt in E; lia | reflexivity].
  - destruct m as [|m]; cbn [V8.insertion_point];
      (destruct (left <? right)%nat eqn:E; [apply Nat.ltb_lt in E | reflexivity]);
      [lia|].
    set (mid := left + (right - left) / 2).
    assert (Hmid : left <= mid < right).
    { unfold mid. pose proof (Nat.div_lt (right - left) 2). lia. }
    clearbody mid.
    destruct (nth_error sorted mid) as [element|]; [|reflexivity].
    destruct (compareFn pivot element <? 0)%Z; apply IH; lia.
Qed.

(** The binary search of [BinaryInsertionSort] ends at the first element
    [pivot] precedes, when the elements before it are those [pivot] does
    not precede. *)
Lemma insertion_point_split (pivot : A) (s1 s2 : list A) :
  Forall (fun e => (0 <= compareFn pivot e)%Z) s1 ->
  Forall (fun e => (compareFn pivot e < 0)%Z) s2 ->
  forall iterations left right,
    left <= length s1 <= right -> right <= length (s1 ++ s2) ->
    right - left <= iterations ->
    V8.insertion_point compareFn iterations (s1 ++ s2) pivot left right = length s1.
Proof.
  intros H1 H2. induction iterations as [|n IH]; intros left right Hk Hr Hn;
    cbn [V8.insertion_point].
  - lia.
  - destruct (left <? right)%nat eqn:E; [|apply Nat.ltb_ge in E; lia].
    apply Nat.ltb_lt in E.
    set (mid := left + (right - left) / 2).
    assert (Hmid : left <= mid < right).
    { unfold mid. pose proof (Nat.div_lt (right - left) 2). lia. }
    clearbody mid.
    destruct (nth_error (s1 ++ s2) mid) as [element|] eqn:Hnth;
      [|apply nth_error_None in Hnth; lia].
    destruct (Nat.lt_ge_cases mid (length s1)) as [Hin|Hin].
    + rewrite nth_error_app1 in Hnth by exact Hin.
      apply nth_error_In in Hnth. rewrite Forall_forall in H1.
      specialize (H1 element Hnth).
      destruct (compareFn pivot element <? 0)%Z eqn:Eo;
        [apply Z.ltb_lt in Eo; lia|].
      apply IH; lia.
    + rewrite nth_error_app2 in Hnth by exact Hin.
      apply nth_error_In in Hnth. rewrite Forall_forall in H2.
      specialize (H2 element Hnth).
      destruct (compareFn pivot element <? 0)%Z eqn:Eo;
        [|apply Z.ltb_ge in Eo; lia].
      apply IH; lia.
Qed.

Variable S : list A.
Hypothesis Hconsistent : consistent compareFn S.

(** On an ordered list, [place] is the insertion after the elements that
    [pivot] does not precede. *)
Lemma place_insert_after (pivot : A) (s : list A) :
  In pivot S -> incl s S ->
  StronglySorted (fun a b => (compareFn a b <= 0)%Z) s ->
  V8.place compareFn s pivot = insert_after compareFn pivot s.
Proof.
  intros Hp Hs Hsorted.
  destruct (insert_after_split _ _ _ Hconsistent pivot s Hp Hs Hsorted)
    as [s1 [s2 [Heq [H1 [H2 Hins]]]]].
  unfold V8.place. rewrite Hins, Heq.
  rewrite (insertion_point_split pivot s1 s2 H1 H2); [| |lia|lia].
  - rewrite firstn_app, Nat.sub_diag, firstn_all, firstn_O, app_nil_r.
    rewrite skipn_app, Nat.sub_diag, skipn_all, skipn_O. reflexivity.
  - rewrite length_app. lia.
Qed.

Lemma BinaryInsertionSort_sort (rest pre : list A) :
  incl (pre ++ rest) S ->
  V8.BinaryInsertionSort compareFn (sort compareFn pre) rest
  = sort compareFn (pre ++ rest).
Proof.
  revert pre. induction rest as [|pivot rest IH]; intros pre Hin; simpl.
  - now rewrite app_nil_r.
  - assert (Hpre : incl pre S) by (intros z Hz; apply Hin, in_or_app; now left).
    assert (Hp : In pivot S) by (apply Hin, in_or_app; right; now left).
    rewrite place_insert_after.
    + rewrite <- (sort_snoc _ _ _ Hconsistent pre pivot Hpre Hp).
      rewrite IH by (rewrite <- app_assoc; exact Hin).
      now rewrite <- app_assoc.
    + exact Hp.
    + intros z Hz. apply JsFacts.sort_In in Hz. now apply Hpre.
    + now apply (sort_ordered _ _ _ Hconsistent).
Qed.

Lemma run_continues_le (isDescending : bool) (rest : list A) (previous : A) :
  V8.run_continues compareFn isDescending previous rest <= length rest.
Proof.
  revert previous. induction rest as [|c rest IH]; intros previous; simpl; [lia|].
  destruct isDescending.
  - destruct (compareFn c previous >=? 0)%Z; [lia|]. specialize (IH c). lia.
  - destruct (compareFn c previous <? 0)%Z; [lia|]. specialize (IH c). lia.
Qed.

(** A run that does not descend is sorted already. *)
Lemma ascending_run_sorted (rest : list A) (previous : A) :
  In previous S -> incl rest S ->
  let run := previous :: firstn (V8.run_continues compareFn false previous rest) rest in
  sort compareFn run = run.
Proof.
  revert previous. induction rest as [|c rest IH]; intros previous Hp Hin; simpl.
  - reflexivity.
  - assert (Hc : In c S) by (apply Hin; now left).
    assert (Hrest : incl rest S) by (intros z Hz; apply Hin; now right).
    destruct (compareFn c previous <? 0)%Z eqn:E; simpl; [reflexivity|].
    apply Z.ltb_ge in E. specialize (IH c Hc Hrest). simpl in IH. rewrite IH.
    simpl. apply (consistent_flip _ _ _ Hconsistent previous c Hp Hc) in E.
    apply Z.leb_le in E. now rewrite E.
Qed.

(** A run that descends, each element preceding the one before it, is
    sorted by reversing it. *)
Lemma descending_run_sorted (rest : list A) (previous : A) (before : list A) :
  In previous S -> incl before S -> incl rest S ->
  sort compareFn (rev (previous :: before)) = previous :: before ->
  sort compareFn (rev (previous :: before)
                  ++ firstn (V8.run_continues compareFn true previous rest) rest)
  = rev (firstn (V8.run_continues compareFn true previous rest) rest)
    ++ previous :: before.
Proof.
  revert previous before.
  induction rest as [|c rest IH]; intros previous before Hp Hb Hin Hsorted.
  - simpl V8.run_continues. simpl firstn. now rewrite app_nil_r.
  - assert (Hc : In c S) by (apply Hin; now left).
    assert (Hrest : incl rest S) by (intros z Hz; apply Hin; now right).
    simpl V8.run_continues.
    destruct (compareFn c previous >=? 0)%Z eqn:E.
    + simpl firstn. now rewrite app_nil_r.
    + assert (Hlt : (compareFn c previous < 0)%Z).
      { destruct (Z.lt_ge_cases (compareFn c previous) 0) as [H|H]; [exact H|].
        apply Z.geb_le in H. congruence. }
      assert (Hstep : sort compareFn (rev (c :: previous :: before))
                      = c :: previous :: before).
      { change (rev (c :: previous :: before))
          with (rev (previous :: before) ++ [c]).
        rewrite (sort_snoc _ _ _ Hconsistent).
        - rewrite Hsorted. simpl. apply Z.ltb_lt in Hlt. now rewrite Hlt.
        - intros z Hz. apply in_rev in Hz. destruct Hz as [<-|Hz]; auto.
        - exact Hc. }
      assert (Hb' : incl (previous :: before) S)
        by (intros z [<-|Hz]; auto).
      specialize (IH c (previous :: before) Hc Hb' Hrest Hstep).
      change (rev (c :: previous :: before))
        with (rev (previous :: before) ++ [c]) in IH.
      rewrite <- app_assoc in IH. simpl app in IH at 2.
      cbn [firstn]. rewrite IH. cbn [rev]. now rewrite <- app_assoc.
Qed.

End EngineSort.

(** With a consistent comparator the engine's steps return the array that
    [sort] computes. *)
Lemma ArrayTimSortImpl_sort {A : Type} (compareFn : A -> A -> Z) (workArray : list A) :
  Js.consistent compareFn workArray ->
  V8.ArrayTimSortImpl compareFn workArray = Js.sort compareFn workArray.
Proof.
  intros Hc. destruct workArray as [|high [|low rest]]; [reflexivity|reflexivity|].
  unfold V8.ArrayTimSortImpl, V8.CountAndMakeRun.
  set (w := high :: low :: rest) in *.
  assert (Hhigh : In high w) by (now left).
  assert (Hlow : In low w) by (right; now left).
  assert (Hrest : incl rest w) by (intros z Hz; right; now right).
  set (d := (compareFn low high <? 0)%Z).
  set (r := V8.run_continues compareFn d low rest).
  assert (Hr : r <= length rest) by apply run_continues_le.
  assert (Hfirst : firstn (2 + r) w = high :: low :: firstn r rest) by reflexivity.
  assert (Hskip : skipn (2 + r) w = skipn r rest) by reflexivity.
  assert (Hw : w = (high :: low :: firstn r rest) ++ skipn r rest).
  { unfold w. simpl. now rewrite firstn_skipn. }
  assert (Hlen : length (firstn r rest) = r) by (apply firstn_length_le; exact Hr).
  destruct d eqn:Ed.
  - (* a descending run *)
    apply Z.ltb_lt in Ed.
    assert (Hrun : Js.sort compareFn (high :: low :: firstn r rest)
                   = rev (high :: low :: firstn r rest)).
    { pose proof (descending_run_sorted _ _ _ Hc rest low [high] Hlow) as H.
      fold r in H. simpl rev in H. simpl rev.
      rewrite <- !app_assoc. simpl app. simpl app in H. apply H.
      - intros z [<-|[]]. exact Hhigh.
      - exact Hrest.
      - simpl. pose proof (consistent_flip_lt _ _ _ Hc low high Hlow Hhigh Ed) as Hgt.
        destruct (compareFn high low <=? 0)%Z eqn:E; [|reflexivity].
        apply Z.leb_le in E. lia. }
    rewrite Hfirst, Hskip.
    rewrite firstn_app, skipn_app.
    replace (2 + r - length (rev (high :: low :: firstn r rest))) with 0
      by (rewrite length_rev; simpl; lia).
    rewrite firstn_O, skipn_O, app_nil_r.
    rewrite firstn_all2 by (rewrite length_rev; simpl; lia).
    rewrite skipn_all2 by (rewrite length_rev; simpl; lia).
    rewrite <- Hrun. simpl app.
    rewrite (BinaryInsertionSort_sort _ _ _ Hc).
    + now rewrite <- Hw.
    + rewrite <- Hw. apply incl_refl.
  - (* a run that does not descend *)
    apply Z.ltb_ge in Ed.
    assert (Hrun : Js.sort compareFn (high :: low :: firstn r rest)
                   = high :: low :: firstn r rest).
    { pose proof (ascending_run_sorted _ _ _ Hc rest low Hlow Hrest) as H.
      fold r in H. simpl in H. simpl. rewrite H. simpl.
      apply (consistent_flip _ _ _ Hc high low Hhigh Hlow) in Ed.
      apply Z.leb_le in Ed. now rewrite Ed. }
    rewrite Hfirst, Hskip. rewrite <- Hrun.
    rewrite (BinaryInsertionSort_sort _ _ _ Hc).
    + now rewrite <- Hw.
    + rewrite <- Hw. apply incl_refl.
Qed.

(* ================================================================== *)
(** ** Sorting and the limit *)
(* ================================================================== *)

Section SortAndLimit.
Import Js Schema Spec Measure JsFacts.
Context {Num : JsNumber}.

Lemma compareRecords_tie (by_ : SortBy) (a b : Record) :
  record_get a (sort_column by_) = record_get b (sort_column by_) ->
  SEOAgent.compareRecords by_ a b = 0%Z.
Proof.
  intros Hkey. unfold SEOAgent.compareRecords, js_gt.
  rewrite Hkey, js_lt_irrefl. now destruct (desc by_).
Qed.

Lemma applySort_stable (plan : DataPlan) (by_ : SortBy) (P : Record -> bool)
      (records : list Record) :
  sortBy plan = Some by_ ->
  (forall a b, In a records -> In b records -> P a = true -> P b = true ->
               SEOAgent.compareRecords by_ a b = 0%Z) ->
  filter P (SEOAgent.applySort plan records) = filter P records.
Proof.
  intros Hby Htie. unfold SEOAgent.applySort. rewrite Hby.
  apply sort_stable. intros a b Ha Hb Pa Pb. rewrite (Htie a b Ha Hb Pa Pb). lia.
Qed.

(** On two string cells the comparator is the sign of the lexicographic
    comparison, inverted by [desc]. *)
Lemma compareRecords_strings (by_ : SortBy) (a b : Record) (s t : string) :
  record_get a (sort_column by_) = VPrim (PString s) ->
  record_get b (sort_column by_) = VPrim (PString t) ->
  SEOAgent.compareRecords by_ a b
  = (let comparison :=
       match String.compare s t with Lt => -1 | Eq => 0 | Gt => 1 end in
     if desc by_ then - comparison else comparison)%Z.
Proof.
  intros Ha Hb. unfold SEOAgent.compareRecords, js_gt, js_lt.
  rewrite Ha, Hb. cbn [ToPrimitive]. unfold string_lt.
  rewrite (String.compare_antisym t s).
  now destruct (String.compare s t), (desc by_).
Qed.

Lemma compare_Lt_trans (s t u : string) :
  String.compare s t = Lt -> String.compare t u = Lt -> String.compare s u = Lt.
Proof.
  intros Hst Htu. apply String_as_OT.cmp_lt in Hst, Htu.
  now apply String_as_OT.cmp_lt, (String_as_OT.lt_trans _ _ _ Hst Htu).
Qed.

Lemma compare_Gt_trans (s t u : string) :
  String.compare s t = Gt -> String.compare t u = Gt -> String.compare s u = Gt.
Proof.
  intros Hst Htu.
  rewrite String.compare_antisym in Hst, Htu |- *.
  destruct (String.compare t s) eqn:E1; try discriminate.
  destruct (String.compare u t) eqn:E2; try discriminate.
  now rewrite (compare_Lt_trans u t s E2 E1).
Qed.

Lemma compare_refl (s : string) : String.compare s s = Eq.
Proof. now apply String_as_OT.cmp_eq. Qed.

(** When every record holds a string in the sort column, the comparator is
    consistent. *)
Lemma string_cells_consistent (by_ : SortBy) (records : list Record) :
  Forall (string_cell (sort_column by_)) records ->
  consistent (SEOAgent.compareRecords by_) records.
Proof.
  intros Hcells. rewrite Forall_forall in Hcells.
  repeat split.
  - intros a Ha. destruct (Hcells a Ha) as [s Hs].
    rewrite (compareRecords_strings by_ a a s s Hs Hs), compare_refl.
    now destruct (desc by_).
  - intros a b Ha Hb. destruct (Hcells a Ha) as [s Hs], (Hcells b Hb) as [t Ht].
    rewrite (compareRecords_strings by_ a b s t Hs Ht),
            (compareRecords_strings by_ b a t s Ht Hs).
    rewrite (String.compare_antisym s t). cbv zeta.
    destruct (String.compare t s), (desc by_); simpl; lia.
  - intros a b c Ha Hb Hc.
    destruct (Hcells a Ha) as [s Hs], (Hcells b Hb) as [t Ht],
             (Hcells c Hc) as [u Hu].
    rewrite (compareRecords_strings by_ a b s t Hs Ht),
            (compareRecords_strings by_ b c t u Ht Hu),
            (compareRecords_strings by_ a c s u Hs Hu). cbv zeta.
    destruct (String.compare s t) eqn:E1; [|destruct (desc by_); lia..].
    apply String.compare_eq_iff in E1. subst t. tauto.
  - intros a b c Ha Hb Hc.
    destruct (Hcells a Ha) as [s Hs], (Hcells b Hb) as [t Ht],
             (Hcells c Hc) as [u Hu].
    rewrite (compareRecords_strings by_ a b s t Hs Ht),
            (compareRecords_strings by_ b c t u Ht Hu),
            (compareRecords_strings by_ a c s u Hs Hu). cbv zeta.
    destruct (String.compare s t) eqn:E1, (String.compare t u) eqn:E2,
             (desc by_); try lia; intros _ _.
    + now rewrite (compare_Lt_trans s t u E1 E2).
    + now rewrite (compare_Gt_trans s t u E1 E2).
  - intros a b c Ha Hb Hc.
    destruct (Hcells a Ha) as [s Hs], (Hcells b Hb) as [t Ht],
             (Hcells c Hc) as [u Hu].
    rewrite (compareRecords_strings by_ a b s t Hs Ht),
            (compareRecords_strings by_ b c t u Ht Hu),
            (compareRecords_strings by_ a c s u Hs Hu). cbv zeta.
    destruct (String.compare s t) eqn:E1, (String.compare t u) eqn:E2,
             (desc by_); try lia; intros _ _.
    + now rewrite (compare_Lt_trans s t u E1 E2).
    + now rewrite (compare_Gt_trans s t u E1 E2).
Qed.


Lemma firstn_min {A : Type} (n : nat) (l : list A) :
  firstn (Nat.min n (length l)) l = firstn n l.
Proof.
  destruct (Nat.le_ge_cases n (length l)) as [H|H].
  - now rewrite Nat.min_l.
  - rewrite Nat.min_r by exact H. now rewrite firstn_all, firstn_all2.
Qed.

Lemma slice0_firstn {A : Type} (l : list A) (n : number) (N : Z) :
  ToIntegerOrInfinity n = Finite N -> (0 <= N)%Z ->
  slice0 l n = firstn (Z.to_nat N) l.
Proof.
  intros HN Hpos. unfold slice0. rewrite HN.
  destruct (N <? 0)%Z eqn:E; [apply Z.ltb_lt in E; lia|].
  rewrite Z2Nat.inj_min, Nat2Z.id. apply firstn_min.
Qed.

Lemma execute_stages (data : list Row) (plan : DataPlan) (grouped : list Record) :
  SEOAgent.applyGroup plan (SEOAgent.applyFilters plan data) = Returned grouped ->
  SEOAgent.executeDataOperations data plan
  = Returned
      {| Schema.plan := plan;
         resultCount :=
           length (SEOAgent.applyLimit plan (SEOAgent.applySort plan grouped));
         results := SEOAgent.applyLimit plan (SEOAgent.applySort plan grouped) |}.
Proof. intros H. unfold SEOAgent.executeDataOperations. now rewrite H. Qed.


End SortAndLimit.





(* ================================================================== *)
(** ** The monad of effects *)
(* ================================================================== *)

Section Effects.
Import Js Schema Spec.
Context {Num : JsNumber}.

Lemma bind_run {A B : Type} (m : M A) (k : A -> M B) (w : World) :
  bind m k w
  = match m w with
    | (t, Returned a) => (t ++ trace (k a w), result (k a w))
    | (t, Thrown e) => (t, Thrown e)
    end.
Proof.
  unfold bind, trace, result. destruct (m w) as [t [a|e]]; [|reflexivity].
  now destruct (k a w).
Qed.

Lemma try_catch_run {A : Type} (body : M A) (handler : exn -> M A) (w : World) :
  try_catch body handler w
  = match body w with
    | (t, Returned a) => (t, Returned a)
    | (t, Thrown e) => (t ++ trace (handler e w), result (handler e w))
    end.
Proof.
  unfold try_catch, trace, result. destruct (body w) as [t [a|e]]; [reflexivity|].
  now destruct (handler e w).
Qed.

Lemma bind_returned {A B : Type} (m : M A) (k : A -> M B) (w : World) t a :
  m w = (t, Returned a) ->
  bind m k w = (t ++ trace (k a w), result (k a w)).
Proof. intros H. now rewrite bind_run, H. Qed.

Lemma bind_thrown {A B : Type} (m : M A) (k : A -> M B) (w : World) t e :
  m w = (t, Thrown e) -> bind m k w = (t, Thrown e).
Proof. intros H. now rewrite bind_run, H. Qed.

Lemma surjective_run {A : Type} (x : list event * outcome A) :
  x = (trace x, result x).
Proof. now destruct x. Qed.

Section Only.
Variable P : event -> bool.

Lemma only_ret {A} (a : A) : only P (ret a).
Proof. intros w; reflexivity. Qed.

Lemma only_throw {A} (e : exn) : only P (@throw _ A e).
Proof. intros w; reflexivity. Qed.

Lemma only_ask : only P ask.
Proof. intros w; reflexivity. Qed.

Lemma only_settle {A} (o : outcome A) : only P (settle o).
Proof. intros w; reflexivity. Qed.

Lemma only_emit (e : event) : P e = true -> only P (emit e).
Proof. intros H w; simpl. now rewrite H. Qed.

Lemma only_bind {A B} (m : M A) (k : A -> M B) :
  only P m -> (forall a, only P (k a)) -> only P (bind m k).
Proof.
  intros Hm Hk w. rewrite bind_run. specialize (Hm w).
  destruct (m w) as [t [a|e]]; simpl in *; [|exact Hm].
  rewrite forallb_app, Hm. apply Hk.
Qed.

Lemma only_try_catch {A} (body : M A) (handler : exn -> M A) :
  only P body -> (forall e, only P (handler e)) -> only P (try_catch body handler).
Proof.
  intros Hm Hk w. rewrite try_catch_run. specialize (Hm w).
  destruct (body w) as [t [a|e]]; simpl in *; [exact Hm|].
  rewrite forallb_app, Hm. apply Hk.
Qed.
End Only.

Lemma only_weaken {A} (P Q : event -> bool) (m : M A) :
  (forall e, P e = true -> Q e = true) -> only P m -> only Q m.
Proof.
  intros HPQ Hm w. specialize (Hm w).
  rewrite forallb_forall in *. auto.
Qed.

Lemma calls_runReport_zero (t : list event) :
  forallb not_runReport t = true -> calls_runReport t = 0.
Proof.
  unfold calls_runReport, not_runReport.
  induction t as [|e t IH]; simpl; [reflexivity|].
  destruct (is_runReport e); simpl; [discriminate | exact IH].
Qed.

Lemma calls_runReport_app (t t' : list event) :
  calls_runReport (t ++ t') = calls_runReport t + calls_runReport t'.
Proof. unfold calls_runReport. now rewrite filter_app, length_app. Qed.

End Effects.

Ltac only_step :=
  first [ apply only_ret | apply only_throw | apply only_ask | apply only_settle
        | apply only_emit; reflexivity
        | apply only_bind; [|intros ?]
        | apply only_try_catch; [|intros ?] ].

(* ================================================================== *)
(** ** The gateway *)
(* ================================================================== *)

Section GatewayFacts.
Import Js Schema Spec.
Context {Num : JsNumber}.

(** One iteration of the retry loop, by what the attempt amounts to. *)
Lemma attempts_step (request : LiteLLMRequest) (k attempt : nat)
      (lastError : option exn) (w : World) :
  Gateway.attempts request (S k) attempt lastError w
  = match attempt_outcome (fetch w request attempt) with
    | Content s => ([EvFetch request], Returned s)
    | RateLimited =>
        (EvFetch request :: EvSleep (Gateway.backoffTime attempt)
           :: trace (Gateway.attempts request k (S attempt) lastError w),
         result (Gateway.attempts request k (S attempt) lastError w))
    | Failed e =>
        (EvFetch request
           :: (if (attempt <? Gateway.MAX_RETRIES - 1)%nat
               then [EvSleep (Gateway.backoffTime attempt)] else [])
           ++ trace (Gateway.attempts request k (S attempt) (Some e) w),
         result (Gateway.attempts request k (S attempt) (Some e) w))
    end.
Proof.
  cbn [Gateway.attempts].
  unfold Gateway.attempt_body, Gateway.attempt_catch, attempt_outcome.
  destruct (fetch w request attempt) as [response|e] eqn:Hfetch;
    [ destruct (status response =? 429)%nat eqn:Hstatus;
      [ | destruct (negb (ok response)) eqn:Hok;
          [ destruct (text response) as [errorText|e] eqn:Htext
          | destruct (json response) as [data|e] eqn:Hjson ] ] | ];
    try destruct (attempt <? Gateway.MAX_RETRIES - 1)%nat eqn:Hlast;
    repeat (rewrite ?bind_run, ?try_catch_run;
            unfold emit, ask, settle, ret, throw;
            cbn [trace result fst snd app];
            rewrite ?Hfetch, ?Hstatus, ?Hok, ?Htext, ?Hjson, ?Hlast);
    reflexivity.
Qed.

End GatewayFacts.

Section GatewayTheorems.
Import Js Schema Spec.
Context {Num : JsNumber}.

Lemma attempts_only_gateway (request : LiteLLMRequest) (k attempt : nat)
      (lastError : option exn) :
  only is_gateway (Gateway.attempts request k attempt lastError).
Proof.
  revert attempt lastError; induction k as [|k IH]; intros attempt lastError w.
  - reflexivity.
  - rewrite attempts_step.
    destruct (attempt_outcome (fetch w request attempt)) as [s| |e];
      cbn [trace fst forallb is_gateway andb].
    + reflexivity.
    + apply IH.
    + rewrite forallb_app, (IH (S attempt) (Some e) w), andb_true_r.
      now destruct (attempt <? Gateway.MAX_RETRIES - 1)%nat.
Qed.

Lemma chat_only_gateway messages model options :
  only is_gateway (Gateway.chat messages model options).
Proof. apply attempts_only_gateway. Qed.

Lemma attempts_fetch_bound (request : LiteLLMRequest) (k attempt : nat)
      (lastError : option exn) (w : World) :
  calls_fetch (trace (Gateway.attempts request k attempt lastError w)) <= k.
Proof.
  revert attempt lastError; induction k as [|k IH]; intros attempt lastError.
  - cbn. lia.
  - rewrite attempts_step. unfold calls_fetch in *.
    destruct (attempt_outcome (fetch w request attempt)) as [s| |e];
      cbn [trace fst filter is_fetch length].
    + lia.
    + apply le_n_S, IH.
    + rewrite filter_app, length_app.
      specialize (IH (S attempt) (Some e)).
      destruct (attempt <? Gateway.MAX_RETRIES - 1)%nat; cbn; lia.
Qed.

(** X1.  The gateway never sends a request more than [MAX_RETRIES] = 3
    times, whatever the replies are. *)
Lemma chat_at_most_three_attempts messages model options (w : World) :
  calls_fetch (trace (Gateway.chat messages model options w)) <= 3.
Proof. apply attempts_fetch_bound. Qed.

(** X5.  When the last attempt throws and no earlier attempt produced a
    reply, the error raised carries the attempt count and that error's
    message. *)
Lemma chat_exhausted_last_error messages model options (w : World) (e : exn) :
  let request := Gateway.mkRequest messages model options in
  (forall s, attempt_outcome (fetch w request 0) <> Content s) ->
  (forall s, attempt_outcome (fetch w request 1) <> Content s) ->
  attempt_outcome (fetch w request 2) = Failed e ->
  result (Gateway.chat messages model options w)
  = Thrown (Error ("LiteLLM failed after 3 attempts: " ++ message e)).
Proof.
  intros request H0 H1 H2. unfold Gateway.chat, Gateway.MAX_RETRIES.
  fold request. rewrite attempts_step.
  destruct (attempt_outcome (fetch w request 0)) as [s| |e0];
    [now elim (H0 s) | |];
    cbn [result snd]; rewrite attempts_step;
    (destruct (attempt_outcome (fetch w request 1)) as [s| |e1];
     [now elim (H1 s) | |]);
    cbn [result snd]; rewrite attempts_step, H2; reflexivity.
Qed.

(** C6, the code on three rate-limit responses.  [chat] sends the request
    three times, waits 1 s, 2 s and 4 s, and raises; the message has the
    attempt count, and in place of an underlying error's message the text
    "undefined", because the rate-limit branch never records an error. *)
Theorem chat_rate_limited_three_times :
  forall messages model options (w : World),
    let request := Gateway.mkRequest messages model options in
    (forall attempt, attempt < 3 ->
       exists response,
         fetch w request attempt = Returned response /\ status response = 429) ->
    Gateway.chat messages model options w
    = ([ EvFetch request; EvSleep 1000; EvFetch request; EvSleep 2000;
         EvFetch request; EvSleep 4000 ],
       Thrown (Error "LiteLLM failed after 3 attempts: undefined")).
Proof.
  intros messages model options w request H429.
  assert (Hlimited : forall attempt, attempt < 3 ->
            attempt_outcome (fetch w request attempt) = RateLimited).
  { intros attempt Hlt. destruct (H429 attempt Hlt) as [response [-> Hs]].
    unfold attempt_outcome. now rewrite Hs. }
  unfold Gateway.chat, Gateway.MAX_RETRIES. fold request.
  rewrite attempts_step, (Hlimited 0) by lia.
  rewrite attempts_step, (Hlimited 1) by lia. cbn [trace result fst snd].
  rewrite attempts_step, (Hlimited 2) by lia. cbn [trace result fst snd].
  reflexivity.
Qed.

End GatewayTheorems.

Lemma chat_rate_limited_three_times_witness :
  Schema.result
    (Gateway.chat Sample.hello "gemini-2.5-flash" Sample.no_options
                  Sample.always_rate_limited)
  = Js.Thrown (Js.Error "LiteLLM failed after 3 attempts: undefined").
Proof.
  refine (f_equal snd
    (chat_rate_limited_three_times (Num := RefNumber.kernel)
       Sample.hello "gemini-2.5-flash" Sample.no_options
       Sample.always_rate_limited _)).
  intros attempt _. exists Sample.rate_limited. split; reflexivity.
Defined.

(* ================================================================== *)
(** ** The analytics agent *)
(* ================================================================== *)

Ltac run :=
  repeat (rewrite ?bind_run, ?try_catch_run;
          unfold Schema.emit, Schema.ask, Schema.settle, Schema.ret, Schema.throw;
          cbn [Schema.trace Schema.result fst snd app]).

Section AnalyticsFacts.
Import Js Schema Spec.
Context {Num : JsNumber}.

Lemma validate_each_invalid (valid : list string) (invalid : string -> exn)
      (fields : list string) :
  (exists field, In field fields /\ array_includes valid field = false) ->
  exists field, In field fields /\ array_includes valid field = false /\
                AnalyticsAgent.validate_each valid invalid fields
                = Thrown (invalid field).
Proof.
  induction fields as [|f fields IH]; intros [field [Hin Hbad]]; [contradiction|].
  simpl AnalyticsAgent.validate_each.
  destruct (array_includes valid f) eqn:Hf; simpl.
  - destruct Hin as [->|Hin]; [congruence|].
    destruct IH as [field' [Hin' [Hbad' Hthrow]]]; [now exists field|].
    exists field'. simpl. auto.
  - exists f. simpl. auto.
Qed.

Lemma validate_each_valid (valid : list string) (invalid : string -> exn)
      (fields : list string) :
  (forall field, In field fields -> array_includes valid field = true) ->
  AnalyticsAgent.validate_each valid invalid fields = Returned tt.
Proof.
  induction fields as [|f fields IH]; intros Hall; simpl; [reflexivity|].
  rewrite (Hall f (or_introl eq_refl)). simpl. apply IH.
  intros field Hin. apply Hall. now right.
Qed.

Lemma validate_each_cases (valid : list string) (invalid : string -> exn)
      (fields : list string) :
  AnalyticsAgent.validate_each valid invalid fields = Returned tt \/
  exists field, In field fields /\ array_includes valid field = false /\
                AnalyticsAgent.validate_each valid invalid fields
                = Thrown (invalid field).
Proof.
  induction fields as [|f fields IH]; simpl; [now left|].
  destruct (array_includes valid f) eqn:Hf; simpl.
  - destruct IH as [IH | [field [Hin [Hbad Hthrow]]]]; [now left|].
    right. exists field. auto.
  - right. exists f. auto.
Qed.

(** What [validateFields] throws, when a metric or a dimension is outside
    its list. *)
Lemma validateFields_invalid (plan : ReportingPlan) :
  (exists field,
      (In field (AnalyticsAgent.or_empty (metrics plan)) /\
       array_includes AnalyticsAgent.VALID_METRICS field = false) \/
      (In field (AnalyticsAgent.or_empty (dimensions plan)) /\
       array_includes AnalyticsAgent.VALID_DIMENSIONS field = false)) ->
  exists field,
    (In field (AnalyticsAgent.or_empty (metrics plan)) /\
     array_includes AnalyticsAgent.VALID_METRICS field = false /\
     AnalyticsAgent.validateFields plan
     = Thrown (Error ("Invalid metric: " ++ field ++ ". Must be one of: "
                      ++ join ", " AnalyticsAgent.VALID_METRICS))) \/
    (In field (AnalyticsAgent.or_empty (dimensions plan)) /\
     array_includes AnalyticsAgent.VALID_DIMENSIONS field = false /\
     AnalyticsAgent.validateFields plan
     = Thrown (Error ("Invalid dimension: " ++ field ++ ". Must be one of: "
                      ++ join ", " AnalyticsAgent.VALID_DIMENSIONS))).
Proof.
  intros Hbad. unfold AnalyticsAgent.validateFields.
  destruct (validate_each_cases AnalyticsAgent.VALID_METRICS
              AnalyticsAgent.invalid_metric
              (AnalyticsAgent.or_empty (metrics plan)))
    as [Hm | [field [Hin [Hinv Hthrow]]]].
  - rewrite Hm.
    destruct (validate_each_cases AnalyticsAgent.VALID_DIMENSIONS
                AnalyticsAgent.invalid_dimension
                (AnalyticsAgent.or_empty (dimensions plan)))
      as [Hd | [field [Hin [Hinv Hthrow]]]].
    + exfalso. destruct Hbad as [field [[Hin Hinv] | [Hin Hinv]]].
      * destruct (validate_each_invalid AnalyticsAgent.VALID_METRICS
                    AnalyticsAgent.invalid_metric
                    (AnalyticsAgent.or_empty (metrics plan)))
          as [f [_ [_ Habs]]]; [now exists field | congruence].
      * destruct (validate_each_invalid AnalyticsAgent.VALID_DIMENSIONS
                    AnalyticsAgent.invalid_dimension
                    (AnalyticsAgent.or_empty (dimensions plan)))
          as [f [_ [_ Habs]]]; [now exists field | congruence].
    + exists field. right. auto.
  - rewrite Hthrow. exists field. left. auto.
Qed.

Lemma inferReportingPlan_only_gateway (query : string) :
  only is_gateway (AnalyticsAgent.inferReportingPlan query).
Proof.
  unfold AnalyticsAgent.inferReportingPlan.
  apply only_bind; [apply chat_only_gateway | intros response].
  destruct (match_object response); repeat only_step.
Qed.

Lemma analytics_processQuery_run (q : AnalyticsAgent.AnalyticsQuery) (w : World) :
  AnalyticsAgent.processQuery q w
  = match AnalyticsAgent.processQuery_try q w with
    | (t, Returned r) => (t, Returned r)
    | (t, Thrown e) => (t, Returned (failed analytics_context (message e)))
    end.
Proof.
  unfold AnalyticsAgent.processQuery. rewrite try_catch_run.
  destruct (AnalyticsAgent.processQuery_try q w) as [t [r|e]]; [reflexivity|].
  cbn. now rewrite app_nil_r.
Qed.

Lemma analytics_try_inference_fails q w t e :
  AnalyticsAgent.inferReportingPlan (AnalyticsAgent.query q) w = (t, Thrown e) ->
  AnalyticsAgent.processQuery_try q w = (t, Thrown e).
Proof. intros H. unfold AnalyticsAgent.processQuery_try. run. now rewrite H. Qed.

Lemma analytics_try_validation_fails q w t plan e :
  AnalyticsAgent.inferReportingPlan (AnalyticsAgent.query q) w = (t, Returned plan) ->
  AnalyticsAgent.validateFields plan = Thrown e ->
  AnalyticsAgent.processQuery_try q w = (t, Thrown e).
Proof.
  intros H Hv. unfold AnalyticsAgent.processQuery_try. run. rewrite H. run.
  rewrite Hv. now rewrite app_nil_r.
Qed.

Lemma analytics_try_fetch_fails q w t plan e :
  AnalyticsAgent.inferReportingPlan (AnalyticsAgent.query q) w = (t, Returned plan) ->
  AnalyticsAgent.validateFields plan = Returned tt ->
  runReport w (AnalyticsAgent.mkGA4Request (AnalyticsAgent.propertyId q) plan)
  = Thrown e ->
  result (AnalyticsAgent.processQuery_try q w) = Thrown e.
Proof.
  intros H Hv Hr. unfold AnalyticsAgent.processQuery_try. run. rewrite H. run.
  rewrite Hv. run. unfold AnalyticsAgent.executeGA4Query. run. now rewrite Hr.
Qed.

Lemma analytics_try_explanation_fails q w t plan payload t' e :
  AnalyticsAgent.inferReportingPlan (AnalyticsAgent.query q) w = (t, Returned plan) ->
  AnalyticsAgent.validateFields plan = Returned tt ->
  runReport w (AnalyticsAgent.mkGA4Request (AnalyticsAgent.propertyId q) plan)
  = Returned payload ->
  AnalyticsAgent.generateExplanation (AnalyticsAgent.query q) plan payload w
  = (t', Thrown e) ->
  result (AnalyticsAgent.processQuery_try q w) = Thrown e.
Proof.
  intros H Hv Hr He. unfold AnalyticsAgent.processQuery_try. run. rewrite H. run.
  rewrite Hv. run. unfold AnalyticsAgent.executeGA4Query. run. rewrite Hr. run.
  now rewrite He.
Qed.

Lemma analytics_caught q w e :
  result (AnalyticsAgent.processQuery_try q w) = Thrown e ->
  result (AnalyticsAgent.processQuery q w)
  = Returned (failed analytics_context (message e)).
Proof.
  intros H. rewrite analytics_processQuery_run.
  destruct (AnalyticsAgent.processQuery_try q w) as [t [r|e']]; simpl in *;
    congruence.
Qed.

(** C1.  When the inferred plan names a metric outside [VALID_METRICS] or a
    dimension outside [VALID_DIMENSIONS], [validateFields] throws an error
    whose message names such a field and the permitted list, [processQuery]
    turns it into a failed result, and its trace has no call of [runReport]:
    the trace is that of the plan inference alone. *)
Theorem invalid_field_never_fetched :
  forall (w : World) (q : AnalyticsAgent.AnalyticsQuery) t (plan : ReportingPlan),
    AnalyticsAgent.inferReportingPlan (AnalyticsAgent.query q) w = (t, Returned plan) ->
    (exists field,
        (In field (AnalyticsAgent.or_empty (metrics plan)) /\
         array_includes AnalyticsAgent.VALID_METRICS field = false) \/
        (In field (AnalyticsAgent.or_empty (dimensions plan)) /\
         array_includes AnalyticsAgent.VALID_DIMENSIONS field = false)) ->
    exists field msg,
      ((In field (AnalyticsAgent.or_empty (metrics plan)) /\
        array_includes AnalyticsAgent.VALID_METRICS field = false /\
        msg = "Invalid metric: " ++ field ++ ". Must be one of: "
              ++ join ", " AnalyticsAgent.VALID_METRICS) \/
       (In field (AnalyticsAgent.or_empty (dimensions plan)) /\
        array_includes AnalyticsAgent.VALID_DIMENSIONS field = false /\
        msg = "Invalid dimension: " ++ field ++ ". Must be one of: "
              ++ join ", " AnalyticsAgent.VALID_DIMENSIONS))%string /\
      AnalyticsAgent.validateFields plan = Thrown (Error msg) /\
      AnalyticsAgent.processQuery q w
      = (t, Returned (failed analytics_context msg)) /\
      calls_runReport (trace (AnalyticsAgent.processQuery q w)) = 0.
Proof.
  intros w q t plan Hplan Hbad.
  assert (Hrun : forall msg,
             AnalyticsAgent.validateFields plan = Thrown (Error msg) ->
             AnalyticsAgent.processQuery q w
             = (t, Returned (failed analytics_context msg))).
  { intros msg Hv. rewrite analytics_processQuery_run.
    now rewrite (analytics_try_validation_fails q w t plan _ Hplan Hv). }
  assert (Hquiet : calls_runReport t = 0).
  { apply calls_runReport_zero.
    pose proof (only_weaken is_gateway not_runReport _
                  (fun e => match e with
                            | EvRunReport _ => fun H => H
                            | _ => fun _ => eq_refl
                            end)
                  (inferReportingPlan_only_gateway (AnalyticsAgent.query q)) w) as H.
    now rewrite Hplan in H. }
  destruct (validateFields_invalid plan Hbad)
    as [field [[Hin [Hinv Hthrow]] | [Hin [Hinv Hthrow]]]];
    exists field; eexists; (split; [|split; [exact Hthrow|]]).
  - left. repeat split; assumption.
  - rewrite (Hrun _ Hthrow). split; [reflexivity | exact Hquiet].
  - right. repeat split; assumption.
  - rewrite (Hrun _ Hthrow). split; [reflexivity | exact Hquiet].
Qed.

End AnalyticsFacts.

(* ================================================================== *)
(** ** The tabular agent *)
(* ================================================================== *)

Section SEOFacts.
Import Js Schema Spec.
Context {Num : JsNumber}.

Lemma gateway_not_runReport (e : event) :
  is_gateway e = true -> not_runReport e = true.
Proof. now destruct e. Qed.

Lemma chat_not_runReport messages model options :
  only not_runReport (Gateway.chat messages model options).
Proof.
  apply (only_weaken is_gateway); [exact gateway_not_runReport|].
  apply chat_only_gateway.
Qed.

Lemma seo_try_not_runReport (q : SEOAgent.SEOQuery) :
  only not_runReport (SEOAgent.processQuery_try q).
Proof.
  unfold SEOAgent.processQuery_try, SEOAgent.ensureInitialized.
  apply only_bind.
  { apply only_bind; [apply only_ask | intros w0].
    destruct (credentials_json w0); only_step. }
  intros _. apply only_bind; [only_step | intros w'].
  destruct (SEOAgent.or_string (SEOAgent.spreadsheetId q) (SEO_SPREADSHEET_ID w'))
    as [id|]; [|only_step].
  destruct (String.eqb id ""); [only_step|].
  apply only_bind.
  { unfold SEOAgent.loadSpreadsheetData. repeat only_step. }
  intros rows. apply only_bind.
  { unfold SEOAgent.inferDataPlan.
    apply only_bind; [apply chat_not_runReport | intros response].
    destruct (match_object response); repeat only_step. }
  intros plan. apply only_bind; [only_step | intros out].
  apply only_bind; [apply chat_not_runReport | intros explanation].
  only_step.
Qed.

Lemma seo_processQuery_not_runReport (q : SEOAgent.SEOQuery) :
  only not_runReport (SEOAgent.processQuery q).
Proof.
  apply only_try_catch; [apply seo_try_not_runReport | intros e; only_step].
Qed.

Lemma seo_processQuery_run (q : SEOAgent.SEOQuery) (w : World) :
  SEOAgent.processQuery q w
  = match SEOAgent.processQuery_try q w with
    | (t, Returned r) => (t, Returned r)
    | (t, Thrown e) => (t, Returned (failed seo_context (message e)))
    end.
Proof.
  unfold SEOAgent.processQuery. rewrite try_catch_run.
  destruct (SEOAgent.processQuery_try q w) as [t [r|e]]; [reflexivity|].
  cbn. now rewrite app_nil_r.
Qed.

Lemma seo_caught q w e :
  result (SEOAgent.processQuery_try q w) = Thrown e ->
  result (SEOAgent.processQuery q w) = Returned (failed seo_context (message e)).
Proof.
  intros H. rewrite seo_processQuery_run.
  destruct (SEOAgent.processQuery_try q w) as [t [r|e']]; simpl in *; congruence.
Qed.

Lemma seo_processQuery_returns q w :
  exists r, result (SEOAgent.processQuery q w) = Returned r.
Proof.
  rewrite seo_processQuery_run.
  destruct (SEOAgent.processQuery_try q w) as [t [r|e]]; simpl; eauto.
Qed.

Lemma seo_try_initialization_fails q w :
  credentials_json w = false ->
  result (SEOAgent.processQuery_try q w)
  = Thrown (Error
      "SEO Agent initialization failed. Ensure credentials.json exists at project root.").
Proof.
  intros H. unfold SEOAgent.processQuery_try, SEOAgent.ensureInitialized.
  run. rewrite H. reflexivity.
Qed.

Lemma seo_try_no_spreadsheet q w :
  credentials_json w = true ->
  (SEOAgent.or_string (SEOAgent.spreadsheetId q) (SEO_SPREADSHEET_ID w) = None \/
   SEOAgent.or_string (SEOAgent.spreadsheetId q) (SEO_SPREADSHEET_ID w) = Some "") ->
  result (SEOAgent.processQuery_try q w)
  = Thrown (Error
      "No spreadsheet ID provided. Set SEO_SPREADSHEET_ID or include in request.").
Proof.
  intros H Hid. unfold SEOAgent.processQuery_try, SEOAgent.ensureInitialized.
  run. rewrite H. run. destruct Hid as [-> | ->]; reflexivity.
Qed.

(** The steps of the [try] block once the spreadsheet is known. *)
Lemma seo_try_steps q w id :
  credentials_json w = true ->
  SEOAgent.or_string (SEOAgent.spreadsheetId q) (SEO_SPREADSHEET_ID w) = Some id ->
  id <> "" ->
  (forall t e,
      SEOAgent.loadSpreadsheetData id w = (t, Thrown e) ->
      result (SEOAgent.processQuery_try q w) = Thrown e) /\
  (forall t rows,
      SEOAgent.loadSpreadsheetData id w = (t, Returned rows) ->
      (forall t' e,
          SEOAgent.inferDataPlan (SEOAgent.query q) rows w = (t', Thrown e) ->
          result (SEOAgent.processQuery_try q w) = Thrown e) /\
      (forall t' plan,
          SEOAgent.inferDataPlan (SEOAgent.query q) rows w = (t', Returned plan) ->
          (forall e,
              SEOAgent.executeDataOperations rows plan = Thrown e ->
              result (SEOAgent.processQuery_try q w) = Thrown e) /\
          (forall out t'' e,
              SEOAgent.executeDataOperations rows plan = Returned out ->
              SEOAgent.generateExplanation (SEOAgent.query q) out w = (t'', Thrown e) ->
              result (SEOAgent.processQuery_try q w) = Thrown e))).
Proof.
  intros Hcred Hid Hne.
  assert (Hneb : String.eqb id "" = false) by now apply String.eqb_neq.
  unfold SEOAgent.processQuery_try, SEOAgent.ensureInitialized.
  run. rewrite Hcred. run. rewrite Hid, Hneb.
  split.
  - intros t e Hload. run. now rewrite Hload.
  - intros t rows Hload. run. rewrite Hload. run. split.
    + intros t' e Hplan. now rewrite Hplan.
    + intros t' plan Hplan. rewrite Hplan. run. split.
      * intros e Hexec. now rewrite Hexec.
      * intros out t'' e Hexec Hexpl. rewrite Hexec. run. now rewrite Hexpl.
Qed.

End SEOFacts.

(** C7.  No exception leaves an agent's [processQuery]: it always returns a
    result, and an error thrown by any step of its [try] block (plan
    inference, validation, fetch, initialization, table load, execution,
    explanation) comes back as the result with [success] false, the context
    message followed by the error's message as [explanation], and the
    error's message as [error]. *)
Theorem agents_never_throw :
  forall {Num : Js.JsNumber} (w : Schema.World),
    (* the analytics agent *)
    (forall q, exists r, Schema.result (AnalyticsAgent.processQuery q w) = Js.Returned r) /\
    (forall q e,
        Schema.result (AnalyticsAgent.processQuery_try q w) = Js.Thrown e ->
        Schema.result (AnalyticsAgent.processQuery q w)
        = Js.Returned (Spec.failed Spec.analytics_context (Js.message e))) /\
    (forall q t e,
        AnalyticsAgent.inferReportingPlan (AnalyticsAgent.query q) w = (t, Js.Thrown e) ->
        Schema.result (AnalyticsAgent.processQuery q w)
        = Js.Returned (Spec.failed Spec.analytics_context (Js.message e))) /\
    (forall q t plan,
        AnalyticsAgent.inferReportingPlan (AnalyticsAgent.query q) w
        = (t, Js.Returned plan) ->
        (forall e,
            AnalyticsAgent.validateFields plan = Js.Thrown e ->
            Schema.result (AnalyticsAgent.processQuery q w)
            = Js.Returned (Spec.failed Spec.analytics_context (Js.message e))) /\
        (AnalyticsAgent.validateFields plan = Js.Returned tt ->
         (forall e,
             Schema.runReport w
               (AnalyticsAgent.mkGA4Request (AnalyticsAgent.propertyId q) plan)
             = Js.Thrown e ->
             Schema.result (AnalyticsAgent.processQuery q w)
             = Js.Returned (Spec.failed Spec.analytics_context (Js.message e))) /\
         (forall payload t' e,
             Schema.runReport w
               (AnalyticsAgent.mkGA4Request (AnalyticsAgent.propertyId q) plan)
             = Js.Returned payload ->
             AnalyticsAgent.generateExplanation (AnalyticsAgent.query q) plan payload w
             = (t', Js.Thrown e) ->
             Schema.result (AnalyticsAgent.processQuery q w)
             = Js.Returned (Spec.failed Spec.analytics_context (Js.message e))))) /\
    (* the tabular agent *)
    (forall q, exists r, Schema.result (SEOAgent.processQuery q w) = Js.Returned r) /\
    (forall q e,
        Schema.result (SEOAgent.processQuery_try q w) = Js.Thrown e ->
        Schema.result (SEOAgent.processQuery q w)
        = Js.Returned (Spec.failed Spec.seo_context (Js.message e))) /\
    (forall q,
        Schema.credentials_json w = false ->
        Schema.result (SEOAgent.processQuery q w)
        = Js.Returned (Spec.failed Spec.seo_context
            "SEO Agent initialization failed. Ensure credentials.json exists at project root.")) /\
    (forall q,
        Schema.credentials_json w = true ->
        SEOAgent.or_string (SEOAgent.spreadsheetId q) (Schema.SEO_SPREADSHEET_ID w) = None ->
        Schema.result (SEOAgent.processQuery q w)
        = Js.Returned (Spec.failed Spec.seo_context
            "No spreadsheet ID provided. Set SEO_SPREADSHEET_ID or include in request.")) /\
    (forall q id,
        Schema.credentials_json w = true ->
        SEOAgent.or_string (SEOAgent.spreadsheetId q) (Schema.SEO_SPREADSHEET_ID w)
        = Some id ->
        id <> ""%string ->
        (forall t e,
            SEOAgent.loadSpreadsheetData id w = (t, Js.Thrown e) ->
            Schema.result (SEOAgent.processQuery q w)
            = Js.Returned (Spec.failed Spec.seo_context (Js.message e))) /\
        (forall t rows,
            SEOAgent.loadSpreadsheetData id w = (t, Js.Returned rows) ->
            (forall t' e,
                SEOAgent.inferDataPlan (SEOAgent.query q) rows w = (t', Js.Thrown e) ->
                Schema.result (SEOAgent.processQuery q w)
                = Js.Returned (Spec.failed Spec.seo_context (Js.message e))) /\
            (forall t' plan,
                SEOAgent.inferDataPlan (SEOAgent.query q) rows w
                = (t', Js.Returned plan) ->
                (forall e,
                    SEOAgent.executeDataOperations rows plan = Js.Thrown e ->
                    Schema.result (SEOAgent.processQuery q w)
                    = Js.Returned (Spec.failed Spec.seo_context (Js.message e))) /\
                (forall out t'' e,
                    SEOAgent.executeDataOperations rows plan = Js.Returned out ->
                    SEOAgent.generateExplanation (SEOAgent.query q) out w
                    = (t'', Js.Thrown e) ->
                    Schema.result (SEOAgent.processQuery q w)
                    = Js.Returned (Spec.failed Spec.seo_context (Js.message e)))))).
Proof.
  intros Num w.
  split; [|split; [|split; [|split; [|split; [|split; [|split; [|split]]]]]]].
  - intros q. rewrite analytics_processQuery_run.
    destruct (AnalyticsAgent.processQuery_try q w) as [t [r|e]]; simpl; eauto.
  - intros q e. apply analytics_caught.
  - intros q t e H. apply analytics_caught.
    now rewrite (analytics_try_inference_fails q w t e H).
  - intros q t plan Hplan. split; [|intros Hvalid; split].
    + intros e Hv. apply analytics_caught.
      now rewrite (analytics_try_validation_fails q w t plan e Hplan Hv).
    + intros e Hr. apply analytics_caught.
      exact (analytics_try_fetch_fails q w t plan e Hplan Hvalid Hr).
    + intros payload t' e Hr He. apply analytics_caught.
      exact (analytics_try_explanation_fails q w t plan payload t' e Hplan Hvalid Hr He).
  - intros q. apply seo_processQuery_returns.
  - intros q e. apply seo_caught.
  - intros q Hcred. apply (seo_caught q w (Js.Error _)).
    now apply seo_try_initialization_fails.
  - intros q Hcred Hid. apply (seo_caught q w (Js.Error _)).
    apply seo_try_no_spreadsheet; auto.
  - intros q id Hcred Hid Hne.
    destruct (seo_try_steps q w id Hcred Hid Hne) as [Hload Hrest].
    split.
    + intros t e H. apply seo_caught. exact (Hload t e H).
    + intros t rows H. destruct (Hrest t rows H) as [Hplan Hrest'].
      split.
      * intros t' e H'. apply seo_caught. exact (Hplan t' e H').
      * intros t' plan H'. destruct (Hrest' t' plan H') as [Hexec Hexpl].
        split.
        -- intros e He. apply seo_caught. exact (Hexec e He).
        -- intros out t'' e Ho He. apply seo_caught. exact (Hexpl out t'' e Ho He).
Qed.

(* ================================================================== *)
(** ** The orchestrator *)
(* ================================================================== *)

Section OrchestratorFacts.
Import Js Schema Spec.
Context {Num : JsNumber}.

Lemma chat_first_fetch messages model options (w : World) :
  exists t,
    trace (Gateway.chat messages model options w)
    = EvFetch (Gateway.mkRequest messages model options) :: t.
Proof.
  unfold Gateway.chat, Gateway.MAX_RETRIES. rewrite attempts_step.
  destruct (attempt_outcome _); cbn [trace fst]; eauto.
Qed.

Lemma detectIntent_run (query : string) (propertyId : option string) (w : World) :
  Orchestrator.detectIntent query propertyId w
  = match Gateway.chat (intent_messages query propertyId) "gemini-2.5-flash"
                       classifier_options w with
    | (t, Returned reply) =>
        (t, Returned
              (if array_includes ["analytics"; "seo"; "both"] (toLowerCase (trim reply))
               then toLowerCase (trim reply)
               else fallback_intent query propertyId))
    | (t, Thrown e) => (t, Thrown e)
    end.
Proof.
  unfold Orchestrator.detectIntent. rewrite bind_run.
  fold (intent_messages query propertyId). fold classifier_options.
  destruct (Gateway.chat (intent_messages query propertyId) "gemini-2.5-flash"
                         classifier_options w) as [t [reply|e]]; [|reflexivity].
  unfold fallback_intent. cbn [existsb]. rewrite orb_false_r, orb_assoc.
  destruct (array_includes ["analytics"; "seo"; "both"] (toLowerCase (trim reply)));
    cbn [negb].
  - cbn. now rewrite app_nil_r.
  - destruct (Orchestrator.truthy propertyId); [cbn; now rewrite app_nil_r|].
    destruct (includes (toLowerCase query) "seo" || includes (toLowerCase query) "title"
              || includes (toLowerCase query) "meta")%bool;
      cbn; now rewrite app_nil_r.
Qed.

(** C3.  When the classifier's reply, trimmed and lower-cased, is none of
    "analytics", "seo", "both", [detectIntent] returns: "analytics" if the
    propertyId is present, whatever the question; otherwise "seo" if the
    lower-cased question contains "seo", "title" or "meta"; otherwise
    "analytics".  It returns and does not throw. *)
Theorem classifier_fallback :
  forall (w : World) (query : string) (propertyId : option string) t (reply : string),
    Gateway.chat (intent_messages query propertyId) "gemini-2.5-flash"
                 classifier_options w = (t, Returned reply) ->
    array_includes ["analytics"; "seo"; "both"] (toLowerCase (trim reply)) = false ->
    Orchestrator.detectIntent query propertyId w
    = (t, Returned
            (if Orchestrator.truthy propertyId then "analytics"
             else if includes (toLowerCase query) "seo"
                     || includes (toLowerCase query) "title"
                     || includes (toLowerCase query) "meta"
                  then "seo"
                  else "analytics")).
Proof.
  intros w query propertyId t reply Hchat Hlabel.
  rewrite detectIntent_run, Hchat, Hlabel.
  unfold fallback_intent. cbn [existsb]. now rewrite orb_false_r, orb_assoc.
Qed.

Lemma routeToBoth_without_propertyId (request : Orchestrator.QueryRequest) (w : World) :
  Orchestrator.truthy (Orchestrator.propertyId request) = false ->
  Orchestrator.routeToBoth request w
  = match SEOAgent.processQuery (seo_query request) w with
    | (t, Returned seoResult) =>
        match Orchestrator.aggregateResponses (Orchestrator.query request)
                Orchestrator.missing_propertyId seoResult w with
        | (t', Returned text) =>
            (t ++ t',
             Returned {| Orchestrator.success := false;
                         Orchestrator.response := text;
                         Orchestrator.data :=
                           Some (Orchestrator.BothData None (data seoResult));
                         Orchestrator.metadata := None;
                         Orchestrator.error := None |})
        | (t', Thrown e) => (t ++ t', Thrown e)
        end
    | (t, Thrown e) => (t, Thrown e)
    end.
Proof.
  intros Hid. unfold Orchestrator.routeToBoth. rewrite bind_run.
  fold (seo_query request).
  assert (Hleft :
            (match Orchestrator.propertyId request with
             | Some id =>
                 if String.eqb id "" then ret Orchestrator.missing_propertyId
                 else AnalyticsAgent.processQuery
                        {| AnalyticsAgent.propertyId := id;
                           AnalyticsAgent.query := Orchestrator.query request |}
             | None => ret Orchestrator.missing_propertyId
             end) = ret Orchestrator.missing_propertyId).
  { unfold Orchestrator.truthy in Hid.
    destruct (Orchestrator.propertyId request) as [id|]; [|reflexivity].
    now destruct (String.eqb id ""). }
  rewrite Hleft. unfold Orchestrator.Promise_all, ret at 1 2.
  destruct (SEOAgent.processQuery (seo_query request) w) as [t [seoResult|e]];
    cbn [app]; [|reflexivity].
  cbv beta iota. rewrite !bind_run.
  destruct (Orchestrator.aggregateResponses (Orchestrator.query request)
              Orchestrator.missing_propertyId seoResult w) as [t' [text|e]];
    [|reflexivity].
  unfold ret. cbn [trace result fst snd Schema.success Orchestrator.missing_propertyId andb].
  now rewrite app_nil_r.
Qed.

(** C2, as the code has it.  Without a propertyId, [routeToBoth] runs the
    tabular agent and then the aggregation on the locally built failed
    analytics result and the tabular agent's result; its trace is theirs, so
    the analytics agent is not called and the aggregation request is sent.
    When the aggregation returns a text, that text (empty or not) is the
    response and success, the conjunction of the two agents' success, is
    false; when the aggregation throws, [routeToBoth] throws. *)
Theorem both_without_propertyId :
  forall (w : World) (request : Orchestrator.QueryRequest),
    Orchestrator.truthy (Orchestrator.propertyId request) = false ->
    exists seoResult : SEOResponse,
      let analyticsResult : AnalyticsResponse :=
        {| success := false; data := None;
           explanation := "No propertyId provided";
           error := Some "Missing propertyId" |} in
      let aggregation :=
        Orchestrator.aggregateResponses (Orchestrator.query request)
                                        analyticsResult seoResult w in
      result (SEOAgent.processQuery (seo_query request) w) = Returned seoResult /\
      trace (Orchestrator.routeToBoth request w)
      = trace (SEOAgent.processQuery (seo_query request) w) ++ trace aggregation /\
      calls_runReport (trace (Orchestrator.routeToBoth request w)) = 0 /\
      In (EvFetch (aggregation_request (Orchestrator.query request)
                                       analyticsResult seoResult))
         (trace (Orchestrator.routeToBoth request w)) /\
      (forall text,
          result aggregation = Returned text ->
          result (Orchestrator.routeToBoth request w)
          = Returned {| Orchestrator.success :=
                          success analyticsResult && success seoResult;
                        Orchestrator.response := text;
                        Orchestrator.data :=
                          Some (Orchestrator.BothData None (data seoResult));
                        Orchestrator.metadata := None;
                        Orchestrator.error := None |} /\
          success analyticsResult && success seoResult = false) /\
      (forall e,
          result aggregation = Thrown e ->
          result (Orchestrator.routeToBoth request w) = Thrown e).
Proof.
  intros w request Hid.
  destruct (seo_processQuery_returns (seo_query request) w) as [seoResult Hseo].
  exists seoResult. intros analyticsResult aggregation.
  change analyticsResult with Orchestrator.missing_propertyId in *.
  pose proof (routeToBoth_without_propertyId request w Hid) as Hrun.
  pose proof (seo_processQuery_not_runReport (seo_query request) w) as Hquiet.
  destruct (SEOAgent.processQuery (seo_query request) w) as [t r] eqn:Hq.
  cbn [result snd] in Hseo. subst r. cbn [trace fst] in Hquiet.
  fold aggregation in Hrun.
  pose proof (chat_not_runReport
                [ {| role := system;
                     content := Text "You are a comprehensive data analyst." |};
                  {| role := user;
                     content := AggregationPrompt (Orchestrator.query request)
                                  (explanation Orchestrator.missing_propertyId)
                                  (explanation seoResult) |} ]
                "gemini-2.5-flash"
                {| Gateway.opt_temperature := Some 7%N; Gateway.maxTokens := None |}
                w) as Hagg.
  destruct (chat_first_fetch
                [ {| role := system;
                     content := Text "You are a comprehensive data analyst." |};
                  {| role := user;
                     content := AggregationPrompt (Orchestrator.query request)
                                  (explanation Orchestrator.missing_propertyId)
                                  (explanation seoResult) |} ]
                "gemini-2.5-flash"
                {| Gateway.opt_temperature := Some 7%N; Gateway.maxTokens := None |}
                w) as [rest Hfirst].
  change (Gateway.chat _ _ _ w) with aggregation in Hagg, Hfirst.
  change (Gateway.mkRequest _ _ _)
    with (aggregation_request (Orchestrator.query request)
                              Orchestrator.missing_propertyId seoResult) in Hfirst.
  assert (Htrace : trace (Orchestrator.routeToBoth request w) = t ++ trace aggregation).
  { rewrite Hrun. now destruct aggregation as [t' [text|e]]. }
  split; [reflexivity|].
  split; [exact Htrace|].
  split; [|split; [|split]].
  - rewrite Htrace, calls_runReport_app.
    now rewrite (calls_runReport_zero _ Hquiet), (calls_runReport_zero _ Hagg).
  - rewrite Htrace, Hfirst. apply in_or_app. right. now left.
  - intros text Htext. rewrite Hrun.
    destruct aggregation as [t' [text'|e]]; cbn in Htext; [|discriminate].
    inversion Htext; subst text'. split; reflexivity.
  - intros e He. rewrite Hrun.
    destruct aggregation as [t' [text'|e']]; cbn in He; [discriminate|].
    now inversion He.
Qed.

(** The orchestrator's own [processQuery] returns on every path. *)
Lemma orchestrator_processQuery_returns (request : Orchestrator.QueryRequest) (w : World) :
  exists r, result (Orchestrator.processQuery request w) = Returned r.
Proof.
  unfold Orchestrator.processQuery. rewrite try_catch_run.
  destruct (Orchestrator.processQuery_try request w) as [t [r|e]]; cbn; eauto.
Qed.

End OrchestratorFacts.


Lemma classifier_fallback_witness :
  Schema.result
    (Orchestrator.detectIntent "Check my meta descriptions" None Sample.chatty)
  = Js.Returned "seo"%string.
Proof.
  exact (f_equal snd
    (classifier_fallback (Num := RefNumber.kernel) Sample.chatty
       "Check my meta descriptions" None
       [Schema.EvFetch
          (Gateway.mkRequest (Spec.intent_messages "Check my meta descriptions" None)
                             "gemini-2.5-flash" Spec.classifier_options)]
       "This looks like an analytics question." eq_refl eq_refl)).
Defined.

Lemma both_without_propertyId_witness :
  Spec.calls_runReport
    (Schema.trace (Orchestrator.routeToBoth Sample.pages_and_titles
                                            Sample.both_then_empty)) = 0.
Proof.
  destruct (both_without_propertyId (Num := RefNumber.kernel)
              Sample.both_then_empty Sample.pages_and_titles eq_refl)
    as [seoResult [_ [_ [H _]]]].
  exact H.
Defined.

(** C2 as stated fails: the gateway may answer the aggregation request with
    no content, and the response text is then empty. *)
Lemma both_without_propertyId_empty_response :
  Schema.result (Orchestrator.processQuery Sample.pages_and_titles Sample.both_then_empty)
  = Js.Returned
      {| Orchestrator.success := false;
         Orchestrator.response := "";
         Orchestrator.data :=
           Some (Orchestrator.BothData None None);
         Orchestrator.metadata :=
           Some {| Orchestrator.intent := "both";
                   Orchestrator.agentsUsed := ["analytics"; "seo"] |};
         Orchestrator.error := None |} /\
  ~ Spec.both_without_propertyId_answers (Num := RefNumber.kernel).
Proof.
  split; [reflexivity|].
  intros H.
  destruct (H Sample.both_then_empty Sample.pages_and_titles eq_refl)
    as [r [Hr [_ Hne]]].
  apply Hne.
  change (Js.Returned
            {| Orchestrator.success := false;
               Orchestrator.response := "";
               Orchestrator.data := Some (Orchestrator.BothData None None);
               Orchestrator.metadata := None;
               Orchestrator.error := None |} = Js.Returned r) in Hr.
  now inversion Hr.
Qed.

Lemma invalid_field_never_fetched_witness :
  AnalyticsAgent.validateFields Sample.invented_plan
  = Js.Thrown (AnalyticsAgent.invalid_metric "pageviews") /\
  Spec.calls_runReport
    (Schema.trace (AnalyticsAgent.processQuery Sample.top_pages Sample.inventive)) = 0.
Proof.
  split; [reflexivity|].
  destruct (invalid_field_never_fetched (Num := RefNumber.kernel)
              Sample.inventive Sample.top_pages
              (Schema.trace
                 (AnalyticsAgent.inferReportingPlan
                    (AnalyticsAgent.query Sample.top_pages) Sample.inventive))
              Sample.invented_plan eq_refl
              (ex_intro _ "pageviews"%string
                 (or_introl (conj (or_intror (or_introl eq_refl)) eq_refl))))
    as [field [msg [_ [_ [_ H]]]]].
  exact H.
Defined.

(* ================================================================== *)
(** ** More on the gateway *)
(* ================================================================== *)

Section GatewayRetries.
Import Js Schema Spec Measure.
Context {Num : JsNumber}.

Lemma attempts_first_content (request : LiteLLMRequest) (w : World) (s : string) :
  forall (a k start : nat) (lastError : option exn),
    a < k ->
    (forall b, b < a ->
       forall s', attempt_outcome (fetch w request (start + b)) <> Content s') ->
    attempt_outcome (fetch w request (start + a)) = Content s ->
    result (Gateway.attempts request k start lastError w) = Returned s /\
    calls_fetch (trace (Gateway.attempts request k start lastError w)) = S a.
Proof.
  induction a as [|a IH]; intros k start lastError Hlt Hbefore Hhit.
  - destruct k as [|k]; [lia|]. rewrite attempts_step.
    rewrite Nat.add_0_r in Hhit. rewrite Hhit. split; reflexivity.
  - destruct k as [|k]; [lia|]. rewrite attempts_step.
    pose proof (Hbefore 0 (Nat.lt_0_succ a)) as Hfirst.
    rewrite Nat.add_0_r in Hfirst.
    assert (Hnext : forall lastError',
               result (Gateway.attempts request k (S start) lastError' w) = Returned s /\
               calls_fetch (trace (Gateway.attempts request k (S start) lastError' w))
               = S a).
    { intros lastError'. apply IH; [lia| |].
      - intros b Hb s'. replace (S start + b) with (start + S b) by lia.
        apply Hbefore. lia.
      - replace (S start + a) with (start + S a) by lia. exact Hhit. }
    destruct (attempt_outcome (fetch w request start)) as [s'| |e].
    + now elim (Hfirst s').
    + destruct (Hnext lastError) as [Hr Hc]. cbn [trace result fst snd].
      split; [exact Hr|]. unfold calls_fetch in *. cbn. now rewrite Hc.
    + destruct (Hnext (Some e)) as [Hr Hc]. cbn [trace result fst snd].
      split; [exact Hr|]. unfold calls_fetch in *. cbn [filter is_fetch length].
      rewrite filter_app, length_app, Hc.
      destruct (start <? Gateway.MAX_RETRIES - 1)%nat; reflexivity.
Qed.

(** X2.  [chat] returns the content of the first attempt that gets an ok
    reply, and sends nothing after it: when attempt [a] (0, 1 or 2) is the
    first to produce a content, the result is that content and the request
    was sent [a + 1] times. *)
Theorem chat_returns_first_reply :
  forall messages model options (w : World) (a : nat) (s : string),
    let request := Gateway.mkRequest messages model options in
    a < 3 ->
    (forall b, b < a -> forall s', attempt_outcome (fetch w request b) <> Content s') ->
    attempt_outcome (fetch w request a) = Content s ->
    result (Gateway.chat messages model options w) = Returned s /\
    calls_fetch (trace (Gateway.chat messages model options w)) = S a.
Proof.
  intros messages model options w a s request Hlt Hbefore Hhit.
  exact (attempts_first_content request w s a 3 0 None Hlt Hbefore Hhit).
Qed.

Lemma attempts_thrown (request : LiteLLMRequest) (w : World) (e : exn) :
  forall (k start : nat) (lastError : option exn),
    result (Gateway.attempts request k start lastError w) = Thrown e ->
    calls_fetch (trace (Gateway.attempts request k start lastError w)) = k /\
    (exists lastError', e = Gateway.exhausted lastError') /\
    (forall b, b < k ->
       forall s, attempt_outcome (fetch w request (start + b)) <> Content s).
Proof.
  induction k as [|k IH]; intros start lastError Hthrown.
  - cbn in Hthrown. inversion Hthrown. split; [reflexivity|].
    split; [now exists lastError | intros b Hb; lia].
  - rewrite attempts_step in Hthrown |- *.
    destruct (attempt_outcome (fetch w request start)) as [s'| |e'] eqn:Hout;
      cbn [trace result fst snd] in *.
    + discriminate.
    + destruct (IH (S start) lastError Hthrown) as [Hc [Hex Hnone]].
      split; [|split].
      * unfold calls_fetch in *. cbn. now rewrite Hc.
      * exact Hex.
      * intros [|b] Hb s.
        -- rewrite Nat.add_0_r, Hout. discriminate.
        -- replace (start + S b) with (S start + b) by lia. apply Hnone. lia.
    + destruct (IH (S start) (Some e') Hthrown) as [Hc [Hex Hnone]].
      split; [|split].
      * unfold calls_fetch in *. cbn [filter is_fetch length].
        rewrite filter_app, length_app, Hc.
        destruct (start <? Gateway.MAX_RETRIES - 1)%nat; reflexivity.
      * exact Hex.
      * intros [|b] Hb s.
        -- rewrite Nat.add_0_r, Hout. discriminate.
        -- replace (start + S b) with (S start + b) by lia. apply Hnone. lia.
Qed.

(** X3.  [chat] gives up only after the third attempt: when it throws, the
    request was sent exactly three times, none of the three attempts
    produced a content, and the message starts with "LiteLLM failed after 3
    attempts: ". *)
Theorem chat_throws_only_when_exhausted :
  forall messages model options (w : World) (e : exn),
    result (Gateway.chat messages model options w) = Thrown e ->
    calls_fetch (trace (Gateway.chat messages model options w)) = 3 /\
    (exists cause, message e = "LiteLLM failed after 3 attempts: " ++ cause)%string /\
    (forall attempt, attempt < 3 ->
       forall s,
         attempt_outcome (fetch w (Gateway.mkRequest messages model options) attempt)
         <> Content s).
Proof.
  intros messages model options w e Hthrown.
  destruct (attempts_thrown _ w e 3 0 None Hthrown) as [Hc [[lastError ->] Hnone]].
  split; [exact Hc|]. split; [|exact Hnone].
  destruct lastError as [e'|]; [exists (message e') | exists "undefined"%string];
    reflexivity.
Qed.

Lemma attempts_sleep_bound (request : LiteLLMRequest) (w : World) :
  forall (k start : nat) (lastError : option exn),
    (total_sleep (trace (Gateway.attempts request k start lastError w))
     <= 1000 * 2 ^ N.of_nat start * (2 ^ N.of_nat k - 1))%N.
Proof.
  induction k as [|k IH]; intros start lastError.
  - cbn. lia.
  - rewrite attempts_step.
    assert (Hpow : (2 ^ N.of_nat (S k) = 2 * 2 ^ N.of_nat k)%N).
    { rewrite Nat2N.inj_succ. apply N.pow_succ_r'. }
    assert (Hpow' : (2 ^ N.of_nat (S start) = 2 * 2 ^ N.of_nat start)%N).
    { rewrite Nat2N.inj_succ. apply N.pow_succ_r'. }
    assert (Hk : (1 <= 2 ^ N.of_nat k)%N).
    { pose proof (N.pow_nonzero 2 (N.of_nat k)) as H.
      assert (2 <> 0)%N as H2 by discriminate. specialize (H H2). lia. }
    assert (Hstep : forall lastError',
               (total_sleep (trace (Gateway.attempts request k (S start) lastError' w))
                + Gateway.backoffTime start
                <= 1000 * 2 ^ N.of_nat start * (2 ^ N.of_nat (S k) - 1))%N).
    { intros lastError'. specialize (IH (S start) lastError').
      unfold Gateway.backoffTime, Gateway.INITIAL_BACKOFF.
      rewrite Hpow. rewrite Hpow' in IH. nia. }
    destruct (attempt_outcome (fetch w request start)) as [s'| |e'];
      cbn [trace fst total_sleep].
    + apply N.le_0_l.
    + specialize (Hstep lastError). lia.
    + specialize (Hstep (Some e')).
      destruct (start <? Gateway.MAX_RETRIES - 1)%nat; cbn [app total_sleep]; lia.
Qed.

(** X4.  One [chat] call never waits more than 7 seconds in all
    (1000 + 2000 + 4000 ms of back-off). *)
Theorem chat_backoff_at_most_seven_seconds :
  forall messages model options (w : World),
    (total_sleep (trace (Gateway.chat messages model options w)) <= 7000)%N.
Proof.
  intros messages model options w.
  exact (attempts_sleep_bound (Gateway.mkRequest messages model options) w 3 0 None).
Qed.

End GatewayRetries.

Lemma chat_returns_first_reply_witness :
  Schema.result (Gateway.chat Sample.hello "gemini-2.5-flash" Sample.no_options
                              Scenario.flaky)
  = Js.Returned "seo"%string /\
  Spec.calls_fetch
    (Schema.trace (Gateway.chat Sample.hello "gemini-2.5-flash" Sample.no_options
                                Scenario.flaky)) = 2.
Proof.
  refine (chat_returns_first_reply (Num := RefNumber.kernel)
            Sample.hello "gemini-2.5-flash" Sample.no_options Scenario.flaky
            1 "seo" _ _ eq_refl).
  - lia.
  - intros b Hb s'. assert (b = 0) as -> by lia. discriminate.
Defined.

Lemma chat_throws_only_when_exhausted_witness :
  Spec.calls_fetch
    (Schema.trace (Gateway.chat Sample.hello "gemini-2.5-flash" Sample.no_options
                                Scenario.offline)) = 3.
Proof.
  exact (proj1 (chat_throws_only_when_exhausted (Num := RefNumber.kernel)
                  Sample.hello "gemini-2.5-flash" Sample.no_options Scenario.offline
                  (Js.Error "LiteLLM failed after 3 attempts: fetch failed") eq_refl)).
Defined.

Lemma chat_exhausted_last_error_witness :
  Schema.result (Gateway.chat Sample.hello "gemini-2.5-flash" Sample.no_options
                              Scenario.offline)
  = Js.Thrown (Js.Error "LiteLLM failed after 3 attempts: fetch failed").
Proof.
  refine (chat_exhausted_last_error (Num := RefNumber.kernel)
            Sample.hello "gemini-2.5-flash" Sample.no_options Scenario.offline
            (Js.Error "fetch failed") _ _ eq_refl); intros s; discriminate.
Defined.

(* ================================================================== *)
(** ** More on the analytics agent *)
(* ================================================================== *)

Section AnalyticsPipeline.
Import Js Schema Spec Measure.
Context {Num : JsNumber}.

Lemma validateFields_accepts (plan : ReportingPlan) :
  AnalyticsAgent.validateFields plan = Returned tt <->
  (forall m, In m (AnalyticsAgent.or_empty (metrics plan)) -> valid_metric m = true) /\
  (forall d, In d (AnalyticsAgent.or_empty (dimensions plan)) ->
             valid_dimension d = true).
Proof.
  unfold AnalyticsAgent.validateFields, valid_metric, valid_dimension.
  split.
  - intros Hok.
    destruct (validate_each_cases AnalyticsAgent.VALID_METRICS
                AnalyticsAgent.invalid_metric
                (AnalyticsAgent.or_empty (metrics plan)))
      as [Hm | [f [_ [_ Hthrow]]]]; [|rewrite Hthrow in Hok; discriminate].
    rewrite Hm in Hok. split.
    + intros m Hin.
      destruct (array_includes AnalyticsAgent.VALID_METRICS m) eqn:Hv; [reflexivity|].
      destruct (validate_each_invalid AnalyticsAgent.VALID_METRICS
                  AnalyticsAgent.invalid_metric
                  (AnalyticsAgent.or_empty (metrics plan)))
        as [f [_ [_ Habs]]]; [now exists m | congruence].
    + intros d Hin.
      destruct (array_includes AnalyticsAgent.VALID_DIMENSIONS d) eqn:Hv; [reflexivity|].
      destruct (validate_each_invalid AnalyticsAgent.VALID_DIMENSIONS
                  AnalyticsAgent.invalid_dimension
                  (AnalyticsAgent.or_empty (dimensions plan)))
        as [f [_ [_ Habs]]]; [now exists d | congruence].
  - intros [Hm Hd].
    rewrite (validate_each_valid _ AnalyticsAgent.invalid_metric _ Hm).
    apply validate_each_valid, Hd.
Qed.

(** X6.  [validateFields] accepts a plan exactly when every metric it names
    is in [VALID_METRICS] and every dimension in [VALID_DIMENSIONS]; absent
    lists name nothing. *)
Theorem validateFields_accepts_iff :
  forall plan : ReportingPlan,
    AnalyticsAgent.validateFields plan = Returned tt <->
    (forall m, In m (AnalyticsAgent.or_empty (metrics plan)) -> valid_metric m = true) /\
    (forall d, In d (AnalyticsAgent.or_empty (dimensions plan)) ->
               valid_dimension d = true).
Proof. exact validateFields_accepts. Qed.

(** The whole [try] block, stage by stage. *)
Lemma analytics_try_run (q : AnalyticsAgent.AnalyticsQuery) (w : World) :
  AnalyticsAgent.processQuery_try q w
  = match AnalyticsAgent.inferReportingPlan (AnalyticsAgent.query q) w with
    | (t, Thrown e) => (t, Thrown e)
    | (t, Returned plan) =>
        match AnalyticsAgent.validateFields plan with
        | Thrown e => (t, Thrown e)
        | Returned _ =>
            let request := AnalyticsAgent.mkGA4Request (AnalyticsAgent.propertyId q) plan in
            match runReport w request with
            | Thrown e => (t ++ [EvRunReport request], Thrown e)
            | Returned payload =>
                match AnalyticsAgent.generateExplanation
                        (AnalyticsAgent.query q) plan payload w with
                | (t', Thrown e) => (t ++ EvRunReport request :: t', Thrown e)
                | (t', Returned text) =>
                    (t ++ EvRunReport request :: t',
                     Returned {| success := true; data := Some payload;
                                 explanation := text; error := None |})
                end
            end
        end
    end.
Proof.
  unfold AnalyticsAgent.processQuery_try, AnalyticsAgent.executeGA4Query.
  rewrite bind_run.
  destruct (AnalyticsAgent.inferReportingPlan (AnalyticsAgent.query q) w)
    as [t [plan|e]]; [|reflexivity].
  run.
  destruct (AnalyticsAgent.validateFields plan) as [[]|e]; run;
    [|now rewrite app_nil_r].
  destruct (runReport w (AnalyticsAgent.mkGA4Request (AnalyticsAgent.propertyId q) plan))
    as [payload|e]; run; [|reflexivity].
  destruct (AnalyticsAgent.generateExplanation (AnalyticsAgent.query q) plan payload w)
    as [t' [text|e]]; run; [|reflexivity].
  now rewrite app_nil_r.
Qed.

Lemma generateExplanation_only_gateway query plan payload :
  only is_gateway (AnalyticsAgent.generateExplanation query plan payload).
Proof.
  unfold AnalyticsAgent.generateExplanation, AnalyticsAgent.join_field.
  apply only_bind; [destruct (metrics plan); only_step | intros m].
  apply only_bind; [destruct (dimensions plan); only_step | intros d].
  apply chat_only_gateway.
Qed.

Lemma gateway_event_not_report (t : list event) (request : GA4Request) :
  forallb is_gateway t = true -> ~ In (EvRunReport request) t.
Proof.
  intros Hall Hin. rewrite forallb_forall in Hall.
  specialize (Hall _ Hin). discriminate.
Qed.

Lemma calls_runReport_gateway (t : list event) :
  forallb is_gateway t = true -> calls_runReport t = 0.
Proof.
  intros H. apply calls_runReport_zero.
  rewrite forallb_forall in *. intros e He.
  apply gateway_not_runReport. auto.
Qed.

(** X7.  Whatever the model replied, a request that reaches GA4 names only
    allow-listed metrics and dimensions, is scoped to the query's property,
    and is the only one: [runReport] is called at most once per query. *)
Theorem runReport_only_validated :
  forall (w : World) (q : AnalyticsAgent.AnalyticsQuery),
    calls_runReport (trace (AnalyticsAgent.processQuery q w)) <= 1 /\
    (forall request,
        In (EvRunReport request) (trace (AnalyticsAgent.processQuery q w)) ->
        property request = ("properties/" ++ AnalyticsAgent.propertyId q)%string /\
        Forall (fun m => valid_metric m = true) (req_metrics request) /\
        Forall (fun d => valid_dimension d = true) (req_dimensions request)).
Proof.
  intros w q. rewrite analytics_processQuery_run, analytics_try_run.
  pose proof (inferReportingPlan_only_gateway (AnalyticsAgent.query q) w) as Hinfer.
  destruct (AnalyticsAgent.inferReportingPlan (AnalyticsAgent.query q) w)
    as [t [plan|e]]; cbn [trace fst] in Hinfer.
  2:{ cbn [trace fst]. rewrite (calls_runReport_gateway _ Hinfer).
      split; [lia|]. intros request Hin.
      now elim (gateway_event_not_report _ _ Hinfer Hin). }
  destruct (AnalyticsAgent.validateFields plan) as [[]|e] eqn:Hvalid.
  2:{ cbn [trace fst]. rewrite (calls_runReport_gateway _ Hinfer).
      split; [lia|]. intros request Hin.
      now elim (gateway_event_not_report _ _ Hinfer Hin). }
  apply validateFields_accepts in Hvalid. destruct Hvalid as [Hm Hd].
  assert (Hreq : forall request,
             request = AnalyticsAgent.mkGA4Request (AnalyticsAgent.propertyId q) plan ->
             property request = ("properties/" ++ AnalyticsAgent.propertyId q)%string /\
             Forall (fun m => valid_metric m = true) (req_metrics request) /\
             Forall (fun d => valid_dimension d = true) (req_dimensions request)).
  { intros request ->. cbn. split; [reflexivity|].
    split; apply Forall_forall; assumption. }
  cbv zeta.
  destruct (runReport w (AnalyticsAgent.mkGA4Request (AnalyticsAgent.propertyId q) plan))
    as [payload|e].
  - pose proof (generateExplanation_only_gateway (AnalyticsAgent.query q) plan payload w)
      as Hgen.
    destruct (AnalyticsAgent.generateExplanation (AnalyticsAgent.query q) plan payload w)
      as [t' [text|e]]; cbn [trace fst] in *.
    + split.
      * rewrite calls_runReport_app, (calls_runReport_gateway _ Hinfer).
        unfold calls_runReport at 1. cbn [filter is_runReport length].
        fold (calls_runReport t'). rewrite (calls_runReport_gateway _ Hgen). lia.
      * intros request Hin. apply in_app_or in Hin. destruct Hin as [Hin|[Heq|Hin]].
        -- now elim (gateway_event_not_report _ _ Hinfer Hin).
        -- inversion Heq. now apply Hreq.
        -- now elim (gateway_event_not_report _ _ Hgen Hin).
    + split.
      * rewrite calls_runReport_app, (calls_runReport_gateway _ Hinfer).
        unfold calls_runReport at 1. cbn [filter is_runReport length].
        fold (calls_runReport t'). rewrite (calls_runReport_gateway _ Hgen). lia.
      * intros request Hin. apply in_app_or in Hin. destruct Hin as [Hin|[Heq|Hin]].
        -- now elim (gateway_event_not_report _ _ Hinfer Hin).
        -- inversion Heq. now apply Hreq.
        -- now elim (gateway_event_not_report _ _ Hgen Hin).
  - cbn [trace fst]. split.
    + rewrite calls_runReport_app, (calls_runReport_gateway _ Hinfer). cbn. lia.
    + intros request Hin. apply in_app_or in Hin. destruct Hin as [Hin|[Heq|[]]].
      * now elim (gateway_event_not_report _ _ Hinfer Hin).
      * inversion Heq. now apply Hreq.
Qed.

(** X8.  A plan without its [metrics] (or [dimensions]) field cannot
    succeed: validation lets the absent list through and the report is
    fetched, but [generateExplanation] then reads [plan.metrics.join].  The
    result has [success] false; when the plan is otherwise valid, GA4 was
    called once, and if that call returned, the error is the TypeError. *)
Theorem plan_without_metrics_fails :
  forall (w : World) (q : AnalyticsAgent.AnalyticsQuery) t (plan : ReportingPlan),
    AnalyticsAgent.inferReportingPlan (AnalyticsAgent.query q) w = (t, Returned plan) ->
    metrics plan = None \/ dimensions plan = None ->
    exists r,
      result (AnalyticsAgent.processQuery q w) = Returned r /\
      success r = false /\
      (AnalyticsAgent.validateFields plan = Returned tt ->
       calls_runReport (trace (AnalyticsAgent.processQuery q w)) = 1 /\
       forall payload,
         runReport w (AnalyticsAgent.mkGA4Request (AnalyticsAgent.propertyId q) plan)
         = Returned payload ->
         error r = Some "Cannot read properties of undefined (reading 'join')"%string).
Proof.
  intros w q t plan Hplan Habsent.
  pose proof (inferReportingPlan_only_gateway (AnalyticsAgent.query q) w) as Hinfer.
  rewrite analytics_processQuery_run, analytics_try_run, Hplan.
  rewrite Hplan in Hinfer. cbn [trace fst] in Hinfer.
  destruct (AnalyticsAgent.validateFields plan) as [[]|e].
  2:{ eexists. split; [reflexivity|]. split; [reflexivity | discriminate]. }
  cbv zeta.
  assert (Hgen : forall payload,
             AnalyticsAgent.generateExplanation (AnalyticsAgent.query q) plan payload w
             = ([], Thrown (Error "Cannot read properties of undefined (reading 'join')"))).
  { intros payload. unfold AnalyticsAgent.generateExplanation, AnalyticsAgent.join_field.
    destruct Habsent as [-> | ->].
    - reflexivity.
    - rewrite bind_run. destruct (metrics plan); reflexivity. }
  destruct (runReport w (AnalyticsAgent.mkGA4Request (AnalyticsAgent.propertyId q) plan))
    as [payload|e].
  - rewrite Hgen. eexists. split; [reflexivity|]. split; [reflexivity|].
    intros _. split; [|reflexivity].
    cbn [trace fst]. rewrite calls_runReport_app, (calls_runReport_gateway _ Hinfer).
    reflexivity.
  - eexists. split; [reflexivity|]. split; [reflexivity|].
    intros _. split; [|discriminate].
    cbn [trace fst]. rewrite calls_runReport_app, (calls_runReport_gateway _ Hinfer).
    reflexivity.
Qed.

(** X9.  A successful result is backed by the data source: when
    [processQuery] returns [success] true, the inferred plan passed
    validation, [runReport] was called exactly once with it, and the
    result's [data] is what that call returned; [error] is absent. *)
Theorem analytics_success_carries_report :
  forall (w : World) (q : AnalyticsAgent.AnalyticsQuery) (r : AnalyticsResponse),
    result (AnalyticsAgent.processQuery q w) = Returned r ->
    success r = true ->
    exists plan payload,
      result (AnalyticsAgent.inferReportingPlan (AnalyticsAgent.query q) w)
      = Returned plan /\
      AnalyticsAgent.validateFields plan = Returned tt /\
      runReport w (AnalyticsAgent.mkGA4Request (AnalyticsAgent.propertyId q) plan)
      = Returned payload /\
      data r = Some payload /\
      error r = None /\
      calls_runReport (trace (AnalyticsAgent.processQuery q w)) = 1.
Proof.
  intros w q r Hr Hs.
  pose proof (inferReportingPlan_only_gateway (AnalyticsAgent.query q) w) as Hinfer.
  rewrite analytics_processQuery_run, analytics_try_run in Hr |- *.
  destruct (AnalyticsAgent.inferReportingPlan (AnalyticsAgent.query q) w)
    as [t [plan|e]]; cbn [trace fst] in Hinfer.
  2:{ cbn in Hr. inversion Hr; subst r. discriminate. }
  destruct (AnalyticsAgent.validateFields plan) as [[]|e] eqn:Hvalid.
  2:{ cbn in Hr. inversion Hr; subst r. discriminate. }
  cbv zeta in *.
  destruct (runReport w (AnalyticsAgent.mkGA4Request (AnalyticsAgent.propertyId q) plan))
    as [payload|e] eqn:Hreport.
  2:{ cbn in Hr. inversion Hr; subst r. discriminate. }
  pose proof (generateExplanation_only_gateway (AnalyticsAgent.query q) plan payload w)
    as Hgen.
  destruct (AnalyticsAgent.generateExplanation (AnalyticsAgent.query q) plan payload w)
    as [t' [text|e]]; cbn [trace result fst snd] in *.
  2:{ inversion Hr; subst r. discriminate. }
  inversion Hr; subst r. exists plan, payload.
  repeat split; try reflexivity; try assumption.
  rewrite calls_runReport_app, (calls_runReport_gateway _ Hinfer).
  unfold calls_runReport at 1. cbn [filter is_runReport length].
  fold (calls_runReport t'). now rewrite (calls_runReport_gateway _ Hgen).
Qed.

End AnalyticsPipeline.

(* ================================================================== *)
(** ** More on the tabular agent's execute-operations *)
(* ================================================================== *)

Section Objects.
Import Js.
Variable V : Type.
Variable undefined : V.

Lemma has_In (o : list (string * V)) (k : string) :
  has o k = true <-> In k (map fst o).
Proof.
  unfold has. rewrite existsb_exists, in_map_iff. split.
  - intros [kv [Hin Heq]]. apply String.eqb_eq in Heq. now exists kv.
  - intros [kv [Heq Hin]]. exists kv. split; [exact Hin|]. now apply String.eqb_eq.
Qed.

Lemma get_set_same (o : list (string * V)) (k : string) (v : V) :
  get undefined (set o k v) k = v.
Proof.
  induction o as [|[k' v'] o IH]; simpl.
  - now rewrite String.eqb_refl.
  - destruct (String.eqb k k') eqn:E; simpl; rewrite E; [reflexivity | exact IH].
Qed.

Lemma get_set_other (o : list (string * V)) (k k' : string) (v : V) :
  k' <> k -> get undefined (set o k v) k' = get undefined o k'.
Proof.
  intros Hne. apply String.eqb_neq in Hne.
  induction o as [|[k0 v0] o IH]; simpl.
  - now rewrite Hne.
  - destruct (String.eqb k k0) eqn:E; simpl.
    + apply String.eqb_eq in E. subst k0. now rewrite Hne.
    + destruct (String.eqb k' k0); [reflexivity | exact IH].
Qed.

Lemma keys_set (o : list (string * V)) (k : string) (v : V) :
  map fst (set o k v) = if has o k then map fst o else map fst o ++ [k].
Proof.
  unfold has. induction o as [|[k' v'] o IH]; simpl; [reflexivity|].
  destruct (String.eqb k k') eqn:E; simpl; [reflexivity|].
  rewrite IH. now destruct (existsb _ o).
Qed.

Lemma length_set (o : list (string * V)) (k : string) (v : V) :
  length (set o k v) = if has o k then length o else S (length o).
Proof.
  rewrite <- !(length_map fst), keys_set.
  destruct (has o k); [reflexivity|]. rewrite length_app. simpl. lia.
Qed.

Lemma In_set (o : list (string * V)) (k : string) (v : V) (k' : string) (v' : V) :
  NoDup (map fst o) ->
  (In (k', v') (set o k v) <-> (k' = k /\ v' = v) \/ (k' <> k /\ In (k', v') o)).
Proof.
  induction o as [|[k0 v0] o IH]; intros Hnd; simpl.
  - split.
    + intros [Heq|[]]. inversion Heq. now left.
    + intros [[-> ->]|[_ []]]. now left.
  - inversion Hnd as [|? ? Hnotin Hnd']; subst.
    destruct (String.eqb_spec k k0) as [->|Hne]; simpl.
    + split.
      * intros [Heq|Hin].
        -- inversion Heq. now left.
        -- right. split; [|now right]. intros ->. apply Hnotin.
           apply in_map_iff. now exists (k0, v').
      * intros [[-> ->]|[Hne [Heq|Hin]]]; [now left | | now right].
        inversion Heq. congruence.
    + rewrite (IH Hnd'). split.
      * intros [Heq|[[-> ->]|[Hne' Hin]]].
        -- inversion Heq; subst. right. split; [congruence | now left].
        -- now left.
        -- right. split; [exact Hne' | now right].
      * intros [[-> ->]|[Hne' [Heq|Hin]]].
        -- right. now left.
        -- now left.
        -- right. right. now split.
Qed.

Lemma get_In (o : list (string * V)) (k : string) (v : V) :
  NoDup (map fst o) -> In (k, v) o -> get undefined o k = v.
Proof.
  induction o as [|[k0 v0] o IH]; intros Hnd Hin; [contradiction|].
  inversion Hnd as [|? ? Hnotin Hnd']; subst. simpl.
  destruct Hin as [Heq|Hin].
  - inversion Heq. now rewrite String.eqb_refl.
  - destruct (String.eqb_spec k k0) as [->|Hne]; [|now apply IH].
    exfalso. apply Hnotin. apply in_map_iff. now exists (k0, v).
Qed.

Lemma insert_index_perm (n : N) (kv : string * V) (l : list (N * (string * V))) :
  Permutation (insert_index n kv l) ((n, kv) :: l).
Proof.
  induction l as [|[m kv'] l IH]; simpl; [reflexivity|].
  destruct (n <=? m)%N; [reflexivity|].
  rewrite IH. apply perm_swap.
Qed.

(** [Object.entries] lists every property once. *)
Lemma entries_perm (o : list (string * V)) : Permutation (entries o) o.
Proof.
  unfold entries.
  assert (Hidx : Permutation
            (map snd
               (fold_right (fun kv acc =>
                              match array_index (fst kv) with
                              | Some n => insert_index n kv acc
                              | None => acc
                              end) [] o))
            (filter (fun kv => match array_index (fst kv) with
                               | Some _ => true | None => false end) o)).
  { induction o as [|kv o IH]; simpl; [reflexivity|].
    destruct (array_index (fst kv)) as [n|]; [|exact IH].
    rewrite insert_index_perm. simpl. now apply perm_skip. }
  rewrite Hidx. clear Hidx.
  induction o as [|kv o IH]; simpl; [reflexivity|].
  destruct (array_index (fst kv)); simpl.
  - now apply perm_skip.
  - rewrite <- Permutation_middle. now apply perm_skip.
Qed.

End Objects.

Section Sorting.
Import Js.
Variable A : Type.
Variable compareFn : A -> A -> Z.

Lemma insert_perm (x : A) (l : list A) : Permutation (insert compareFn x l) (x :: l).
Proof.
  induction l as [|y l IH]; simpl; [reflexivity|].
  destruct (compareFn x y <=? 0)%Z; [reflexivity|].
  rewrite IH. apply perm_swap.
Qed.

Lemma sort_perm (l : list A) : Permutation (sort compareFn l) l.
Proof.
  induction l as [|x l IH]; simpl; [reflexivity|].
  rewrite insert_perm. now apply perm_skip.
Qed.

Lemma insert_sorted (x : A) (l : list A) :
  (forall y, In y l -> (0 < compareFn x y)%Z -> (compareFn y x <= 0)%Z) ->
  Sorted (fun a b => (compareFn a b <= 0)%Z) l ->
  Sorted (fun a b => (compareFn a b <= 0)%Z) (insert compareFn x l).
Proof.
  induction l as [|y l IH]; intros Hasym Hs; simpl.
  - repeat constructor.
  - destruct (compareFn x y <=? 0)%Z eqn:E.
    + constructor; [exact Hs|]. constructor. now apply Z.leb_le.
    + apply Z.leb_gt in E. inversion Hs as [|? ? Hs' Hhd]; subst.
      constructor.
      * apply IH; [|exact Hs']. intros z Hz. apply Hasym. now right.
      * destruct l as [|z l]; simpl.
        -- constructor. apply Hasym; [now left | exact E].
        -- destruct (compareFn x z <=? 0)%Z.
           ++ constructor. apply Hasym; [now left | exact E].
           ++ constructor. now inversion Hhd.
Qed.

Lemma sort_sorted (l : list A) :
  (forall x y, In x l -> In y l -> (0 < compareFn x y)%Z -> (compareFn y x <= 0)%Z) ->
  Sorted (fun a b => (compareFn a b <= 0)%Z) (sort compareFn l).
Proof.
  induction l as [|x l IH]; intros Hasym; simpl; [constructor|].
  apply insert_sorted.
  - intros y Hy. apply Hasym; [now left|]. right.
    exact (Permutation_in _ (sort_perm l) Hy).
  - apply IH. intros a b Ha Hb. apply Hasym; now right.
Qed.

End Sorting.

Section Operations.
Import Js Schema Spec Measure JsFacts.
Context {Num : JsNumber}.

(** X12.  On an empty table every plan gives the empty result: nothing is
    thrown, [resultCount] is 0 and [results] is empty. *)
Theorem execute_on_empty_table :
  forall plan : DataPlan,
    SEOAgent.executeDataOperations [] plan
    = Returned {| Schema.plan := plan; resultCount := 0; results := [] |}.
Proof.
  intros plan. unfold SEOAgent.executeDataOperations.
  assert (Hf : SEOAgent.applyFilters plan [] = []).
  { rewrite applyFilters_filter. reflexivity. }
  rewrite Hf.
  assert (Hg : SEOAgent.applyGroup plan [] = Returned []).
  { unfold SEOAgent.applyGroup. destruct (groupBy plan) as [c|]; [|reflexivity].
    now destruct (String.eqb c ""). }
  rewrite Hg.
  assert (Hs : SEOAgent.applySort plan [] = []).
  { unfold SEOAgent.applySort. now destruct (sortBy plan). }
  rewrite Hs.
  assert (Hl : SEOAgent.applyLimit plan [] = []).
  { unfold SEOAgent.applyLimit, slice0.
    destruct (ToBoolean (limit plan)); [apply firstn_nil | reflexivity]. }
  now rewrite Hl.
Qed.

Lemma fill_groups_length (column : string) (rows : list Row) :
  forall groups groups',
    SEOAgent.fill_groups column groups rows = Returned groups' ->
    length groups' <= length groups + length rows.
Proof.
  induction rows as [|row rows IH]; intros groups groups' H; simpl in H.
  - inversion H. simpl. lia.
  - destruct (SEOAgent.add_to_group column groups row) as [g|e] eqn:Hadd;
      [|discriminate].
    specialize (IH g groups' H).
    assert (length g <= S (length groups)).
    { unfold SEOAgent.add_to_group in Hadd.
      destruct (has groups (ToString (row_get row column))) eqn:Hhas.
      - inversion Hadd. rewrite length_set, Hhas. lia.
      - destruct (array_includes Object_prototype_names _); [discriminate|].
        inversion Hadd. rewrite length_set, Hhas. lia. }
    simpl. lia.
Qed.

Lemma applyGroup_length (plan : DataPlan) (rows : list Row) (records : list Record) :
  SEOAgent.applyGroup plan rows = Returned records ->
  length records <= length rows.
Proof.
  unfold SEOAgent.applyGroup. intros H.
  assert (Hflat : Returned (map record_of_row rows) = Returned records ->
                  length records <= length rows).
  { intros E. inversion E. now rewrite length_map. }
  destruct (groupBy plan) as [c|]; [|now apply Hflat].
  destruct (String.eqb c ""); [now apply Hflat|].
  destruct (SEOAgent.fill_groups c [] rows) as [groups|e] eqn:Hfill; [|discriminate].
  inversion H. rewrite length_map, (Permutation_length (entries_perm _ groups)).
  apply fill_groups_length in Hfill. simpl in Hfill. exact Hfill.
Qed.

Lemma applySort_length (plan : DataPlan) (records : list Record) :
  length (SEOAgent.applySort plan records) = length records.
Proof.
  unfold SEOAgent.applySort. destruct (sortBy plan); [apply sort_length | reflexivity].
Qed.

Lemma applyLimit_length (plan : DataPlan) (records : list Record) :
  length (SEOAgent.applyLimit plan records) <= length records.
Proof.
  unfold SEOAgent.applyLimit, slice0.
  destruct (ToBoolean (limit plan)); [|lia].
  rewrite length_firstn. lia.
Qed.

(** X13.  The result never has more records than the table has rows, and
    [resultCount] is the number of records returned. *)
Theorem result_no_longer_than_table :
  forall (data : list Row) (plan : DataPlan) (out : Output),
    SEOAgent.executeDataOperations data plan = Returned out ->
    resultCount out = length (results out) /\
    length (results out) <= length data.
Proof.
  intros data plan out H. unfold SEOAgent.executeDataOperations in H.
  destruct (SEOAgent.applyGroup plan (SEOAgent.applyFilters plan data))
    as [grouped|e] eqn:Hg; [|discriminate].
  inversion H; subst out; cbn [resultCount results]. split; [reflexivity|].
  apply applyGroup_length in Hg.
  pose proof (applyLimit_length plan (SEOAgent.applySort plan grouped)) as Hl.
  rewrite applySort_length in Hl.
  assert (length (SEOAgent.applyFilters plan data) <= length data).
  { rewrite applyFilters_filter. apply filter_length_le. }
  lia.
Qed.

(** X14.  Sorting neither drops nor duplicates a record: the sorted list is
    a permutation of the list given. *)
Theorem sort_step_permutes :
  forall (plan : DataPlan) (records : list Record),
    Permutation (SEOAgent.applySort plan records) records.
Proof.
  intros plan records. unfold SEOAgent.applySort.
  destruct (sortBy plan); [apply sort_perm | reflexivity].
Qed.

(** X16.  A negative limit is truthy, and [slice(0, limit)] then counts
    from the end: with limit -k the last k records are removed (all of them
    when there are at most k). *)
Theorem negative_limit_drops_last :
  forall (plan : DataPlan) (records : list Record) (n : number) (k : nat),
    limit plan = PNumber n ->
    num_truthy n = true ->
    ToIntegerOrInfinity n = Finite (- Z.of_nat (S k)) ->
    SEOAgent.applyLimit plan records = firstn (length records - S k) records.
Proof.
  intros plan records n k Hn Ht Hi. unfold SEOAgent.applyLimit, slice0.
  rewrite Hn. cbn [ToBoolean ToNumber]. rewrite Ht, Hi.
  destruct (- Z.of_nat (S k) <? 0)%Z eqn:E; [|apply Z.ltb_ge in E; lia].
  f_equal. lia.
Qed.

Lemma forallb_perm {A : Type} (P : A -> bool) (l l' : list A) :
  Permutation l l' -> forallb P l = forallb P l'.
Proof.
  induction 1 as [|x l l' _ IH|x y l|l l' l'' _ IH1 _ IH2]; simpl.
  - reflexivity.
  - now rewrite IH.
  - now rewrite !andb_assoc, (andb_comm (P y) (P x)).
  - congruence.
Qed.

(** X19.  The result of the filter step does not depend on the order of the
    clauses: two plans whose clause lists are permutations of each other
    keep the same rows. *)
Theorem filter_order_irrelevant :
  forall (plan plan' : DataPlan) (rows : list Row),
    Permutation (clauses plan) (clauses plan') ->
    SEOAgent.applyFilters plan rows = SEOAgent.applyFilters plan' rows.
Proof.
  intros plan plan' rows Hperm. rewrite !applyFilters_filter.
  apply filter_ext. intros row. now apply forallb_perm.
Qed.

End Operations.

Section SortedOutput.
Import Js Schema Spec Measure JsFacts.
Context {Num : JsNumber}.

Lemma string_lt_asym (a b : string) : string_lt a b = true -> string_lt b a = false.
Proof.
  unfold string_lt. rewrite (String.compare_antisym a b).
  destruct (String.compare b a); simpl; congruence.
Qed.

Lemma compare_string_cells (by_ : SortBy) (a b : Record) (s t : string) :
  record_get a (sort_column by_) = VPrim (PString s) ->
  record_get b (sort_column by_) = VPrim (PString t) ->
  SEOAgent.compareRecords by_ a b
  = (let comparison :=
       if string_lt t s then 1 else if string_lt s t then -1 else 0 in
     if desc by_ then - comparison else comparison)%Z.
Proof.
  intros Ha Hb. unfold SEOAgent.compareRecords, js_gt, js_lt.
  now rewrite Ha, Hb.
Qed.

(** X15.  When the sort column holds a string in every record, the sorted
    list is in order: ascending, no record is followed by one whose cell is
    smaller in the lexicographic order of character codes; descending, none
    is followed by one whose cell is larger. *)
Theorem sort_step_orders_strings :
  forall (plan : DataPlan) (by_ : SortBy) (records : list Record),
    sortBy plan = Some by_ ->
    Forall (string_cell (sort_column by_)) records ->
    Sorted (fun a b =>
              forall s t,
                record_get a (sort_column by_) = VPrim (PString s) ->
                record_get b (sort_column by_) = VPrim (PString t) ->
                if desc by_ then string_lt s t = false else string_lt t s = false)
           (SEOAgent.applySort plan records).
Proof.
  intros plan by_ records Hby Hcells. unfold SEOAgent.applySort. rewrite Hby.
  rewrite Forall_forall in Hcells.
  assert (Hsorted : Sorted (fun a b => (SEOAgent.compareRecords by_ a b <= 0)%Z)
                           (sort (SEOAgent.compareRecords by_) records)).
  { apply sort_sorted. intros x y Hx Hy.
    destruct (Hcells x Hx) as [s Hs]. destruct (Hcells y Hy) as [t Ht].
    rewrite (compare_string_cells by_ x y s t Hs Ht),
            (compare_string_cells by_ y x t s Ht Hs). cbv zeta.
    destruct (string_lt t s) eqn:E1, (string_lt s t) eqn:E2, (desc by_);
      try lia.
    all: rewrite (string_lt_asym _ _ E1) in E2; discriminate. }
  eapply Sorted_ind with (P := fun l =>
    Sorted (fun a b => forall s t,
              record_get a (sort_column by_) = VPrim (PString s) ->
              record_get b (sort_column by_) = VPrim (PString t) ->
              if desc by_ then string_lt s t = false else string_lt t s = false) l);
    [| |exact Hsorted].
  - constructor.
  - intros a l _ IH Hhd. constructor; [exact IH|].
    destruct Hhd as [|b l' Hab]; constructor.
    intros s t Hs Ht. rewrite (compare_string_cells by_ a b s t Hs Ht) in Hab.
    cbv zeta in Hab.
    destruct (string_lt t s) eqn:E1, (string_lt s t) eqn:E2, (desc by_);
      try reflexivity; try lia.
    all: rewrite (string_lt_asym _ _ E1) in E2; discriminate.
Qed.

End SortedOutput.

Section Grouping.
Import Js Schema Spec Measure JsFacts.
Context {Num : JsNumber}.

Lemma filter_key_snoc (column key : string) (seen : list Row) (row : Row) :
  filter (fun r => String.eqb (group_key column r) key) (seen ++ [row])
  = filter (fun r => String.eqb (group_key column r) key) seen
    ++ (if String.eqb (group_key column row) key then [row] else []).
Proof. rewrite filter_app. reflexivity. Qed.

Lemma add_to_group_grouped (column : string) (groups groups' : list (string * list Row))
      (seen : list Row) (row : Row) :
  grouped column groups seen ->
  SEOAgent.add_to_group column groups row = Returned groups' ->
  inherited (group_key column row) = false /\
  grouped column groups' (seen ++ [row]).
Proof.
  intros [Hnd [Hitems Hseen]] Hadd. unfold SEOAgent.add_to_group in Hadd.
  fold (group_key column row) in Hadd.
  set (key := group_key column row) in *.
  assert (Hkeys : forall k, has groups k = true ->
                  has (set groups key (get [] groups key ++ [row])) k = true
                  /\ forall v, has (set groups key v) k = true).
  { intros k Hk. split; [|intros v]; apply has_In; rewrite keys_set;
      destruct (has groups key); try apply in_or_app; try left; now apply has_In. }
  destruct (has groups key) eqn:Hhas.
  - inversion Hadd; subst groups'; clear Hadd.
    assert (Hin : In (key, get [] groups key) groups).
    { apply has_In in Hhas. apply in_map_iff in Hhas.
      destruct Hhas as [[k items] [Hk Hin]]. simpl in Hk. subst k.
      now rewrite (get_In _ [] groups key items Hnd Hin). }
    destruct (Hitems _ _ Hin) as [Heq [Hne Hinh]].
    split; [exact Hinh|]. split; [|split].
    + rewrite keys_set, Hhas. exact Hnd.
    + intros k items Hk. apply (In_set _ groups key _ k items Hnd) in Hk.
      rewrite filter_key_snoc. fold key.
      destruct Hk as [[-> ->]|[Hne' Hk]].
      * rewrite String.eqb_refl, <- Heq.
        split; [reflexivity|]. split; [|exact Hinh].
        intros Habs. now apply app_eq_nil in Habs as [_ ?].
      * destruct (Hitems _ _ Hk) as [Heq' [Hne'' Hinh']].
        assert (String.eqb key k = false) as -> by (apply String.eqb_neq; congruence).
        rewrite app_nil_r. auto.
    + intros r Hr. apply in_app_or in Hr. destruct Hr as [Hr|[<-|[]]].
      * apply Hkeys. now apply Hseen.
      * fold key. apply has_In. rewrite keys_set, Hhas. now apply has_In.
  - destruct (array_includes Object_prototype_names key) eqn:Hproto; [discriminate|].
    inversion Hadd; subst groups'; clear Hadd.
    split; [exact Hproto|]. split; [|split].
    + rewrite keys_set, Hhas. apply NoDup_app_remove_l with (l := []). simpl.
      apply Permutation_NoDup with (l := key :: map fst groups).
      * apply Permutation_cons_append.
      * constructor; [|exact Hnd]. intros Habs. apply has_In in Habs. congruence.
    + intros k items Hk. apply (In_set _ groups key _ k items Hnd) in Hk.
      rewrite filter_key_snoc. fold key.
      destruct Hk as [[-> ->]|[Hne' Hk]].
      * rewrite String.eqb_refl.
        assert (Hnone : filter (fun r => String.eqb (group_key column r) key) seen = []).
        { apply filter_none, Forall_forall. intros r Hr.
          destruct (String.eqb_spec (group_key column r) key) as [E|]; [|reflexivity].
          specialize (Hseen r Hr). congruence. }
        rewrite Hnone. split; [reflexivity|]. split; [discriminate | exact Hproto].
      * destruct (Hitems _ _ Hk) as [Heq' [Hne'' Hinh']].
        assert (String.eqb key k = false) as -> by (apply String.eqb_neq; congruence).
        rewrite app_nil_r. auto.
    + intros r Hr. apply in_app_or in Hr. destruct Hr as [Hr|[<-|[]]].
      * apply Hkeys. now apply Hseen.
      * fold key. apply has_In. rewrite keys_set, Hhas. apply in_or_app.
        right. now left.
Qed.

Lemma fill_groups_grouped (column : string) (rows : list Row) :
  forall groups groups' seen,
    grouped column groups seen ->
    SEOAgent.fill_groups column groups rows = Returned groups' ->
    grouped column groups' (seen ++ rows) /\
    Forall (fun row => inherited (group_key column row) = false) rows.
Proof.
  induction rows as [|row rows IH]; intros groups groups' seen Hinv Hfill;
    simpl in Hfill.
  - inversion Hfill; subst. rewrite app_nil_r. split; [exact Hinv | constructor].
  - destruct (SEOAgent.add_to_group column groups row) as [g|e] eqn:Hadd;
      [|discriminate].
    destruct (add_to_group_grouped column groups g seen row Hinv Hadd) as [Hinh Hg].
    destruct (IH g groups' (seen ++ [row]) Hg Hfill) as [Hfinal Hall].
    rewrite <- app_assoc in Hfinal. split; [exact Hfinal | now constructor].
Qed.

Lemma fill_groups_throws (column : string) (rows : list Row) :
  forall groups seen e,
    grouped column groups seen ->
    SEOAgent.fill_groups column groups rows = Thrown e ->
    e = Error "groups[key].push is not a function" /\
    Exists (fun row => inherited (group_key column row) = true) rows.
Proof.
  induction rows as [|row rows IH]; intros groups seen e Hinv Hfill; simpl in Hfill.
  - discriminate.
  - destruct (SEOAgent.add_to_group column groups row) as [g|e'] eqn:Hadd.
    + destruct (add_to_group_grouped column groups g seen row Hinv Hadd) as [_ Hg].
      destruct (IH g (seen ++ [row]) e Hg Hfill) as [He Hex].
      split; [exact He | now apply Exists_cons_tl].
    + inversion Hfill; subst e'. unfold SEOAgent.add_to_group in Hadd.
      destruct (has groups (ToString (row_get row column))); [discriminate|].
      destruct (array_includes Object_prototype_names (ToString (row_get row column)))
        eqn:Hproto; [|discriminate].
      inversion Hadd. split; [reflexivity|]. now apply Exists_cons_hd.
Qed.

Lemma grouped_nil (column : string) : grouped column [] [].
Proof.
  split; [constructor|]. split; [intros k items [] | intros row []].
Qed.

(** X17.  Grouping throws exactly when the cell of the grouping column, as a
    string, is the name of a member of [Object.prototype] in some row left
    by the filters; the error is then the TypeError of [groups[key].push].
    The grouping column itself is a non-empty name that is no such member,
    so that [row[column]] reads a cell. *)
Theorem grouping_throws_on_inherited_names :
  forall (data : list Row) (plan : DataPlan) (column : string),
    groupBy plan = Some column ->
    column <> ""%string ->
    inherited column = false ->
    ((exists e, SEOAgent.executeDataOperations data plan = Thrown e) <->
     Exists (fun row => inherited (group_key column row) = true)
            (SEOAgent.applyFilters plan data)) /\
    (forall e, SEOAgent.executeDataOperations data plan = Thrown e ->
               e = Error "groups[key].push is not a function").
Proof.
  intros data plan column Hby Hne _.
  apply String.eqb_neq in Hne.
  unfold SEOAgent.executeDataOperations, SEOAgent.applyGroup. rewrite Hby, Hne.
  destruct (SEOAgent.fill_groups column [] (SEOAgent.applyFilters plan data))
    as [groups|e] eqn:Hfill.
  - destruct (fill_groups_grouped column _ [] groups [] (grouped_nil column) Hfill)
      as [_ Hall].
    split; [|intros e He; discriminate]. split.
    + intros [e He]. discriminate.
    + intros Hex. exfalso. rewrite Forall_forall in Hall.
      apply Exists_exists in Hex. destruct Hex as [row [Hin Hrow]].
      specialize (Hall row Hin). congruence.
  - destruct (fill_groups_throws column _ [] [] e (grouped_nil column) Hfill)
      as [He Hex].
    split.
    + split; [intros _; exact Hex | intros _; now exists e].
    + intros e' He'. inversion He'. congruence.
Qed.

(** X18.  Grouping partitions the rows by the string of their cell: every
    record of the grouped result comes from one key, its [items] are exactly
    the rows with that key, in table order and at least one, and its [count]
    is their number; keys are pairwise distinct and every row's key has its
    record.  The grouping column is a non-empty name that is no member of
    [Object.prototype], so that [row[column]] reads a cell. *)
Theorem grouping_partitions_rows :
  forall (plan : DataPlan) (column : string) (rows : list Row) (records : list Record),
    groupBy plan = Some column ->
    column <> ""%string ->
    inherited column = false ->
    SEOAgent.applyGroup plan rows = Returned records ->
    exists groups : list (string * list Row),
      records = map (SEOAgent.group_record column) groups /\
      NoDup (map fst groups) /\
      (forall row, In row rows -> In (group_key column row) (map fst groups)) /\
      Forall (fun g =>
                snd g = filter (fun row => String.eqb (group_key column row) (fst g)) rows /\
                snd g <> [] /\
                record_get (SEOAgent.group_record column g) "items" = VRows (snd g) /\
                record_get (SEOAgent.group_record column g) "count"
                = VPrim (PNumber (of_nat (length (snd g)))) /\
                (column <> "count"%string -> column <> "items"%string ->
                 record_get (SEOAgent.group_record column g) column
                 = VPrim (PString (fst g))))
             groups.
Proof.
  intros plan column rows records Hby Hne _ Hgroup.
  apply String.eqb_neq in Hne.
  unfold SEOAgent.applyGroup in Hgroup. rewrite Hby, Hne in Hgroup.
  destruct (SEOAgent.fill_groups column [] rows) as [groups|e] eqn:Hfill;
    [|discriminate].
  inversion Hgroup; subst records; clear Hgroup.
  destruct (fill_groups_grouped column rows [] groups [] (grouped_nil column) Hfill)
    as [[Hnd [Hitems Hseen]] _]. simpl in Hitems, Hseen.
  pose proof (entries_perm _ groups) as Hperm.
  exists (entries groups). split; [reflexivity|]. split; [|split].
  - apply Permutation_NoDup with (l := map fst groups); [|exact Hnd].
    apply Permutation_map. now symmetry.
  - intros row Hrow. apply (Permutation_in _ (Permutation_map fst (Permutation_sym Hperm))).
    apply has_In. now apply Hseen.
  - apply Forall_forall. intros [key items] Hin.
    apply (Permutation_in _ Hperm) in Hin.
    destruct (Hitems key items Hin) as [Heq [Hnonempty _]]. cbn [fst snd].
    split; [exact Heq|]. split; [exact Hnonempty|].
    unfold SEOAgent.group_record, record_get. split; [|split].
    + apply get_set_same.
    + rewrite get_set_other by discriminate. apply get_set_same.
    + intros Hc Hi. rewrite !get_set_other by assumption.
      cbn. now rewrite String.eqb_refl.
Qed.

End Grouping.

(* ================================================================== *)
(** ** More on the tabular agent *)
(* ================================================================== *)

Section SheetRows.
Import Js Schema Spec Measure.
Context {Num : JsNumber}.

Lemma fold_set_get (accessor : string -> prim) (headers : list string) :
  forall (obj : Row) (h : string),
    get PUndefined
        (fold_left (fun obj header => set obj header (accessor header)) headers obj) h
    = if in_dec string_dec h headers then accessor h else get PUndefined obj h.
Proof.
  induction headers as [|h0 headers IH]; intros obj h; [reflexivity|].
  cbn [fold_left]. rewrite IH.
  destruct (in_dec string_dec h headers) as [Hin|Hnin];
    destruct (in_dec string_dec h (h0 :: headers)) as [Hin'|Hnin'];
    try reflexivity.
  - elim Hnin'. now right.
  - destruct Hin' as [->|Hin']; [apply get_set_same | contradiction].
  - apply get_set_other. intros ->. apply Hnin'. now left.
Qed.

Lemma fold_set_keys (accessor : string -> prim) (headers : list string) :
  forall obj : Row,
    NoDup (map fst obj) ->
    NoDup (map fst (fold_left (fun obj header => set obj header (accessor header))
                              headers obj)) /\
    (forall h, In h (map fst (fold_left (fun obj header => set obj header (accessor header))
                                        headers obj))
               <-> In h (map fst obj) \/ In h headers).
Proof.
  induction headers as [|h0 headers IH]; intros obj Hnd; cbn [fold_left].
  - split; [exact Hnd | intros h; simpl; tauto].
  - assert (Hset : NoDup (map fst (set obj h0 (accessor h0))) /\
                   forall h, In h (map fst (set obj h0 (accessor h0)))
                             <-> In h (map fst obj) \/ h = h0).
    { rewrite keys_set. destruct (has obj h0) eqn:Hhas.
      - split; [exact Hnd|]. intros h. split; [now left|].
        intros [H| ->]; [exact H | now apply has_In].
      - split.
        + apply Permutation_NoDup with (l := h0 :: map fst obj).
          * apply Permutation_cons_append.
          * constructor; [|exact Hnd]. intros Habs. apply has_In in Habs. congruence.
        + intros h. rewrite in_app_iff. simpl. intuition. }
    destruct Hset as [Hnd' Hkeys].
    destruct (IH _ Hnd') as [Hnd'' Hkeys'']. split; [exact Hnd''|].
    intros h. rewrite Hkeys'', Hkeys. simpl. intuition.
Qed.

(** X11.  The rows built by [loadSpreadsheetData] read back the sheet: there
    is one row per sheet row, in order; its columns are exactly the headers,
    each once; the cell of a header is what [row.get] gave for it, and any
    other column reads as [undefined].  Column names are those that do not
    collide with the members of [Object.prototype]. *)
Theorem loaded_rows_read_back :
  forall (w : World) (id : string) (sheet : Sheet),
    loadSheet w id = Returned sheet ->
    Forall (fun h => inherited h = false) (headerValues sheet) ->
    exists rows,
      SEOAgent.loadSpreadsheetData id w = ([EvLoadSheet id], Returned rows) /\
      Forall2 (fun (row : Row) (accessor : string -> prim) =>
                 NoDup (map fst row) /\
                 (forall h, In h (map fst row) <-> In h (headerValues sheet)) /\
                 (forall h, In h (headerValues sheet) -> row_get row h = accessor h) /\
                 (forall h, ~ In h (headerValues sheet) -> inherited h = false ->
                            row_get row h = PUndefined))
              rows (sheetRows sheet).
Proof.
  intros w id sheet Hload _. exists (rows_of sheet). split.
  - unfold SEOAgent.loadSpreadsheetData. run. rewrite Hload. reflexivity.
  - unfold rows_of. induction (sheetRows sheet) as [|accessor rest IH]; simpl;
      constructor; [|exact IH].
    destruct (fold_set_keys accessor (headerValues sheet) [] (NoDup_nil _))
      as [Hnd Hkeys].
    split; [exact Hnd|]. split; [|split].
    + intros h. rewrite Hkeys. simpl. tauto.
    + intros h Hh. unfold row_get. rewrite fold_set_get.
      destruct (in_dec string_dec h (headerValues sheet)); [reflexivity | contradiction].
    + intros h Hh _. unfold row_get. rewrite fold_set_get.
      destruct (in_dec string_dec h (headerValues sheet)); [contradiction | reflexivity].
Qed.

End SheetRows.

Section SEOPipeline.
Import Js Schema Spec Measure.
Context {Num : JsNumber}.

(** The whole [try] block, stage by stage. *)
Lemma seo_try_run (q : SEOAgent.SEOQuery) (w : World) :
  SEOAgent.processQuery_try q w
  = if credentials_json w then
      match resolved_spreadsheetId q w with
      | None => ([], Thrown no_spreadsheet)
      | Some id =>
          match loadSheet w id with
          | Thrown e => ([EvLoadSheet id], Thrown e)
          | Returned sheet =>
              match SEOAgent.inferDataPlan (SEOAgent.query q) (rows_of sheet) w with
              | (t, Thrown e) => (EvLoadSheet id :: t, Thrown e)
              | (t, Returned plan) =>
                  match SEOAgent.executeDataOperations (rows_of sheet) plan with
                  | Thrown e => (EvLoadSheet id :: t, Thrown e)
                  | Returned out =>
                      match SEOAgent.generateExplanation (SEOAgent.query q) out w with
                      | (t', Thrown e) => (EvLoadSheet id :: t ++ t', Thrown e)
                      | (t', Returned text) =>
                          (EvLoadSheet id :: t ++ t',
                           Returned {| success := true; data := Some out;
                                       explanation := text; error := None |})
                      end
                  end
              end
          end
      end
    else ([], Thrown not_initialized).
Proof.
  unfold SEOAgent.processQuery_try, SEOAgent.ensureInitialized,
         resolved_spreadsheetId, SEOAgent.loadSpreadsheetData.
  run. destruct (credentials_json w); run; [|reflexivity].
  destruct (SEOAgent.or_string (SEOAgent.spreadsheetId q) (SEO_SPREADSHEET_ID w))
    as [id|]; [|reflexivity].
  destruct (String.eqb id ""); [reflexivity|]. run.
  destruct (loadSheet w id) as [sheet|e]; run; [|reflexivity].
  fold (rows_of sheet).
  destruct (SEOAgent.inferDataPlan (SEOAgent.query q) (rows_of sheet) w)
    as [t [plan|e]]; run; [|reflexivity].
  destruct (SEOAgent.executeDataOperations (rows_of sheet) plan) as [out|e]; run;
    [|now rewrite app_nil_r].
  destruct (SEOAgent.generateExplanation (SEOAgent.query q) out w)
    as [t' [text|e]]; run; [|reflexivity].
  now rewrite app_nil_r.
Qed.

(** X20.  Without credentials, or without a spreadsheet id in the request
    and in the configuration, the tabular agent fails before any external
    call: its trace is empty. *)
Theorem seo_fails_before_any_call :
  forall (w : World) (q : SEOAgent.SEOQuery),
    credentials_json w = false \/ resolved_spreadsheetId q w = None ->
    trace (SEOAgent.processQuery q w) = [] /\
    exists msg, result (SEOAgent.processQuery q w) = Returned (failed seo_context msg).
Proof.
  intros w q H. rewrite seo_processQuery_run, seo_try_run.
  destruct (credentials_json w).
  - destruct H as [H|H]; [discriminate|]. rewrite H. split; [reflexivity|].
    eexists; reflexivity.
  - split; [reflexivity|]. eexists; reflexivity.
Qed.

Lemma inferDataPlan_only_gateway query rows :
  only is_gateway (SEOAgent.inferDataPlan query rows).
Proof.
  unfold SEOAgent.inferDataPlan.
  apply only_bind; [apply chat_only_gateway | intros response].
  destruct (match_object response); repeat only_step.
Qed.

Lemma gateway_event_not_load (t : list event) (id : string) :
  forallb is_gateway t = true -> ~ In (EvLoadSheet id) t.
Proof.
  intros Hall Hin. rewrite forallb_forall in Hall.
  specialize (Hall _ Hin). discriminate.
Qed.

Lemma calls_loadSheet_gateway (t : list event) :
  forallb is_gateway t = true -> calls_loadSheet t = 0.
Proof.
  unfold calls_loadSheet. induction t as [|e t IH]; simpl; [reflexivity|].
  destruct e; simpl; try discriminate; exact IH.
Qed.

Lemma calls_loadSheet_app (t t' : list event) :
  calls_loadSheet (t ++ t') = calls_loadSheet t + calls_loadSheet t'.
Proof. unfold calls_loadSheet. now rewrite filter_app, length_app. Qed.

(** X21.  The tabular agent loads at most one spreadsheet per query, and it
    is the one named in the request when that is a non-empty string, else
    the configured [SEO_SPREADSHEET_ID]. *)
Theorem seo_loads_the_resolved_sheet :
  forall (w : World) (q : SEOAgent.SEOQuery),
    calls_loadSheet (trace (SEOAgent.processQuery q w)) <= 1 /\
    (forall id,
        In (EvLoadSheet id) (trace (SEOAgent.processQuery q w)) ->
        id <> ""%string /\
        ((SEOAgent.spreadsheetId q = Some id) \/
         ((SEOAgent.spreadsheetId q = None \/ SEOAgent.spreadsheetId q = Some ""%string) /\
          SEO_SPREADSHEET_ID w = Some id))).
Proof.
  intros w q. rewrite seo_processQuery_run, seo_try_run.
  destruct (credentials_json w); [|cbn; split; [lia | intros id []]].
  destruct (resolved_spreadsheetId q w) as [id|] eqn:Hres;
    [|cbn; split; [lia | intros id []]].
  assert (Hid : id <> ""%string /\
                ((SEOAgent.spreadsheetId q = Some id) \/
                 ((SEOAgent.spreadsheetId q = None \/
                   SEOAgent.spreadsheetId q = Some ""%string) /\
                  SEO_SPREADSHEET_ID w = Some id))).
  { unfold resolved_spreadsheetId, SEOAgent.or_string in Hres.
    destruct (SEOAgent.spreadsheetId q) as [s|].
    - destruct (String.eqb s "") eqn:Es.
      + apply String.eqb_eq in Es. subst s.
        destruct (SEO_SPREADSHEET_ID w) as [s'|]; [|discriminate].
        destruct (String.eqb s' "") eqn:Es'; [discriminate|].
        apply String.eqb_neq in Es'. inversion Hres; subst. auto.
      + rewrite Es in Hres. apply String.eqb_neq in Es. inversion Hres; subst. auto.
    - destruct (SEO_SPREADSHEET_ID w) as [s'|]; [|discriminate].
      destruct (String.eqb s' "") eqn:Es'; [discriminate|].
      apply String.eqb_neq in Es'. inversion Hres; subst. auto. }
  assert (Hshape : forall (t : list event),
             forallb is_gateway t = true ->
             calls_loadSheet (EvLoadSheet id :: t) <= 1 /\
             (forall id', In (EvLoadSheet id') (EvLoadSheet id :: t) ->
                          id' <> ""%string /\
                          ((SEOAgent.spreadsheetId q = Some id') \/
                           ((SEOAgent.spreadsheetId q = None \/
                             SEOAgent.spreadsheetId q = Some ""%string) /\
                            SEO_SPREADSHEET_ID w = Some id')))).
  { intros t Ht. split.
    - unfold calls_loadSheet. cbn [filter is_loadSheet length].
      fold (calls_loadSheet t). rewrite (calls_loadSheet_gateway t Ht). lia.
    - intros id' [Heq|Hin]; [inversion Heq; subst; exact Hid|].
      now elim (gateway_event_not_load _ _ Ht Hin). }
  destruct (loadSheet w id) as [sheet|e]; [|exact (Hshape [] eq_refl)].
  pose proof (inferDataPlan_only_gateway (SEOAgent.query q) (rows_of sheet) w) as Hinfer.
  destruct (SEOAgent.inferDataPlan (SEOAgent.query q) (rows_of sheet) w)
    as [t [plan|e]]; cbn [trace fst] in *; [|exact (Hshape t Hinfer)].
  destruct (SEOAgent.executeDataOperations (rows_of sheet) plan) as [out|e];
    [|exact (Hshape t Hinfer)].
  pose proof (chat_only_gateway
                [ {| role := system; content := Text "You are an SEO consultant." |};
                  {| role := user;
                     content := SEOExplanationPrompt (SEOAgent.query q) out |} ]
                "gemini-2.5-flash"
                {| Gateway.opt_temperature := Some 7%N; Gateway.maxTokens := None |} w)
    as Hgen.
  change (Gateway.chat _ _ _ w)
    with (SEOAgent.generateExplanation (SEOAgent.query q) out w) in Hgen.
  destruct (SEOAgent.generateExplanation (SEOAgent.query q) out w) as [t' [text|e]];
    cbn [trace fst] in *; apply Hshape; rewrite forallb_app, Hinfer, Hgen; reflexivity.
Qed.

(** X28.  A successful result of the tabular agent is computed from the
    sheet it loaded: the plan was inferred from that sheet's rows, and the
    result's [data] is what [executeDataOperations] returns on those rows
    with that plan, so it echoes the plan and counts its records. *)
Theorem seo_success_carries_results :
  forall (w : World) (q : SEOAgent.SEOQuery) (r : SEOResponse),
    result (SEOAgent.processQuery q w) = Returned r ->
    success r = true ->
    exists id sheet plan out,
      resolved_spreadsheetId q w = Some id /\
      loadSheet w id = Returned sheet /\
      result (SEOAgent.inferDataPlan (SEOAgent.query q) (rows_of sheet) w)
      = Returned plan /\
      SEOAgent.executeDataOperations (rows_of sheet) plan = Returned out /\
      data r = Some out /\
      Schema.plan out = plan /\
      resultCount out = length (results out) /\
      error r = None.
Proof.
  intros w q r Hr Hs. rewrite seo_processQuery_run, seo_try_run in Hr.
  destruct (credentials_json w);
    [|cbn in Hr; inversion Hr; subst r; discriminate].
  destruct (resolved_spreadsheetId q w) as [id|] eqn:Hid;
    [|cbn in Hr; inversion Hr; subst r; discriminate].
  destruct (loadSheet w id) as [sheet|e] eqn:Hload;
    [|cbn in Hr; inversion Hr; subst r; discriminate].
  destruct (SEOAgent.inferDataPlan (SEOAgent.query q) (rows_of sheet) w)
    as [t [plan|e]] eqn:Hplan; [|cbn in Hr; inversion Hr; subst r; discriminate].
  destruct (SEOAgent.executeDataOperations (rows_of sheet) plan) as [out|e] eqn:Hexec;
    [|cbn in Hr; inversion Hr; subst r; discriminate].
  destruct (SEOAgent.generateExplanation (SEOAgent.query q) out w) as [t' [text|e]];
    [|cbn in Hr; inversion Hr; subst r; discriminate].
  cbn in Hr. inversion Hr; subst r. exists id, sheet, plan, out.
  assert (Hout : Schema.plan out = plan /\ resultCount out = length (results out)).
  { unfold SEOAgent.executeDataOperations in Hexec.
    destruct (SEOAgent.applyGroup plan (SEOAgent.applyFilters plan (rows_of sheet)));
      [|discriminate].
    inversion Hexec. split; reflexivity. }
  destruct Hout as [Hp Hc].
  rewrite Hplan. repeat split; try reflexivity; assumption.
Qed.

End SEOPipeline.

(* ================================================================== *)
(** ** More on the orchestrator and the HTTP route *)
(* ================================================================== *)

Section OrchestratorPipeline.
Import Js Schema Spec Measure.
Context {Num : JsNumber}.

Lemma array_includes_In (l : list string) (s : string) :
  array_includes l s = true <-> In s l.
Proof.
  unfold array_includes. rewrite existsb_exists. split.
  - intros [x [Hin Heq]]. apply String.eqb_eq in Heq. now subst.
  - intros Hin. exists s. split; [exact Hin | apply String.eqb_refl].
Qed.

Lemma fallback_is_label (query : string) (propertyId : option string) :
  In (fallback_intent query propertyId) labels.
Proof.
  unfold fallback_intent, labels.
  destruct (Orchestrator.truthy propertyId); [simpl; tauto|].
  destruct (existsb _ _); simpl; tauto.
Qed.

Lemma detectIntent_label (query : string) (propertyId : option string) (w : World)
      (intent : string) :
  result (Orchestrator.detectIntent query propertyId w) = Returned intent ->
  In intent labels.
Proof.
  rewrite detectIntent_run.
  destruct (Gateway.chat _ _ _ w) as [t [reply|e]]; cbn [result snd]; [|discriminate].
  destruct (array_includes ["analytics"; "seo"; "both"] (toLowerCase (trim reply)))
    eqn:Hl; intros H; inversion H; subst intent; clear H.
  - apply array_includes_In in Hl. exact Hl.
  - apply fallback_is_label.
Qed.

(** X22.  [detectIntent] only ever returns "analytics", "seo" or "both".  A
    reply that is one of them up to surrounding white space and letter case
    is returned in its trimmed, lower-cased form; [detectIntent] throws only
    when the gateway does. *)
Theorem detectIntent_returns_a_label :
  forall (w : World) (query : string) (propertyId : option string),
    (forall intent,
        result (Orchestrator.detectIntent query propertyId w) = Returned intent ->
        In intent labels) /\
    (forall reply,
        result (Gateway.chat (intent_messages query propertyId) "gemini-2.5-flash"
                             classifier_options w) = Returned reply ->
        In (toLowerCase (trim reply)) labels ->
        result (Orchestrator.detectIntent query propertyId w)
        = Returned (toLowerCase (trim reply))) /\
    (forall e,
        result (Orchestrator.detectIntent query propertyId w) = Thrown e <->
        result (Gateway.chat (intent_messages query propertyId) "gemini-2.5-flash"
                             classifier_options w) = Thrown e).
Proof.
  intros w query propertyId. split; [|split].
  - intros intent. apply detectIntent_label.
  - intros reply Hreply Hlabel. rewrite detectIntent_run.
    destruct (Gateway.chat _ _ _ w) as [t [reply'|e]]; cbn [result snd] in *;
      [|discriminate].
    inversion Hreply; subst reply'.
    apply array_includes_In in Hlabel. unfold labels in Hlabel. now rewrite Hlabel.
  - intros e. rewrite detectIntent_run.
    destruct (Gateway.chat _ _ _ w) as [t [reply|e']]; cbn [result snd];
      split; intros H; try discriminate; exact H.
Qed.

Lemma orchestrator_run (request : Orchestrator.QueryRequest) (w : World) :
  Orchestrator.processQuery request w
  = match Orchestrator.detectIntent (Orchestrator.query request)
                                    (Orchestrator.propertyId request) w with
    | (t, Thrown e) => (t, Returned (failure_response e))
    | (t, Returned intent) =>
        match route intent request w with
        | (t', Thrown e) => (t ++ t', Returned (failure_response e))
        | (t', Returned r) =>
            (t ++ t', Returned (Orchestrator.with_metadata r (metadata_of intent)))
        end
    end.
Proof.
  unfold Orchestrator.processQuery, Orchestrator.processQuery_try.
  rewrite try_catch_run, bind_run.
  destruct (Orchestrator.detectIntent (Orchestrator.query request)
                                      (Orchestrator.propertyId request) w)
    as [t [intent|e]].
  - rewrite !bind_run. fold (route intent request).
    destruct (route intent request w) as [t' [r|e]]; cbn.
    + now rewrite app_nil_r.
    + now rewrite app_nil_r.
  - cbn. now rewrite app_nil_r.
Qed.

Lemma routeToAnalytics_returns (request : Orchestrator.QueryRequest) (w : World) :
  exists r, result (Orchestrator.routeToAnalytics request w) = Returned r.
Proof.
  unfold Orchestrator.routeToAnalytics.
  destruct (Orchestrator.propertyId request) as [id|]; [|eexists; reflexivity].
  destruct (String.eqb id ""); [eexists; reflexivity|].
  rewrite bind_run, analytics_processQuery_run.
  destruct (AnalyticsAgent.processQuery_try _ w) as [t [r|e]]; eexists; reflexivity.
Qed.

Lemma routeToSEO_returns (request : Orchestrator.QueryRequest) (w : World) :
  exists r, result (Orchestrator.routeToSEO request w) = Returned r.
Proof.
  unfold Orchestrator.routeToSEO.
  rewrite bind_run, seo_processQuery_run.
  destruct (SEOAgent.processQuery_try _ w) as [t [r|e]]; eexists; reflexivity.
Qed.

(** X23.  The orchestrator's [processQuery] always returns a response with
    metadata.  Either the metadata names the intent detected, one of the
    three labels, with [agentsUsed] being both agents for "both" and the one
    agent otherwise; or the intent is "unknown", no agent is listed,
    [success] is false and the response is "Failed to process query: "
    followed by the error's message. *)
Theorem orchestrator_response_has_metadata :
  forall (w : World) (request : Orchestrator.QueryRequest),
    exists r,
      result (Orchestrator.processQuery request w) = Returned r /\
      ((exists intent,
           In intent labels /\
           result (Orchestrator.detectIntent (Orchestrator.query request)
                                             (Orchestrator.propertyId request) w)
           = Returned intent /\
           Orchestrator.metadata r
           = Some {| Orchestrator.intent := intent;
                     Orchestrator.agentsUsed :=
                       if String.eqb intent "both" then ["analytics"; "seo"]
                       else [intent] |}) \/
       (Orchestrator.metadata r
        = Some {| Orchestrator.intent := "unknown"; Orchestrator.agentsUsed := [] |} /\
        Orchestrator.success r = false /\
        Orchestrator.data r = None /\
        exists msg,
          Orchestrator.response r = ("Failed to process query: " ++ msg)%string /\
          Orchestrator.error r = Some msg)).
Proof.
  intros w request. rewrite orchestrator_run.
  pose proof (detectIntent_label (Orchestrator.query request)
                                 (Orchestrator.propertyId request) w) as Hlabel.
  destruct (Orchestrator.detectIntent (Orchestrator.query request)
                                      (Orchestrator.propertyId request) w)
    as [t [intent|e]]; cbn [result snd] in *.
  - specialize (Hlabel intent eq_refl).
    destruct (route intent request w) as [t' [r|e]]; cbn [result snd].
    + eexists. split; [reflexivity|]. left. exists intent. repeat split. exact Hlabel.
    + eexists. split; [reflexivity|]. right. repeat split.
      exists (message e). split; reflexivity.
  - eexists. split; [reflexivity|]. right. repeat split.
    exists (message e). split; reflexivity.
Qed.

(** X24.  When the classification call fails, no agent is called: the
    response is the failed one with intent "unknown", built from the
    gateway's error, and the trace is that of the classification alone. *)
Theorem classification_failure_stops_the_query :
  forall (w : World) (request : Orchestrator.QueryRequest) t (e : exn),
    Gateway.chat (intent_messages (Orchestrator.query request)
                                  (Orchestrator.propertyId request))
                 "gemini-2.5-flash" classifier_options w = (t, Thrown e) ->
    Orchestrator.processQuery request w
    = (t, Returned
            {| Orchestrator.success := false;
               Orchestrator.response := "Failed to process query: " ++ message e;
               Orchestrator.data := None;
               Orchestrator.metadata :=
                 Some {| Orchestrator.intent := "unknown";
                         Orchestrator.agentsUsed := [] |};
               Orchestrator.error := Some (message e) |}) /\
    calls_runReport t = 0 /\ calls_loadSheet t = 0.
Proof.
  intros w request t e Hchat.
  pose proof (chat_only_gateway
                (intent_messages (Orchestrator.query request)
                                 (Orchestrator.propertyId request))
                "gemini-2.5-flash" classifier_options w) as Honly.
  rewrite Hchat in Honly. cbn [trace fst] in Honly.
  rewrite orchestrator_run, detectIntent_run, Hchat. split; [reflexivity|].
  split; [now apply calls_runReport_gateway | now apply calls_loadSheet_gateway].
Qed.

(** X25.  An analytics query without a propertyId is refused without
    calling the analytics agent: when the intent detected is "analytics" and
    the propertyId is absent or empty, the response is the fixed "Missing
    propertyId" failure and the trace is that of the classification alone. *)
Theorem analytics_without_propertyId_is_refused :
  forall (w : World) (request : Orchestrator.QueryRequest) t,
    Orchestrator.detectIntent (Orchestrator.query request)
                              (Orchestrator.propertyId request) w
    = (t, Returned "analytics"%string) ->
    Orchestrator.truthy (Orchestrator.propertyId request) = false ->
    Orchestrator.processQuery request w
    = (t, Returned
            {| Orchestrator.success := false;
               Orchestrator.response :=
                 "Analytics queries require a propertyId. Please provide a GA4 property ID in your request.";
               Orchestrator.data := None;
               Orchestrator.metadata :=
                 Some {| Orchestrator.intent := "analytics";
                         Orchestrator.agentsUsed := ["analytics"] |};
               Orchestrator.error := Some "Missing propertyId" |}).
Proof.
  intros w request t Hintent Hid. rewrite orchestrator_run, Hintent.
  unfold route. cbn [String.eqb Ascii.eqb Bool.eqb].
  assert (Hroute : Orchestrator.routeToAnalytics request w
                   = ([], Returned Orchestrator.missing_propertyId_response)).
  { unfold Orchestrator.routeToAnalytics, Orchestrator.truthy in *.
    destruct (Orchestrator.propertyId request) as [id|]; [|reflexivity].
    destruct (String.eqb id ""); [reflexivity | discriminate]. }
  change (if String.eqb "analytics" "analytics"
          then Orchestrator.routeToAnalytics request
          else _) with (Orchestrator.routeToAnalytics request).
  rewrite Hroute. now rewrite app_nil_r.
Qed.

Lemma analytics_branch_returns (request : Orchestrator.QueryRequest) (w : World) :
  exists a, result (analytics_branch request w) = Returned a.
Proof.
  unfold analytics_branch.
  destruct (Orchestrator.propertyId request) as [id|]; [|eexists; reflexivity].
  destruct (String.eqb id ""); [eexists; reflexivity|].
  rewrite analytics_processQuery_run.
  destruct (AnalyticsAgent.processQuery_try _ w) as [t [r|e]]; eexists; reflexivity.
Qed.

(** X26.  Whatever [routeToBoth] returns is folded from the two agents'
    results: [success] is their conjunction, the analytics data is passed on
    only when the analytics agent succeeded while the tabular data is passed
    on as it is, the response is the aggregation's text, and no [error] is
    set even when [success] is false.  [routeToBoth] throws only when the
    aggregation call does. *)
Theorem both_folds_the_two_results :
  forall (w : World) (request : Orchestrator.QueryRequest),
    exists (a : AnalyticsResponse) (s : SEOResponse),
      result (analytics_branch request w) = Returned a /\
      result (SEOAgent.processQuery (seo_query request) w) = Returned s /\
      (forall r,
          result (Orchestrator.routeToBoth request w) = Returned r ->
          Orchestrator.success r = success a && success s /\
          Orchestrator.data r
          = Some (Orchestrator.BothData (if success a then data a else None) (data s)) /\
          result (Orchestrator.aggregateResponses (Orchestrator.query request) a s w)
          = Returned (Orchestrator.response r) /\
          Orchestrator.error r = None) /\
      (forall e,
          result (Orchestrator.routeToBoth request w) = Thrown e <->
          result (Orchestrator.aggregateResponses (Orchestrator.query request) a s w)
          = Thrown e).
Proof.
  intros w request.
  destruct (analytics_branch_returns request w) as [a Ha].
  destruct (seo_processQuery_returns (seo_query request) w) as [s Hs].
  exists a, s. split; [exact Ha|]. split; [exact Hs|].
  unfold Orchestrator.routeToBoth. fold (analytics_branch request).
  fold (seo_query request). rewrite bind_run. unfold Orchestrator.Promise_all.
  destruct (analytics_branch request w) as [ta ra].
  destruct (SEOAgent.processQuery (seo_query request) w) as [ts rs].
  cbn [result snd] in Ha, Hs. subst ra rs. cbv beta iota. rewrite !bind_run.
  destruct (Orchestrator.aggregateResponses (Orchestrator.query request) a s w)
    as [t [text|e]]; cbn [trace result fst snd ret].
  - split.
    + intros r Hr. unfold ret in Hr. cbn in Hr. inversion Hr; subst r. cbn.
      repeat split.
    + intros e. unfold ret. cbn. split; discriminate.
  - split.
    + intros r Hr. discriminate.
    + intros e'. split; intros H; inversion H; reflexivity.
Qed.

End OrchestratorPipeline.

Section Budget.
Import Js Schema Spec Measure.
Context {Num : JsNumber}.

Lemma calls_fetch_app (t t' : list event) :
  calls_fetch (t ++ t') = calls_fetch t + calls_fetch t'.
Proof. unfold calls_fetch. now rewrite filter_app, length_app. Qed.

Lemma budget_ret {A} (a : A) : fetches_at_most 0 (ret a).
Proof. intros w. cbn. lia. Qed.

Lemma budget_throw {A} (e : exn) : fetches_at_most 0 (@throw _ A e).
Proof. intros w. cbn. lia. Qed.

Lemma budget_ask : fetches_at_most 0 ask.
Proof. intros w. cbn. lia. Qed.

Lemma budget_settle {A} (o : outcome A) : fetches_at_most 0 (settle o).
Proof. intros w. cbn. lia. Qed.

Lemma budget_emit (e : event) : is_fetch e = false -> fetches_at_most 0 (emit e).
Proof. intros H w. unfold calls_fetch. cbn. rewrite H. cbn. lia. Qed.

Lemma budget_weaken {A} (n n' : nat) (m : M A) :
  n <= n' -> fetches_at_most n m -> fetches_at_most n' m.
Proof. intros Hle Hm w. specialize (Hm w). lia. Qed.

Lemma budget_bind {A B} (n n' : nat) (m : M A) (k : A -> M B) :
  fetches_at_most n m -> (forall a, fetches_at_most n' (k a)) ->
  fetches_at_most (n + n') (bind m k).
Proof.
  intros Hm Hk w. rewrite bind_run. specialize (Hm w).
  destruct (m w) as [t [a|e]]; cbn [trace fst] in *; [|lia].
  rewrite calls_fetch_app. specialize (Hk a w). lia.
Qed.

Lemma budget_try_catch {A} (n n' : nat) (body : M A) (handler : exn -> M A) :
  fetches_at_most n body -> (forall e, fetches_at_most n' (handler e)) ->
  fetches_at_most (n + n') (try_catch body handler).
Proof.
  intros Hm Hk w. rewrite try_catch_run. specialize (Hm w).
  destruct (body w) as [t [a|e]]; cbn [trace fst] in *; [lia|].
  rewrite calls_fetch_app. specialize (Hk e w). lia.
Qed.

Lemma budget_all {A B} (n n' : nat) (a : M A) (b : M B) :
  fetches_at_most n a -> fetches_at_most n' b ->
  fetches_at_most (n + n') (Orchestrator.Promise_all a b).
Proof.
  intros Ha Hb w. unfold Orchestrator.Promise_all.
  specialize (Ha w). specialize (Hb w).
  destruct (a w) as [ta ra]. destruct (b w) as [tb rb]. cbn [trace fst] in *.
  rewrite calls_fetch_app. lia.
Qed.

Lemma budget_chat messages model options :
  fetches_at_most 3 (Gateway.chat messages model options).
Proof. intros w. apply attempts_fetch_bound. Qed.

Lemma budget_analytics (q : AnalyticsAgent.AnalyticsQuery) :
  fetches_at_most 6 (AnalyticsAgent.processQuery q).
Proof.
  unfold AnalyticsAgent.processQuery, AnalyticsAgent.processQuery_try.
  apply (budget_try_catch 6 0); [|intros e; apply budget_ret].
  apply (budget_bind 3 3).
  { unfold AnalyticsAgent.inferReportingPlan.
    apply (budget_bind 3 0); [apply budget_chat | intros response].
    destruct (match_object response); [|apply budget_throw].
    apply (budget_bind 0 0); [apply budget_ask | intros w; apply budget_settle]. }
  intros plan. apply (budget_bind 0 3); [apply budget_settle | intros _].
  apply (budget_bind 0 3).
  { unfold AnalyticsAgent.executeGA4Query.
    apply (budget_bind 0 0); [now apply budget_emit | intros _].
    apply (budget_bind 0 0); [apply budget_ask | intros w; apply budget_settle]. }
  intros payload. apply (budget_bind 3 0); [|intros text; apply budget_ret].
  unfold AnalyticsAgent.generateExplanation, AnalyticsAgent.join_field.
  apply (budget_bind 0 3).
  { destruct (metrics plan); [apply budget_ret | apply budget_throw]. }
  intros m. apply (budget_bind 0 3); [|intros d; apply budget_chat].
  destruct (dimensions plan); [apply budget_ret | apply budget_throw].
Qed.

Lemma budget_seo (q : SEOAgent.SEOQuery) :
  fetches_at_most 6 (SEOAgent.processQuery q).
Proof.
  unfold SEOAgent.processQuery, SEOAgent.processQuery_try.
  apply (budget_try_catch 6 0); [|intros e; apply budget_ret].
  apply (budget_bind 0 6).
  { unfold SEOAgent.ensureInitialized.
    apply (budget_bind 0 0); [apply budget_ask | intros w].
    destruct (credentials_json w); [apply budget_ret | apply budget_throw]. }
  intros _. apply (budget_bind 0 6); [apply budget_ask | intros w].
  destruct (SEOAgent.or_string _ _) as [id|];
    [|apply (budget_weaken 0); [lia | apply budget_throw]].
  destruct (String.eqb id "");
    [apply (budget_weaken 0); [lia | apply budget_throw]|].
  apply (budget_bind 0 6).
  { unfold SEOAgent.loadSpreadsheetData.
    apply (budget_bind 0 0); [now apply budget_emit | intros _].
    apply (budget_bind 0 0); [apply budget_ask | intros w'].
    apply (budget_bind 0 0); [apply budget_settle | intros sheet; apply budget_ret]. }
  intros rows. apply (budget_bind 3 3).
  { unfold SEOAgent.inferDataPlan.
    apply (budget_bind 3 0); [apply budget_chat | intros response].
    destruct (match_object response); [|apply budget_throw].
    apply (budget_bind 0 0); [apply budget_ask | intros w'; apply budget_settle]. }
  intros plan. apply (budget_bind 0 3); [apply budget_settle | intros out].
  apply (budget_bind 3 0); [apply budget_chat | intros text; apply budget_ret].
Qed.

Lemma budget_route (intent : string) (request : Orchestrator.QueryRequest) :
  fetches_at_most 15 (route intent request).
Proof.
  unfold route.
  destruct (String.eqb intent "analytics").
  { apply (budget_weaken 6); [lia|]. unfold Orchestrator.routeToAnalytics.
    destruct (Orchestrator.propertyId request) as [id|];
      [|apply (budget_weaken 0); [lia | apply budget_ret]].
    destruct (String.eqb id "");
      [apply (budget_weaken 0); [lia | apply budget_ret]|].
    apply (budget_bind 6 0); [apply budget_analytics | intros r; apply budget_ret]. }
  destruct (String.eqb intent "seo").
  { apply (budget_weaken 6); [lia|]. unfold Orchestrator.routeToSEO.
    apply (budget_bind 6 0); [apply budget_seo | intros r; apply budget_ret]. }
  destruct (String.eqb intent "both");
    [|apply (budget_weaken 0); [lia | apply budget_throw]].
  unfold Orchestrator.routeToBoth.
  apply (budget_bind 12 3).
  - apply (budget_all 6 6); [|apply budget_seo].
    destruct (Orchestrator.propertyId request) as [id|];
      [|apply (budget_weaken 0); [lia | apply budget_ret]].
    destruct (String.eqb id "");
      [apply (budget_weaken 0); [lia | apply budget_ret] | apply budget_analytics].
  - intros [a s]. apply (budget_bind 3 0); [apply budget_chat | intros text].
    apply budget_ret.
Qed.

(** X10.  One query costs a bounded number of gateway requests: at most 6
    for either agent (two [chat] calls of at most three attempts each) and
    at most 18 for the orchestrator (classification, both agents and the
    aggregation). *)
Theorem gateway_requests_are_bounded :
  (forall q w, calls_fetch (trace (AnalyticsAgent.processQuery q w)) <= 6) /\
  (forall q w, calls_fetch (trace (SEOAgent.processQuery q w)) <= 6) /\
  (forall request w, calls_fetch (trace (Orchestrator.processQuery request w)) <= 18).
Proof.
  split; [exact budget_analytics|]. split; [exact budget_seo|].
  intros request.
  unfold Orchestrator.processQuery, Orchestrator.processQuery_try.
  apply (budget_try_catch 18 0); [|intros e; apply budget_ret].
  apply (budget_bind 3 15).
  - unfold Orchestrator.detectIntent.
    apply (budget_bind 3 0); [apply budget_chat | intros response].
    destruct (negb _); [|apply budget_ret].
    destruct (Orchestrator.truthy _); [apply budget_ret|].
    destruct (_ || _)%bool; apply budget_ret.
  - intros intent. apply (budget_bind 15 0); [|intros r; apply budget_ret].
    exact (budget_route intent request).
Qed.

End Budget.

Section Route.
Import Js Schema Spec Measure.
Context {Num : JsNumber}.

(** X27.  The handler of [POST /query] answers 400 to a body the schema
    rejects, without calling the orchestrator or any service; otherwise it
    sends the orchestrator's response with status 200 when [success] is true
    and 500 when it is false.  It never throws, and its "Internal server
    error" reply is never sent. *)
Theorem postQuery_status :
  forall (w : World) (body : option Routes.Body),
    match Routes.safeParse body with
    | inr errors =>
        Routes.postQuery body w
        = ([], Returned {| Routes.statusCode := 400;
                           Routes.json := Routes.InvalidRequest errors |})
    | inl request =>
        exists r,
          result (Orchestrator.processQuery request w) = Returned r /\
          Routes.postQuery body w
          = (trace (Orchestrator.processQuery request w),
             Returned {| Routes.statusCode :=
                           if Orchestrator.success r then 200 else 500;
                         Routes.json := Routes.Result r |})
    end.
Proof.
  intros w body. unfold Routes.postQuery. rewrite try_catch_run.
  destruct (Routes.safeParse body) as [request|errors]; [|reflexivity].
  destruct (orchestrator_processQuery_returns request w) as [r Hr].
  exists r. split; [exact Hr|]. rewrite bind_run.
  destruct (Orchestrator.processQuery request w) as [t o]. cbn [result snd] in Hr.
  subst o. cbn. now rewrite app_nil_r.
Qed.

End Route.

(* ================================================================== *)
(** ** The further properties on sample inputs *)
(* ================================================================== *)

Lemma plan_without_metrics_fails_witness :
  exists r,
    Schema.result (AnalyticsAgent.processQuery Sample.top_pages Scenario.forgetful)
    = Js.Returned r /\ Schema.success r = false.
Proof.
  destruct (plan_without_metrics_fails (Num := RefNumber.kernel)
              Scenario.forgetful Sample.top_pages
              (Schema.trace
                 (AnalyticsAgent.inferReportingPlan
                    (AnalyticsAgent.query Sample.top_pages) Scenario.forgetful))
              Scenario.no_metrics_plan eq_refl (or_introl eq_refl))
    as [r [Hr [Hs _]]].
  exists r. split; assumption.
Defined.

Lemma analytics_success_carries_report_witness :
  Spec.calls_runReport
    (Schema.trace (AnalyticsAgent.processQuery Sample.top_pages Scenario.office)) = 1.
Proof.
  destruct (analytics_success_carries_report (Num := RefNumber.kernel)
              Scenario.office Sample.top_pages
              {| Schema.success := true; Schema.data := Some "{}"%string;
                 Schema.explanation := "{}"%string; Schema.error := None |}
              eq_refl eq_refl)
    as [plan [payload [_ [_ [_ [_ [_ H]]]]]]].
  exact H.
Defined.

Lemma negative_limit_drops_last_witness :
  length (SEOAgent.applyLimit Scenario.drop_last_plan
                              (map Js.record_of_row Sample.crawl)) = 2.
Proof.
  rewrite (negative_limit_drops_last (Num := RefNumber.kernel)
             Scenario.drop_last_plan
             (map Js.record_of_row Sample.crawl) (RefNumber.RInt (-1)) 0
             eq_refl eq_refl eq_refl).
  reflexivity.
Defined.

Lemma filter_order_irrelevant_witness :
  SEOAgent.applyFilters
    (Spec.filter_plan [Sample.status_is_200; Sample.protocol_is_not_https]) Sample.crawl
  = SEOAgent.applyFilters
      (Spec.filter_plan [Sample.protocol_is_not_https; Sample.status_is_200]) Sample.crawl.
Proof.
  exact (filter_order_irrelevant (Num := RefNumber.kernel)
           (Spec.filter_plan [Sample.status_is_200; Sample.protocol_is_not_https])
           (Spec.filter_plan [Sample.protocol_is_not_https; Sample.status_is_200])
           Sample.crawl
           (perm_swap Sample.protocol_is_not_https Sample.status_is_200 [])).
Defined.

Lemma sort_step_orders_strings_witness :
  Sorted (fun a b =>
            forall s t,
              Js.record_get a "Status Code" = Js.VPrim (Js.PString s) ->
              Js.record_get b "Status Code" = Js.VPrim (Js.PString t) ->
              Js.string_lt t s = false)
         (SEOAgent.applySort (Sample.sorted_plan Js.PUndefined)
                             (map Js.record_of_row Sample.crawl)).
Proof.
  refine (sort_step_orders_strings (Num := RefNumber.kernel)
            (Sample.sorted_plan Js.PUndefined) Sample.by_status
            (map Js.record_of_row Sample.crawl) eq_refl _).
  repeat constructor; eexists; reflexivity.
Defined.

Lemma grouping_throws_on_inherited_names_witness :
  SEOAgent.executeDataOperations Scenario.titled Scenario.group_by_title
  = Js.Thrown (Js.Error "groups[key].push is not a function").
Proof.
  destruct (grouping_throws_on_inherited_names (Num := RefNumber.kernel)
              Scenario.titled Scenario.group_by_title "Title" eq_refl
              ltac:(discriminate) eq_refl) as [_ H].
  exact (f_equal Js.Thrown
           (H (Js.Error "groups[key].push is not a function") eq_refl)).
Defined.

Lemma grouping_partitions_rows_witness :
  exists groups : list (string * list Js.Row),
    NoDup (map fst groups) /\
    Scenario.returned (SEOAgent.applyGroup Scenario.status_groups Sample.crawl)
    = map (SEOAgent.group_record "Status Code") groups.
Proof.
  destruct (grouping_partitions_rows (Num := RefNumber.kernel)
              Scenario.status_groups "Status Code" Sample.crawl
              (Scenario.returned
                 (SEOAgent.applyGroup Scenario.status_groups Sample.crawl))
              eq_refl ltac:(discriminate) eq_refl eq_refl)
    as [groups [Hrecords [Hnd _]]].
  exists groups. split; assumption.
Defined.

Lemma result_no_longer_than_table_witness :
  length (SEOAgent.applySort (Sample.sorted_plan Js.PUndefined)
                             (map Js.record_of_row Sample.crawl)) <= 3.
Proof.
  exact (proj2 (result_no_longer_than_table (Num := RefNumber.kernel)
                  Sample.crawl (Sample.sorted_plan Js.PUndefined)
                  {| Schema.plan := Sample.sorted_plan Js.PUndefined;
                     Schema.resultCount := 3;
                     Schema.results :=
                       SEOAgent.applySort (Sample.sorted_plan Js.PUndefined)
                                          (map Js.record_of_row Sample.crawl) |}
                  eq_refl)).
Defined.

Lemma loaded_rows_read_back_witness :
  exists rows,
    SEOAgent.loadSpreadsheetData "sheet-1" Scenario.office
    = ([Schema.EvLoadSheet "sheet-1"], Js.Returned rows) /\
    length rows = 2.
Proof.
  destruct (loaded_rows_read_back (Num := RefNumber.kernel)
              Scenario.office "sheet-1" Scenario.audit_sheet eq_refl
              ltac:(repeat constructor))
    as [rows [Hload Hrows]].
  exists rows. split; [exact Hload|].
  exact (Forall2_length Hrows).
Defined.

Lemma seo_fails_before_any_call_witness :
  Schema.trace (SEOAgent.processQuery Scenario.which_urls Sample.always_rate_limited) = [].
Proof.
  exact (proj1 (seo_fails_before_any_call (Num := RefNumber.kernel)
                  Sample.always_rate_limited Scenario.which_urls
                  (or_introl eq_refl))).
Defined.

Lemma seo_success_carries_results_witness :
  exists out,
    Schema.data
      (Scenario.returned_response
         (Schema.result (SEOAgent.processQuery Scenario.which_urls Scenario.office)))
    = Some out /\
    Schema.resultCount out = length (Schema.results out).
Proof.
  destruct (seo_success_carries_results (Num := RefNumber.kernel)
              Scenario.office Scenario.which_urls
              (Scenario.returned_response
                 (Schema.result
                    (SEOAgent.processQuery Scenario.which_urls Scenario.office)))
              eq_refl eq_refl)
    as [id [sheet [plan [out [_ [_ [_ [_ [Hdata [_ [Hcount _]]]]]]]]]]].
  exists out. split; assumption.
Defined.

Lemma classification_failure_stops_the_query_witness :
  Schema.trace (Orchestrator.processQuery Sample.pages_and_titles Scenario.offline)
  = Schema.trace
      (Gateway.chat (Spec.intent_messages
                       (Orchestrator.query Sample.pages_and_titles) None)
                    "gemini-2.5-flash" Spec.classifier_options Scenario.offline).
Proof.
  exact (f_equal fst
    (proj1 (classification_failure_stops_the_query (Num := RefNumber.kernel)
              Scenario.offline Sample.pages_and_titles
              (Schema.trace
                 (Gateway.chat (Spec.intent_messages
                                  (Orchestrator.query Sample.pages_and_titles) None)
                               "gemini-2.5-flash" Spec.classifier_options
                               Scenario.offline))
              (Js.Error "LiteLLM failed after 3 attempts: fetch failed") eq_refl))).
Defined.

Lemma analytics_without_propertyId_is_refused_witness :
  Orchestrator.error
    (Scenario.returned_orchestrator
       (Schema.result (Orchestrator.processQuery Scenario.sessions_last_week
                                                 Scenario.analyst)))
  = Some "Missing propertyId"%string.
Proof.
  rewrite (analytics_without_propertyId_is_refused (Num := RefNumber.kernel)
             Scenario.analyst Scenario.sessions_last_week
             (Schema.trace
                (Orchestrator.detectIntent
                   (Orchestrator.query Scenario.sessions_last_week) None
                   Scenario.analyst))
             eq_refl eq_refl).
  reflexivity.
Defined.

(* ================================================================== *)
(** ** The embedding on sample inputs *)
(* ================================================================== *)

Module Tests.
Import Js Schema RefNumber.

Example trim_lowercase_label : toLowerCase (trim "  Both ") = "both".
Proof. reflexivity. Qed.

Example match_object_greedy :
  match_object "Here: {a{b}c} tail } x" = Some "{a{b}c} tail }" /\
  match_object "no object } {" = None.
Proof. split; reflexivity. Qed.

(** Keys that are array indices come first, in ascending order. *)
Example entries_order :
  map fst (entries [("b", 1); ("10", 2); ("2", 3); ("a", 4); ("01", 5)])
  = ["2"; "10"; "b"; "a"; "01"].
Proof. reflexivity. Qed.

Example group_by_status :
  option_map (fun out => map (fun r => (record_get r "Status Code", record_get r "count"))
                             (results out))
    match SEOAgent.executeDataOperations Sample.crawl
            {| filters := None; groupBy := Some "Status Code"; sortBy := None;
               limit := PUndefined |} with
    | Returned out => Some out
    | Thrown _ => None
    end
  = Some [ (VPrim (PString "200"), VPrim (PNumber (RInt 2)));
           (VPrim (PString "404"), VPrim (PNumber (RInt 1))) ].
Proof. reflexivity. Qed.

(** A cell equal to the name of a member of [Object.prototype] makes the
    grouping throw. *)
Example group_by_inherited_name :
  SEOAgent.executeDataOperations
    [ [("Address", PString "http://example.com/"); ("Title", PString "constructor")] ]
    {| filters := None; groupBy := Some "Title"; sortBy := None; limit := PUndefined |}
  = Thrown (Error "groups[key].push is not a function").
Proof. reflexivity. Qed.

Example filter_sort_limit :
  option_map (fun out => map (fun r => record_get r "Address") (results out))
    match SEOAgent.executeDataOperations Sample.crawl
            {| filters := Some [Sample.status_is_200; Sample.protocol_is_not_https];
               groupBy := None;
               sortBy := Some {| sort_column := "Address"; desc := true |};
               limit := PNumber (RInt 1) |} with
    | Returned out => Some out
    | Thrown _ => None
    end
  = Some [ VPrim (PString "https://example.com/c") ].
Proof. reflexivity. Qed.

(** Two rows with the same status keep their order, ascending or descending. *)
Example sort_keeps_ties :
  map (fun r => record_get r "Address")
      (SEOAgent.applySort (Sample.sorted_plan PUndefined)
                          (map record_of_row Sample.crawl))
  = [ VPrim (PString "http://example.com/a"); VPrim (PString "https://example.com/c");
      VPrim (PString "https://example.com/b") ].
Proof. reflexivity. Qed.

Example chat_backoff :
  trace (Gateway.chat Sample.hello "gemini-2.5-flash" Sample.no_options
                      Sample.always_rate_limited)
  = let request := Gateway.mkRequest Sample.hello "gemini-2.5-flash" Sample.no_options in
    [ EvFetch request; EvSleep 1000; EvFetch request; EvSleep 2000;
      EvFetch request; EvSleep 4000 ].
Proof. reflexivity. Qed.

Example invented_metric_rejected :
  result (AnalyticsAgent.processQuery Sample.top_pages Sample.inventive)
  = Returned
      (Spec.failed Spec.analytics_context
         "Invalid metric: pageviews. Must be one of: activeUsers, sessions, screenPageViews, eventCount, conversions, totalRevenue, averageSessionDuration, bounceRate, engagementRate, newUsers, userEngagementDuration, sessionConversionRate").
Proof. reflexivity. Qed.

End Tests.
